(** * The coffee-market simulation engine ([src/simulation/market_simulator.py])

    A shallow embedding of [CoffeeMarketSimulator] and the properties its
    specification states about it.

    Modelling conventions.
    - Python floats are exact rationals ([Q]); [round(x, n)] is rounding half
      to even at [n] decimals.  Binary rounding error, NaN and infinities are
      outside the model: where the product that the code rounds lies within
      a rounding error of the middle between two cents, the code can store
      the other cent.  Statements about a rounded price therefore bound it
      (within half a cent of the product) and do not compute it.
    - The module-global generator of [random] is a tape of draws of
      [random.random()]; [uniform], [randint] and [choice] consume one draw
      each and are derived from it the way the library derives them.
    - A method of the simulator is a computation in the monad [M]: it reads
      and writes the [World] (the simulator object, the generator, the wall
      clock) and either returns or raises; what was written before a raise
      stays written, as in Python.
    - The entity dictionaries are records with the keys the engine and the
      generator of initial data use; a key whose presence the code tests
      ([in], [.get]) is an [option] field; the keys that the code reads
      unconditionally (an order's ["id"] and ["status"], say) are plain
      fields, so the [KeyError] of a dictionary without them is outside the
      model.  Distinct entries of a list are distinct objects.
    - The dates are unbounded and have no time zone.  Python's [datetime]
      ends at 9999-12-31, and a date string with a UTC offset gives a
      datetime that cannot be compared with the simulated date.  The
      hypotheses [days_left], [plain_dated] and [NoDup] of the statements
      below say where the model describes the code (see "Where the model
      describes the code").
    - The reading accessors ([get_suppliers] and the like) return
      [copy.deepcopy] of a collection; they are modelled over a store of
      mutable objects in [Module Store], where aliasing is visible. *)

From Stdlib Require Import ZArith QArith Qround Lqa Lia Ascii String.
From stdpp Require Import base option list strings pretty gmap.

Local Open Scope string_scope.
Local Open Scope Z_scope.

(** ** Python numbers *)

Module Py.

Definition Qltb (x y : Q) : bool := negb (Qle_bool y x).

(** [max(a, b)] keeps [a] unless [b > a]; [min(a, b)] keeps [a] unless
    [b < a]. *)
Definition max (a b : Q) : Q := if Qltb a b then b else a.
Definition min (a b : Q) : Q := if Qltb b a then b else a.

Definition round_half_even (x : Q) : Z :=
  let f := Qfloor x in
  match (x - inject_Z f ?= 1 # 2)%Q with
  | Lt => f
  | Gt => f + 1
  | Eq => if Z.even f then f else f + 1
  end.

(** [round(x, ndigits)] *)
Definition round (x : Q) (ndigits : nat) : Q :=
  let scale := inject_Z (10 ^ Z.of_nat ndigits) in
  (inject_Z (round_half_even (x * scale)) / scale)%Q.

(** [int(x)] of a float: truncation towards zero. *)
Definition int (x : Q) : Z :=
  if Qle_bool 0 x then Qfloor x else Qceiling x.

End Py.

(** ** Dates

    A naive [datetime] is its number of microseconds since 1970-01-01T00:00;
    a [timedelta] is a number of microseconds. *)

Definition datetime := Z.
Definition timedelta := Z.

Definition us_per_day : Z := 86400000000.

(** [timedelta(days=n)] *)
Definition timedelta_of_days (n : Z) : timedelta := n * us_per_day.

(** [td.days]: a timedelta is normalised with [0 <= seconds < 86400], so its
    days round towards minus infinity. *)
Definition timedelta_days (td : timedelta) : Z := td / us_per_day.

(** The parsing and formatting functions of [datetime] the simulator calls.
    [None] stands for the [ValueError] of the parser. *)
Class DatetimeLib := {
  fromisoformat : string -> option datetime;
  strptime_ymd : string -> option datetime;      (* strptime(s, "%Y-%m-%d") *)
  isoformat : datetime -> string;
  strftime_ymd : datetime -> string;             (* strftime("%Y-%m-%d") *)
  strftime_stamp : datetime -> string            (* strftime("%Y%m%d%H%M%S") *)
}.

(** A concrete calendar, used to run the simulator on examples. *)
Module Calendar.

Definition days_from_civil (y m d : Z) : Z :=
  let y' := if m <=? 2 then y - 1 else y in
  let era := y' / 400 in
  let yoe := y' - era * 400 in
  let doy := (153 * (if 2 <? m then m - 3 else m + 9) + 2) / 5 + d - 1 in
  let doe := yoe * 365 + yoe / 4 - yoe / 100 + doy in
  era * 146097 + doe - 719468.

Definition civil_from_days (z : Z) : Z * Z * Z :=
  let z := z + 719468 in
  let era := z / 146097 in
  let doe := z - era * 146097 in
  let yoe := (doe - doe / 1460 + doe / 36524 - doe / 146096) / 365 in
  let doy := doe - (365 * yoe + yoe / 4 - yoe / 100) in
  let mp := (5 * doy + 2) / 153 in
  let d := doy - (153 * mp + 2) / 5 + 1 in
  let m := if mp <? 10 then mp + 3 else mp - 9 in
  (if m <=? 2 then yoe + era * 400 + 1 else yoe + era * 400, m, d).

Definition is_leap (y : Z) : bool :=
  ((y mod 4 =? 0) && negb (y mod 100 =? 0)) || (y mod 400 =? 0).

Definition days_in_month (y m : Z) : Z :=
  if m =? 2 then (if is_leap y then 29 else 28)
  else if (m =? 4) || (m =? 6) || (m =? 9) || (m =? 11) then 30 else 31.

Definition digit_char (d : Z) : Ascii.ascii :=
  Ascii.ascii_of_nat (48 + Z.to_nat (d mod 10)).

Fixpoint digits (width : nat) (n : Z) (acc : string) : string :=
  match width with
  | O => acc
  | S w => digits w (n / 10) (String (digit_char n) acc)
  end.

Definition pad (width : nat) (n : Z) : string := digits width n "".

Definition digit_val (c : Ascii.ascii) : option Z :=
  let n := Z.of_nat (Ascii.nat_of_ascii c) in
  if (48 <=? n) && (n <=? 57) then Some (n - 48) else None.

(** Reads exactly [width] decimal digits from the front of [s]. *)
Fixpoint read_digits (width : nat) (acc : Z) (s : string)
  : option (Z * string) :=
  match width with
  | O => Some (acc, s)
  | S w =>
      match s with
      | String c rest =>
          match digit_val c with
          | Some d => read_digits w (acc * 10 + d) rest
          | None => None
          end
      | EmptyString => None
      end
  end.

Definition expect (c : Ascii.ascii) (s : string) : option string :=
  match s with
  | String c' rest => if Ascii.eqb c c' then Some rest else None
  | EmptyString => None
  end.

Definition make_date (y m d : Z) : option Z :=
  if (1 <=? y) && (1 <=? m) && (m <=? 12) && (1 <=? d)
     && (d <=? days_in_month y m)
  then Some (days_from_civil y m d) else None.

(** [YYYY-MM-DD] at the front of [s]. *)
Definition read_date (s : string) : option (Z * string) :=
  '(y, s) ← read_digits 4 0 s;
  s ← expect "-"%char s;
  '(m, s) ← read_digits 2 0 s;
  s ← expect "-"%char s;
  '(d, s) ← read_digits 2 0 s;
  days ← make_date y m d;
  Some (days, s).

(** [HH:MM:SS] with an optional [.ffffff], up to the end of [s]. *)
Definition read_time (s : string) : option Z :=
  '(h, s) ← read_digits 2 0 s;
  s ← expect ":"%char s;
  '(mi, s) ← read_digits 2 0 s;
  s ← expect ":"%char s;
  '(sec, s) ← read_digits 2 0 s;
  us ← match s with
       | EmptyString => Some 0
       | String c rest =>
           if Ascii.eqb c "."%char then
             '(f, s') ← read_digits 6 0 rest;
             match s' with EmptyString => Some f | _ => None end
           else None
       end;
  if (h <? 24) && (mi <? 60) && (sec <? 60)
  then Some (((h * 60 + mi) * 60 + sec) * 1000000 + us) else None.

(** The strings [isoformat()] and [strftime("%Y-%m-%d")] produce: a date,
    or a date, a separator character and a time.  Python's parsers accept
    more (a time without seconds, a month of one digit, a week date); the
    examples below use the strings that the simulator writes. *)
Definition cal_fromisoformat (s : string) : option datetime :=
  '(days, s) ← read_date s;
  match s with
  | EmptyString => Some (days * us_per_day)
  | String _ rest => t ← read_time rest; Some (days * us_per_day + t)
  end.

Definition cal_strptime_ymd (s : string) : option datetime :=
  '(days, s) ← read_date s;
  match s with
  | EmptyString => Some (days * us_per_day)
  | _ => None
  end.

Definition cal_strftime_ymd (t : datetime) : string :=
  let '(y, m, d) := civil_from_days (t / us_per_day) in
  pad 4 y +:+ "-" +:+ pad 2 m +:+ "-" +:+ pad 2 d.

Definition cal_isoformat (t : datetime) : string :=
  let us := t mod us_per_day in
  let sec := us / 1000000 in
  cal_strftime_ymd t +:+ "T" +:+ pad 2 (sec / 3600) +:+ ":"
    +:+ pad 2 (sec / 60 mod 60) +:+ ":" +:+ pad 2 (sec mod 60)
    +:+ (if us mod 1000000 =? 0 then "" else "." +:+ pad 6 (us mod 1000000)).

Definition cal_strftime_stamp (t : datetime) : string :=
  let '(y, m, d) := civil_from_days (t / us_per_day) in
  let sec := t mod us_per_day / 1000000 in
  pad 4 y +:+ pad 2 m +:+ pad 2 d +:+ pad 2 (sec / 3600)
    +:+ pad 2 (sec / 60 mod 60) +:+ pad 2 (sec mod 60).

#[export] Instance calendar : DatetimeLib := {|
  fromisoformat := cal_fromisoformat;
  strptime_ymd := cal_strptime_ymd;
  isoformat := cal_isoformat;
  strftime_ymd := cal_strftime_ymd;
  strftime_stamp := cal_strftime_stamp
|}.

End Calendar.

(** ** The data model *)

Record Supplier := {
  s_id : string;
  s_name : string;
  quality_score : option Q;            (* read with [.get(.., 7.0)] too *)
  reliability_score : Q;
  sustainability_score : Q;
  capacity_kg_per_year : Z;
  bean_types : option (list string)    (* read with [.get] *)
}.

Record Terms := {
  payment_terms : string;
  delivery_terms : string;
  quality_requirements : string;
  sustainability_requirements : string
}.

Record Contract := {
  c_id : string;
  c_supplier_id : string;
  c_supplier_name : string;
  c_status : string;
  start_date : string;
  end_date : string;
  price_per_pound : Q;
  min_lbs : Z;
  max_lbs : Z;
  c_bean_types : list string;
  terms : Terms
}.

Record Order := {
  o_id : string;
  o_status : string;
  expected_delivery : option string;
  expected_delivery_date : option string
}.

Record PricePoint := { pp_date : string; pp_price : Q }.

Record Factor := {
  f_name : string;
  f_status : string;
  f_impact : string;
  f_details : string
}.

Record Forecast := { short_term : string; long_term : string }.

Record MarketConditions := {
  date : string;
  average_price : Q;
  price_trend : string;
  price_history : list PricePoint;
  regional_prices : list (string * Q);   (* a dict, in insertion order *)
  bean_prices : list (string * Q);       (* a dict, in insertion order *)
  market_factors : list Factor;
  forecast : Forecast
}.

(** Entries of the change-log. *)
Inductive Value := FloatValue (q : Q) | IntValue (z : Z) | NoneValue.

Record SupplierChange := {
  sc_id : string;
  sc_name : string;
  update_type : string;
  old_value : Value;
  new_value : Value
}.

Inductive ContractChange :=
| ContractCreated (id supplier : string).

Inductive OrderChange :=
| OrderTransition (id old_status new_status : string) (delay_days : option Z)
| OrderDeliveryUpdate (order_id old_delivery new_delivery : string).

Record MarketChange := { new_price : Q; old_price : Q; change_pct : Q }.

Record Changes := {
  ch_suppliers : list SupplierChange;
  ch_contracts : list ContractChange;
  ch_orders : list OrderChange;
  ch_market_conditions : option MarketChange   (* [None] is the empty dict *)
}.

Definition no_changes : Changes :=
  {| ch_suppliers := []; ch_contracts := []; ch_orders := [];
     ch_market_conditions := None |}.

(** The attributes of a [CoffeeMarketSimulator]. *)
Record Sim := {
  suppliers : list Supplier;
  contracts : list Contract;
  orders : list Order;
  market_conditions : MarketConditions;
  simulation_date : datetime;
  simulation_step : Z;
  changes : Changes
}.

(** *** Field updates *)

Definition set_quality_score (v : Q) (s : Supplier) : Supplier :=
  {| s_id := s_id s; s_name := s_name s; quality_score := Some v;
     reliability_score := reliability_score s;
     sustainability_score := sustainability_score s;
     capacity_kg_per_year := capacity_kg_per_year s;
     bean_types := bean_types s |}.

Definition set_reliability_score (v : Q) (s : Supplier) : Supplier :=
  {| s_id := s_id s; s_name := s_name s; quality_score := quality_score s;
     reliability_score := v;
     sustainability_score := sustainability_score s;
     capacity_kg_per_year := capacity_kg_per_year s;
     bean_types := bean_types s |}.

Definition set_sustainability_score (v : Q) (s : Supplier) : Supplier :=
  {| s_id := s_id s; s_name := s_name s; quality_score := quality_score s;
     reliability_score := reliability_score s;
     sustainability_score := v;
     capacity_kg_per_year := capacity_kg_per_year s;
     bean_types := bean_types s |}.

Definition set_capacity_kg_per_year (v : Z) (s : Supplier) : Supplier :=
  {| s_id := s_id s; s_name := s_name s; quality_score := quality_score s;
     reliability_score := reliability_score s;
     sustainability_score := sustainability_score s;
     capacity_kg_per_year := v;
     bean_types := bean_types s |}.

Definition set_o_status (v : string) (o : Order) : Order :=
  {| o_id := o_id o; o_status := v;
     expected_delivery := expected_delivery o;
     expected_delivery_date := expected_delivery_date o |}.

Definition set_expected_delivery (v : string) (o : Order) : Order :=
  {| o_id := o_id o; o_status := o_status o;
     expected_delivery := Some v;
     expected_delivery_date := expected_delivery_date o |}.

Definition set_expected_delivery_date (v : string) (o : Order) : Order :=
  {| o_id := o_id o; o_status := o_status o;
     expected_delivery := expected_delivery o;
     expected_delivery_date := Some v |}.

Definition set_f_status (v : string) (f : Factor) : Factor :=
  {| f_name := f_name f; f_status := v; f_impact := f_impact f;
     f_details := f_details f |}.

Definition set_f_impact (v : string) (f : Factor) : Factor :=
  {| f_name := f_name f; f_status := f_status f; f_impact := v;
     f_details := f_details f |}.

Definition set_f_details (v : string) (f : Factor) : Factor :=
  {| f_name := f_name f; f_status := f_status f; f_impact := f_impact f;
     f_details := v |}.

Definition set_date (v : string) (m : MarketConditions) :=
  {| date := v; average_price := average_price m;
     price_trend := price_trend m; price_history := price_history m;
     regional_prices := regional_prices m; bean_prices := bean_prices m;
     market_factors := market_factors m; forecast := forecast m |}.

Definition set_average_price (v : Q) (m : MarketConditions) :=
  {| date := date m; average_price := v;
     price_trend := price_trend m; price_history := price_history m;
     regional_prices := regional_prices m; bean_prices := bean_prices m;
     market_factors := market_factors m; forecast := forecast m |}.

Definition set_price_trend (v : string) (m : MarketConditions) :=
  {| date := date m; average_price := average_price m;
     price_trend := v; price_history := price_history m;
     regional_prices := regional_prices m; bean_prices := bean_prices m;
     market_factors := market_factors m; forecast := forecast m |}.

Definition set_price_history (v : list PricePoint) (m : MarketConditions) :=
  {| date := date m; average_price := average_price m;
     price_trend := price_trend m; price_history := v;
     regional_prices := regional_prices m; bean_prices := bean_prices m;
     market_factors := market_factors m; forecast := forecast m |}.

Definition set_regional_prices (v : list (string * Q)) (m : MarketConditions) :=
  {| date := date m; average_price := average_price m;
     price_trend := price_trend m; price_history := price_history m;
     regional_prices := v; bean_prices := bean_prices m;
     market_factors := market_factors m; forecast := forecast m |}.

Definition set_bean_prices (v : list (string * Q)) (m : MarketConditions) :=
  {| date := date m; average_price := average_price m;
     price_trend := price_trend m; price_history := price_history m;
     regional_prices := regional_prices m; bean_prices := v;
     market_factors := market_factors m; forecast := forecast m |}.

Definition set_market_factors (v : list Factor) (m : MarketConditions) :=
  {| date := date m; average_price := average_price m;
     price_trend := price_trend m; price_history := price_history m;
     regional_prices := regional_prices m; bean_prices := bean_prices m;
     market_factors := v; forecast := forecast m |}.

Definition set_forecast (v : Forecast) (m : MarketConditions) :=
  {| date := date m; average_price := average_price m;
     price_trend := price_trend m; price_history := price_history m;
     regional_prices := regional_prices m; bean_prices := bean_prices m;
     market_factors := market_factors m; forecast := v |}.

Definition set_suppliers (v : list Supplier) (s : Sim) : Sim :=
  {| suppliers := v; contracts := contracts s; orders := orders s;
     market_conditions := market_conditions s;
     simulation_date := simulation_date s;
     simulation_step := simulation_step s; changes := changes s |}.

Definition set_contracts (v : list Contract) (s : Sim) : Sim :=
  {| suppliers := suppliers s; contracts := v; orders := orders s;
     market_conditions := market_conditions s;
     simulation_date := simulation_date s;
     simulation_step := simulation_step s; changes := changes s |}.

Definition set_orders (v : list Order) (s : Sim) : Sim :=
  {| suppliers := suppliers s; contracts := contracts s; orders := v;
     market_conditions := market_conditions s;
     simulation_date := simulation_date s;
     simulation_step := simulation_step s; changes := changes s |}.

Definition set_market_conditions (v : MarketConditions) (s : Sim) : Sim :=
  {| suppliers := suppliers s; contracts := contracts s; orders := orders s;
     market_conditions := v;
     simulation_date := simulation_date s;
     simulation_step := simulation_step s; changes := changes s |}.

Definition set_simulation_date (v : datetime) (s : Sim) : Sim :=
  {| suppliers := suppliers s; contracts := contracts s; orders := orders s;
     market_conditions := market_conditions s;
     simulation_date := v;
     simulation_step := simulation_step s; changes := changes s |}.

Definition set_simulation_step (v : Z) (s : Sim) : Sim :=
  {| suppliers := suppliers s; contracts := contracts s; orders := orders s;
     market_conditions := market_conditions s;
     simulation_date := simulation_date s;
     simulation_step := v; changes := changes s |}.

Definition set_changes (v : Changes) (s : Sim) : Sim :=
  {| suppliers := suppliers s; contracts := contracts s; orders := orders s;
     market_conditions := market_conditions s;
     simulation_date := simulation_date s;
     simulation_step := simulation_step s; changes := v |}.

Definition log_supplier (c : SupplierChange) (ch : Changes) : Changes :=
  {| ch_suppliers := ch_suppliers ch ++ [c]; ch_contracts := ch_contracts ch;
     ch_orders := ch_orders ch;
     ch_market_conditions := ch_market_conditions ch |}.

Definition log_contract (c : ContractChange) (ch : Changes) : Changes :=
  {| ch_suppliers := ch_suppliers ch; ch_contracts := ch_contracts ch ++ [c];
     ch_orders := ch_orders ch;
     ch_market_conditions := ch_market_conditions ch |}.

Definition log_order (c : OrderChange) (ch : Changes) : Changes :=
  {| ch_suppliers := ch_suppliers ch; ch_contracts := ch_contracts ch;
     ch_orders := ch_orders ch ++ [c];
     ch_market_conditions := ch_market_conditions ch |}.

Definition log_market (c : MarketChange) (ch : Changes) : Changes :=
  {| ch_suppliers := ch_suppliers ch; ch_contracts := ch_contracts ch;
     ch_orders := ch_orders ch;
     ch_market_conditions := Some c |}.

(** ** Effects: state, exceptions, the random generator, the wall clock *)

Inductive exn := KeyError (key : string) | ValueError | IndexError.

Inductive outcome (A : Type) := Ok (a : A) | Raise (e : exn).
Arguments Ok {A} a.
Arguments Raise {A} e.

(** Any tape is a generator: a draw is the fractional part of the next
    entry, so it lies in [0, 1) like a result of [random.random()]. *)
Record Rng := { tape : nat -> Q; cursor : nat }.

Record World := { self : Sim; rand : Rng; clock : datetime }.

Definition M (A : Type) : Type := World -> outcome A * World.

#[export] Instance M_ret : MRet M := fun A a w => (Ok a, w).

#[export] Instance M_bind : MBind M := fun A B k m w =>
  match m w with
  | (Ok a, w') => k a w'
  | (Raise e, w') => (Raise e, w')
  end.

Definition raise {A} (e : exn) : M A := fun w => (Raise e, w).

Definition gets {A} (f : Sim -> A) : M A := fun w => (Ok (f (self w)), w).

Definition modify (f : Sim -> Sim) : M unit := fun w =>
  (Ok tt, {| self := f (self w); rand := rand w; clock := clock w |}).

Definition frac (u : Q) : Q := (u - inject_Z (Qfloor u))%Q.

(** [random.random()] *)
Definition random : M Q := fun w =>
  let r := rand w in
  (Ok (frac (tape r (cursor r))),
   {| self := self w; rand := {| tape := tape r; cursor := S (cursor r) |};
      clock := clock w |}).

(** [random.uniform(a, b)] is [a + (b - a) * random()]. *)
Definition uniform (a b : Q) : M Q :=
  u ← random; mret (a + (b - a) * u)%Q.

Definition randbelow (n : Z) : M Z :=
  u ← random; mret (Qfloor (u * inject_Z n)).

(** [random.randint(a, b)]: [ValueError] on an empty range. *)
Definition randint (a b : Z) : M Z :=
  if b <? a then raise ValueError
  else k ← randbelow (b - a + 1); mret (a + k).

(** [random.choice(seq)]: [IndexError] on an empty sequence. *)
Definition choice {A} (seq : list A) : M A :=
  match seq with
  | [] => raise IndexError
  | x :: _ => k ← randbelow (Z.of_nat (length seq)); mret (nth (Z.to_nat k) seq x)
  end.

(** [datetime.now()] *)
Definition datetime_now : M datetime := fun w => (Ok (clock w), w).

(** [for x in xs: body(x)] *)
Fixpoint for_each {A} (xs : list A) (body : A -> M unit) : M unit :=
  match xs with
  | [] => mret tt
  | x :: rest => body x;; for_each rest body
  end.

(** [seq[i]], with Python's negative indices. *)
Definition py_index {A} (l : list A) (i : Z) : M A :=
  let j := if i <? 0 then Z.of_nat (length l) + i else i in
  if j <? 0 then raise IndexError
  else match l !! Z.to_nat j with
       | Some x => mret x
       | None => raise IndexError
       end.

(** [seq[-n:]] *)
Definition last_n {A} (n : nat) (l : list A) : list A :=
  drop (length l - n) l.

Fixpoint dict_get (k : string) (d : list (string * Q)) : option Q :=
  match d with
  | [] => None
  | (k', v) :: rest => if decide (k = k') then Some v else dict_get k rest
  end.

Fixpoint dict_set (k : string) (v : Q) (d : list (string * Q))
  : list (string * Q) :=
  match d with
  | [] => [(k, v)]
  | (k', v') :: rest =>
      if decide (k = k') then (k, v) :: rest else (k', v') :: dict_set k v rest
  end.

(** [d[k]] *)
Definition py_getitem (d : list (string * Q)) (k : string) : M Q :=
  match dict_get k d with
  | Some v => mret v
  | None => raise (KeyError k)
  end.

Definition gets_market {A} (f : MarketConditions -> A) : M A :=
  gets (fun s => f (market_conditions s)).

Definition modify_market (f : MarketConditions -> MarketConditions) : M unit :=
  modify (fun s => set_market_conditions (f (market_conditions s)) s).

Definition modify_factor (i : Z) (f : Factor -> Factor) : M unit :=
  modify_market (fun m =>
    set_market_factors (alter f (Z.to_nat i) (market_factors m)) m).

Definition modify_order (i : nat) (f : Order -> Order) : M unit :=
  modify (fun s => set_orders (alter f i (orders s)) s).

Definition modify_supplier (i : Z) (f : Supplier -> Supplier) : M unit :=
  modify (fun s => set_suppliers (alter f (Z.to_nat i) (suppliers s)) s).

Definition modify_changes (f : Changes -> Changes) : M unit :=
  modify (fun s => set_changes (f (changes s)) s).

(** ** The simulator *)

Section Simulator.

Context `{DT : DatetimeLib}.

(** Lines 142-180.  [factor] is the object in the list, so each assignment
    to it is a write to the list, and storing it back at its index (line
    180) changes nothing. *)
Definition update_factor : M unit :=
  factors ← gets_market market_factors;
  factor_index ← randint 0 (Z.of_nat (length factors) - 1);
  factor ← py_index factors factor_index;
  (st ← choice ["Favorable"; "Mixed"; "Concerning"];
   modify_factor factor_index (set_f_status st));;
  (im ← choice ["Minimal"; "Moderate"; "Significant"];
   modify_factor factor_index (set_f_impact im));;
  if decide (f_name factor = "Weather Conditions") then
    d ← choice ["Ideal rainfall in major growing regions";
                "Drought conditions in parts of Brazil";
                "Excessive rainfall in Colombia affecting harvest";
                "Normal seasonal patterns across most regions";
                "Frost concerns in Brazil";
                "Hurricane damage in Central America"];
    modify_factor factor_index (set_f_details d)
  else if decide (f_name factor = "Political Stability") then
    d ← choice ["No major political disruptions in key regions";
                "Political tensions in Ethiopia affecting exports";
                "Trade policy changes impacting shipping costs";
                "Labor disputes in Colombia affecting production";
                "New export regulations in Vietnam";
                "Currency devaluation in Brazil affecting prices"];
    modify_factor factor_index (set_f_details d)
  else if decide (f_name factor = "Global Demand") then
    d ← choice ["Steady increase in global coffee consumption";
                "Shifting consumer preferences toward specialty coffee";
                "Economic slowdown affecting cafe sales";
                "New markets emerging in Asia";
                "Increased home consumption trends";
                "Seasonal demand fluctuations"];
    modify_factor factor_index (set_f_details d)
  else mret tt.

Definition update_forecast : M unit :=
  st ← choice ["Price increase expected"; "Stable prices likely";
               "Price decrease expected"];
  lt ← choice ["Upward trend"; "Stable market"; "Downward pressure";
               "Increased volatility"];
  modify_market (set_forecast {| short_term := st; long_term := lt |}).

Definition update_trend : M unit :=
  history ← gets_market price_history;
  if 5 <=? Z.of_nat (length history) then
    let recent_prices := pp_price <$> last_n 5 history in
    newest ← py_index recent_prices (-1);
    oldest ← py_index recent_prices 0;
    if Py.Qltb (oldest * 1.02)%Q newest then
      modify_market (set_price_trend "Rising")
    else if Py.Qltb newest (oldest * 0.98)%Q then
      modify_market (set_price_trend "Falling")
    else modify_market (set_price_trend "Stable")
  else mret tt.

Definition update_regional_prices (change_pct : Q) : M unit :=
  regions ← gets_market (fun m => (regional_prices m).*1);
  for_each regions (fun region =>
    prices ← gets_market regional_prices;
    regional_price ← py_getitem prices region;
    noise ← uniform (-0.01)%Q 0.01%Q;
    let regional_change := (change_pct + noise)%Q in
    let new_regional_price :=
      Py.round (regional_price * (1 + regional_change))%Q 2 in
    modify_market (fun m =>
      set_regional_prices (dict_set region new_regional_price
                             (regional_prices m)) m)).

Definition update_bean_prices (change_pct : Q) : M unit :=
  beans ← gets_market (fun m => (bean_prices m).*1);
  for_each beans (fun bean =>
    prices ← gets_market bean_prices;
    bean_price ← py_getitem prices bean;
    noise ← uniform (-0.01)%Q 0.01%Q;
    let bean_change := (change_pct + noise)%Q in
    let new_bean_price := Py.round (bean_price * (1 + bean_change))%Q 2 in
    modify_market (fun m =>
      set_bean_prices (dict_set bean new_bean_price (bean_prices m)) m)).

(** The price of the day: lines 84-102. *)
Definition update_average_price : M (Q * Q * Q) :=
  current_price ← gets_market average_price;
  trend ← gets_market price_trend;
  change_pct ← (if decide (trend = "Rising") then uniform (-0.01)%Q 0.03%Q
                else if decide (trend = "Falling")
                     then uniform (-0.03)%Q 0.01%Q
                     else uniform (-0.015)%Q 0.015%Q);
  let new_price := Py.round (current_price * (1 + change_pct))%Q 2 in
  let new_price := Py.max 3.0%Q (Py.min 10.0%Q new_price) in
  modify_market (set_average_price new_price);;
  mret (current_price, change_pct, new_price).

(** The history of prices: lines 104-112. *)
Definition update_price_history (new_price : Q) : M unit :=
  today ← gets simulation_date;
  modify_market (fun m =>
    set_price_history
      (price_history m ++ [{| pp_date := isoformat today;
                              pp_price := new_price |}]) m);;
  history ← gets_market price_history;
  if 30 <? Z.of_nat (length history)
  then modify_market (set_price_history (last_n 30 history))
  else mret tt.

(** Lines 114-194: the trend, the regional and bean prices, the factors,
    the forecast and the entry of the change-log. *)
Definition update_market_rest (current_price change_pct new_price : Q)
  : M unit :=
  update_trend;;
  update_regional_prices change_pct;;
  update_bean_prices change_pct;;
  (r ← random; if Py.Qltb r 0.1%Q then update_factor else mret tt);;
  (r ← random; if Py.Qltb r 0.05%Q then update_forecast else mret tt);;
  modify_changes (log_market {| new_price := new_price;
                                old_price := current_price;
                                change_pct := change_pct |}).

Definition _update_market_conditions : M unit :=
  today ← gets simulation_date;
  modify_market (set_date (isoformat today));;
  '(current_price, change_pct, new_price) ← update_average_price;
  update_price_history new_price;;
  update_market_rest current_price change_pct new_price.

(** *** Orders *)

Fixpoint contains_Z (s : string) : bool :=
  match s with
  | EmptyString => false
  | String c rest => Ascii.eqb c "Z"%char || contains_Z rest
  end.

(** [s.replace('Z', '')] *)
Fixpoint remove_Z (s : string) : string :=
  match s with
  | EmptyString => EmptyString
  | String c rest =>
      if Ascii.eqb c "Z"%char then remove_Z rest else String c (remove_Z rest)
  end.

(** Lines 215-223: the ISO parser first; on its [ValueError] the plain-date
    parser, whose own [ValueError] is not caught. *)
Definition parsed_delivery (expected_delivery_str : string)
  : option datetime :=
  match fromisoformat (if contains_Z expected_delivery_str
                       then remove_Z expected_delivery_str
                       else expected_delivery_str) with
  | Some d => Some d
  | None => strptime_ymd expected_delivery_str
  end.

Definition parse_delivery (expected_delivery_str : string) : M datetime :=
  match parsed_delivery expected_delivery_str with
  | Some d => mret d
  | None => raise ValueError
  end.

(** The delivery-date string of an order: [expected_delivery] when the key
    is there, else [expected_delivery_date], else nothing. *)
Definition delivery_field (order : Order) : option string :=
  match expected_delivery order with
  | Some s => Some s
  | None => expected_delivery_date order
  end.

(** The body of the loop of [_update_orders] for [self.orders[i]]. *)
Definition update_order (i : nat) : M unit :=
  os ← gets orders;
  order ← py_index os (Z.of_nat i);
  if bool_decide (o_status order ∈ ["delivered"; "cancelled"]) then mret tt
  else
    match delivery_field order with
    | None => mret tt
    | Some expected_delivery_str =>
        expected ← parse_delivery expected_delivery_str;
        today ← gets simulation_date;
        let days_until_delivery := timedelta_days (expected - today) in
        if bool_decide (o_status order = "pending")
           && (days_until_delivery <=? 30) then
          r ← random;
          if Py.Qltb r 0.8%Q then
            modify_order i (set_o_status "in_transit");;
            modify_changes (log_order
              (OrderTransition (o_id order) "pending" "in_transit" None))
          else
            r' ← random;
            if Py.Qltb r' 0.5%Q then
              modify_order i (set_o_status "delayed");;
              delay_days ← randint 5 15;
              let new_delivery := expected + timedelta_of_days delay_days in
              (if expected_delivery order is Some _ then
                 modify_order i (set_expected_delivery (isoformat new_delivery))
               else if expected_delivery_date order is Some _ then
                 modify_order i
                   (set_expected_delivery_date (strftime_ymd new_delivery))
               else mret tt);;
              modify_changes (log_order
                (OrderTransition (o_id order) "pending" "delayed"
                   (Some delay_days)))
            else mret tt
        else if bool_decide (o_status order = "in_transit")
                && (days_until_delivery <=? 0) then
          modify_order i (set_o_status "delivered");;
          modify_changes (log_order
            (OrderTransition (o_id order) "in_transit" "delivered" None))
        else if bool_decide (o_status order = "delayed") then
          r ← random;
          if Py.Qltb r 0.3%Q then
            modify_order i (set_o_status "in_transit");;
            modify_changes (log_order
              (OrderTransition (o_id order) "delayed" "in_transit" None))
          else mret tt
        else mret tt
    end.

Definition _update_orders : M unit :=
  os ← gets orders;
  for_each (seq 0 (length os)) update_order.

(** *** Suppliers *)

Definition clamp_score (x : Q) : Q :=
  Py.round (Py.max 5.0%Q (Py.min 10.0%Q x)) 1.

Definition _update_suppliers : M unit :=
  sups ← gets suppliers;
  if 0 <? Z.of_nat (length sups) then
    supplier_index ← randint 0 (Z.of_nat (length sups) - 1);
    supplier ← py_index sups supplier_index;
    update_type ← choice ["quality"; "reliability"; "sustainability";
                          "capacity"];
    '(old_value, new_value) ←
      (if decide (update_type = "quality") then
         match quality_score supplier with
         | None => raise (KeyError "quality_score")
         | Some old_value =>
             change ← uniform (-0.5)%Q 0.5%Q;
             let new_value := clamp_score (old_value + change) in
             modify_supplier supplier_index (set_quality_score new_value);;
             mret (FloatValue old_value, FloatValue new_value)
         end
       else if decide (update_type = "reliability") then
         let old_value := reliability_score supplier in
         change ← uniform (-0.5)%Q 0.5%Q;
         let new_value := clamp_score (old_value + change) in
         modify_supplier supplier_index (set_reliability_score new_value);;
         mret (FloatValue old_value, FloatValue new_value)
       else if decide (update_type = "sustainability") then
         let old_value := sustainability_score supplier in
         change ← uniform (-0.5)%Q 0.5%Q;
         let new_value := clamp_score (old_value + change) in
         modify_supplier supplier_index (set_sustainability_score new_value);;
         mret (FloatValue old_value, FloatValue new_value)
       else if decide (update_type = "capacity") then
         let old_value := capacity_kg_per_year supplier in
         change_pct ← uniform (-0.1)%Q 0.1%Q;
         let new_value := Py.int (inject_Z old_value * (1 + change_pct))%Q in
         modify_supplier supplier_index (set_capacity_kg_per_year new_value);;
         mret (IntValue old_value, IntValue new_value)
       else mret (NoneValue, NoneValue));
    modify_changes (log_supplier
      {| sc_id := s_id supplier; sc_name := s_name supplier;
         update_type := update_type;
         old_value := old_value; new_value := new_value |})
  else mret tt.

(** *** The fallback contract *)

Definition contract_price_of (base_price : Q) (supplier : Supplier) : Q :=
  let quality_factor := (default 7.0 (quality_score supplier) / 10.0)%Q in
  Py.round (base_price * (0.9 + quality_factor * 0.3))%Q 2.

(** The identifier of the contract is stamped with the wall clock.  The
    message printed at the end (line 619) is left out: it writes nothing to
    the simulator. *)
Definition _create_sample_contract : M unit :=
  sups ← gets suppliers;
  if decide (sups = []) then mret tt
  else
    supplier ← choice sups;
    now ← datetime_now;
    let contract_id :=
      "contract_" +:+ s_id supplier +:+ "_" +:+ strftime_stamp now in
    start ← gets simulation_date;
    duration ← randint 90 365;
    let finish := start + timedelta_of_days duration in
    base_price ← gets_market average_price;
    let contract_price := contract_price_of base_price supplier in
    lo ← randint 5000 10000;
    hi ← randint 15000 30000;
    payment ← choice ["Net 30"; "Net 45"; "Net 60"];
    delivery ← choice ["FOB"; "CIF"; "EXW"];
    sustainability ← choice ["Rainforest Alliance Certified";
                             "Organic Certified";
                             "Fair Trade Certified";
                             "Standard Practices"];
    let contract :=
      {| c_id := contract_id;
         c_supplier_id := s_id supplier;
         c_supplier_name := s_name supplier;
         c_status := "active";
         start_date := strftime_ymd start;
         end_date := strftime_ymd finish;
         price_per_pound := contract_price;
         min_lbs := lo;
         max_lbs := hi;
         c_bean_types := default ["Arabica"] (bean_types supplier);
         terms := {| payment_terms := payment;
                     delivery_terms := delivery;
                     quality_requirements := "SCA score 80+";
                     sustainability_requirements := sustainability |} |} in
    modify (fun s => set_contracts (contracts s ++ [contract]) s);;
    modify_changes (log_contract
      (ContractCreated contract_id (s_name supplier))).

(** *** One step *)

Definition active_contracts (cs : list Contract) : list Contract :=
  filter (fun c => c_status c = "active") cs.

(** Lines 47-59: the clock advances by a day and the change-log is reset. *)
Definition begin_step : M unit :=
  modify (fun s => set_simulation_step (simulation_step s + 1) s);;
  modify (fun s =>
    set_simulation_date (simulation_date s + timedelta_of_days 1) s);;
  modify (set_changes no_changes).

(** Lines 47-69: the above, the market, the orders and the occasional drift
    of a supplier. *)
Definition advance : M unit :=
  begin_step;;
  _update_market_conditions;;
  _update_orders;;
  r ← random;
  if Py.Qltb r 0.2%Q then _update_suppliers else mret tt.

(** Lines 71-74. *)
Definition ensure_active_contract : M unit :=
  cs ← gets contracts;
  if Z.of_nat (length (active_contracts cs)) =? 0 then
    r ← random;
    if Py.Qltb r 0.5%Q then _create_sample_contract else mret tt
  else mret tt.

Definition simulate_step : M unit :=
  advance;; ensure_active_contract.

(** *** Changing the delivery date of an order *)

(** The loop of [update_order_expected_delivery] over the indices still to
    visit; it ends at the first order with the identifier ([break]). *)
Fixpoint update_delivery_loop (order_id new_delivery : string)
    (indices : list nat) : M unit :=
  match indices with
  | [] => mret tt
  | i :: rest =>
      os ← gets orders;
      order ← py_index os (Z.of_nat i);
      if decide (o_id order = order_id) then
        old_delivery ← match expected_delivery order with
                       | Some v => mret v
                       | None => raise (KeyError "expected_delivery")
                       end;
        (if expected_delivery order is Some _ then
           modify_order i (set_expected_delivery new_delivery)
         else if expected_delivery_date order is Some _ then
           modify_order i (set_expected_delivery_date new_delivery)
         else mret tt);;
        modify_changes (log_order
          (OrderDeliveryUpdate order_id old_delivery new_delivery))
      else update_delivery_loop order_id new_delivery rest
  end.

Definition update_order_expected_delivery (order_id new_delivery : string)
  : M unit :=
  os ← gets orders;
  update_delivery_loop order_id new_delivery (seq 0 (length os)).

End Simulator.

(** The driver of [src/app.py] calls [simulate_step] in a loop and catches
    what it raises; [simulate_steps n] is the world after [n] such calls. *)
Fixpoint simulate_steps `{DT : DatetimeLib} (n : nat) (w : World) : World :=
  match n with
  | O => w
  | S k => simulate_steps k (simulate_step w).2
  end.


(** ** The object store

    Python values are atoms or references to mutable objects; the accessors
    of the simulator return [copy.deepcopy] of an attribute.  Here the
    objects live in a heap, a reference is an index into it, and an object
    that is created is added at the end. *)

Module Store.

Abbreviation loc := nat (only parsing).

Inductive atom :=
| ANone | ABool (b : bool) | AInt (z : Z) | AFloat (q : Q) | AStr (s : string).

Inductive val := VAtom (a : atom) | VRef (l : loc).

(** Lists and dicts with string keys, in insertion order. *)
Inductive obj := OList (items : list val) | ODict (items : list (string * val)).

Abbreviation heap := (list obj) (only parsing).

(** The items of an object, a dict item with its key. *)
Definition entry : Type := option string * val.

Definition entries (o : obj) : list entry :=
  match o with
  | OList vs => (fun v => (None, v)) <$> vs
  | ODict kvs => (fun kv => (Some kv.1, kv.2)) <$> kvs
  end.

Definition children (o : obj) : list val := (entries o).*2.

(** [[]] or [{}], as [x] is a list or a dict. *)
Definition empty_like (o : obj) : obj :=
  match o with OList _ => OList [] | ODict _ => ODict [] end.

(** [y.append(v)], or [y[k] = v] for a key that [y] does not have yet. *)
Definition push (e : entry) (o : obj) : obj :=
  match o, e with
  | OList vs, (_, v) => OList (vs ++ [v])
  | ODict kvs, (Some k, v) => ODict (kvs ++ [(k, v)])
  | ODict kvs, (None, _) => ODict kvs
  end.

Definition omap (f : val -> val) (o : obj) : obj :=
  match o with
  | OList vs => OList (f <$> vs)
  | ODict kvs => ODict ((fun kv => (kv.1, f kv.2)) <$> kvs)
  end.

(** The memo of [deepcopy]: the copy of each object copied so far. *)
Abbreviation memo := (gmap loc loc) (only parsing).

Abbreviation state := (heap * memo)%type (only parsing).

(** The loop of [_deepcopy_list] and [_deepcopy_dict]: the copy of each
    item is added to the new object [y]. *)
Fixpoint copy_entries (rec : val -> state -> option (val * state))
    (y : loc) (es : list entry) (st : state) : option state :=
  match es with
  | [] => Some st
  | (k, a) :: rest =>
      match rec a st with
      | Some (c, (h, m)) => copy_entries rec y rest (alter (push (k, c)) y h, m)
      | None => None
      end
  end.

(** [copy.deepcopy(x, memo)]: an atom is returned as it is; an object found
    in the memo is not copied again; otherwise the new object is created
    empty, entered in the memo, and filled.  [fuel] bounds the depth of the
    recursion. *)
Fixpoint deepcopy (fuel : nat) (x : val) (st : state)
  : option (val * state) :=
  match x with
  | VAtom _ => Some (x, st)
  | VRef l =>
      match st.2 !! l with
      | Some y => Some (VRef y, st)
      | None =>
          match fuel with
          | O => None
          | S fuel' =>
              match st.1 !! l with
              | None => None
              | Some o =>
                  let y := length st.1 in
                  match copy_entries (deepcopy fuel') y (entries o)
                          ((st.1 ++ [empty_like o])%list, <[l := y]> st.2) with
                  | Some st' => Some (VRef y, st')
                  | None => None
                  end
              end
          end
      end
  end.

(** [copy.deepcopy(x)], with a new memo.  The recursion is never deeper
    than the number of objects. *)
Definition deepcopy_top (x : val) (h : heap) : option (val * heap) :=
  match deepcopy (S (length h)) x (h, ∅) with
  | Some (r, (h', _)) => Some (r, h')
  | None => None
  end.

(** The attributes of the simulator that the accessors copy. *)
Record Engine := {
  suppliers : val;
  contracts : val;
  orders : val;
  market_conditions : val;
  changes : val
}.

Definition get_suppliers (self : Engine) := deepcopy_top (suppliers self).
Definition get_contracts (self : Engine) := deepcopy_top (contracts self).
Definition get_orders (self : Engine) := deepcopy_top (orders self).
Definition get_market_conditions (self : Engine) :=
  deepcopy_top (market_conditions self).
Definition get_changes (self : Engine) := deepcopy_top (changes self).

(** The value a reference stands for: the tree below it, to a depth. *)
#[local] Unset Elimination Schemes.
Inductive tree :=
| TAtom (a : atom)
| TList (items : list tree)
| TDict (items : list (string * tree)).
#[local] Set Elimination Schemes.

Definition tree_of (F : val -> option tree) (o : obj) : option tree :=
  match o with
  | OList vs => TList <$> mapM F vs
  | ODict kvs => TDict <$> mapM (fun kv => t ← F kv.2; Some (kv.1, t)) kvs
  end.

Fixpoint snapshot (depth : nat) (h : heap) (v : val) : option tree :=
  match v with
  | VAtom a => Some (TAtom a)
  | VRef l =>
      match depth with
      | O => None
      | S d =>
          match h !! l with
          | Some o => tree_of (snapshot d h) o
          | None => None
          end
      end
  end.

(** Two values are equal, as [==] of Python has it on lists and dicts, when
    they have the same tree to every depth. *)
Definition same_value (h1 : heap) (v1 : val) (h2 : heap) (v2 : val) : Prop :=
  forall depth, snapshot depth h1 v1 = snapshot depth h2 v2.

(** The references of a value or an object are below [n]. *)
Definition val_below (n : nat) (v : val) : Prop :=
  match v with VAtom _ => True | VRef l => (l < n)%nat end.

Definition obj_below (n : nat) (o : obj) : Prop :=
  Forall (val_below n) (children o).

(** No reference of the heap dangles. *)
Definition wf (h : heap) : Prop := Forall (obj_below (length h)) h.

(** What a caller can do with the values it holds: reach objects from them,
    overwrite an object it reaches with items it holds or reaches, and
    create objects. *)
Inductive reachable (h : heap) : val -> loc -> Prop :=
| reach_here l : reachable h (VRef l) l
| reach_item l o v l' :
    h !! l = Some o -> v ∈ children o -> reachable h v l' ->
    reachable h (VRef l) l'.

Definition reach (known : list val) (h : heap) (l : loc) : Prop :=
  exists v, v ∈ known /\ reachable h v l.

Definition holds (known : list val) (h : heap) (o : obj) : Prop :=
  forall l, VRef l ∈ children o -> reach known h l.

Inductive caller : list val -> heap -> heap -> Prop :=
| caller_done known h : caller known h h
| caller_write known h l o h' :
    reach known h l -> holds known h o ->
    caller known (<[l := o]> h) h' -> caller known h h'
| caller_create known h o h' :
    holds known h o ->
    caller (VRef (length h) :: known) (h ++ [o])%list h' -> caller known h h'.

(** *** The invariant of a copy in progress

    [h0] is the heap when [deepcopy] is called, its objects below [n0] are
    the ones that may be copied, [busy] are the objects whose copy is being
    filled. *)

Definition image (m : memo) (v : val) : val :=
  match v with
  | VRef l => match m !! l with Some y => VRef y | None => v end
  | VAtom _ => v
  end.

Definition in_memo (m : memo) (v : val) : Prop :=
  match v with VRef l => is_Some (m !! l) | VAtom _ => True end.

Definition val_within (lo hi : nat) (v : val) : Prop :=
  match v with VAtom _ => True | VRef l => (lo <= l < hi)%nat end.

Definition closed_below (n0 : nat) (h0 : heap) : Prop :=
  (n0 <= length h0)%nat
  /\ forall l o, (l < n0)%nat -> h0 !! l = Some o -> obj_below n0 o.

Record copy_inv (h0 : heap) (n0 : nat) (busy : gset loc) (h : heap)
    (m : memo) : Prop := {
  inv_old : forall l, (l < length h0)%nat -> h !! l = h0 !! l;
  inv_len : (length h0 <= length h)%nat;
  inv_range : forall l y,
    m !! l = Some y -> (l < n0)%nat /\ (length h0 <= y < length h)%nat;
  inv_inj : forall l1 l2 y, m !! l1 = Some y -> m !! l2 = Some y -> l1 = l2;
  inv_done : forall l y,
    m !! l = Some y -> l ∉ busy ->
    exists o, h0 !! l = Some o /\ h !! y = Some (omap (image m) o)
              /\ Forall (in_memo m) (children o);
  inv_fresh : forall y o,
    (length h0 <= y)%nat -> h !! y = Some o ->
    Forall (val_within (length h0) (length h)) (children o)
}.

(** What a call of [deepcopy] on [x] achieves. *)
Definition copy_post (h0 : heap) (n0 : nat) (busy : gset loc) (x : val)
    (h : heap) (m : memo) (r : val) (h' : heap) (m' : memo) : Prop :=
  copy_inv h0 n0 busy h' m'
  /\ m ⊆ m'
  /\ r = image m' x
  /\ in_memo m' x
  /\ (forall l y, l ∈ busy -> m !! l = Some y -> h' !! y = h !! y)
  /\ (length h <= length h')%nat.

(** What the caller holds lies in [n0, length h), and so does what the
    objects there refer to. *)
Definition owned (n0 : nat) (known : list val) (h : heap) : Prop :=
  (n0 <= length h)%nat
  /\ Forall (val_within n0 (length h)) known
  /\ forall y o, (n0 <= y)%nat -> h !! y = Some o ->
       Forall (val_within n0 (length h)) (children o).

(** The attributes of the simulator refer to objects of the heap. *)
Definition engine_ok (self : Engine) (h : heap) : Prop :=
  val_below (length h) (suppliers self)
  /\ val_below (length h) (contracts self)
  /\ val_below (length h) (orders self)
  /\ val_below (length h) (market_conditions self)
  /\ val_below (length h) (changes self).

(** An accessor [get] returns a snapshot, and whatever the caller does with
    it, no object of the heap [h] changes and the accessor returns a
    snapshot of the same value again. *)
Definition isolated (get : heap -> option (val * heap)) (h : heap) : Prop :=
  exists r1 h1,
    get h = Some (r1, h1)
    /\ forall h2, caller [r1] h1 h2 ->
         (forall l, (l < length h)%nat -> h2 !! l = h !! l)
         /\ exists r2 h3, get h2 = Some (r2, h3) /\ same_value h3 r2 h1 r1.

(** A copying function that achieves [copy_post] wherever it returns. *)
Definition rec_ok (h0 : heap) (n0 : nat)
    (rec : val -> state -> option (val * state)) : Prop :=
  forall x busy h m r h' m',
    copy_inv h0 n0 busy h m -> val_below n0 x -> busy ⊆ dom m ->
    rec x (h, m) = Some (r, (h', m')) ->
    copy_post h0 n0 busy x h m r h' m'.

End Store.


(** A heap to run the accessors on: a supplier and a contract that share a
    list of bean types, as the contracts of [_create_sample_contract] do. *)
Module StoreDemo.

Import Store.

Definition objects : list obj :=
  [ OList [VAtom (AStr "Arabica")];
    ODict [("id", VAtom (AStr "S1")); ("bean_types", VRef 0%nat);
           ("capacity_kg_per_year", VAtom (AInt 50000))];
    OList [VRef 1%nat];
    ODict [("id", VAtom (AStr "contract_S1_20251103103000"));
           ("status", VAtom (AStr "active")); ("bean_types", VRef 0%nat)];
    OList [VRef 3%nat];
    OList [];
    ODict [("average_price", VAtom (AFloat 9.95%Q));
           ("price_trend", VAtom (AStr "Rising"))];
    OList [];
    ODict [("suppliers", VRef 7%nat); ("market_conditions", VAtom ANone)] ].

Definition engine : Engine :=
  {| suppliers := VRef 2%nat; contracts := VRef 4%nat; orders := VRef 5%nat;
     market_conditions := VRef 6%nat; changes := VRef 8%nat |}.

(** The heap after [get_suppliers]: the copy of the list of suppliers is at
    9, that of the supplier at 10, that of its bean types at 11. *)
Definition copied : list obj :=
  (objects
   ++ [OList [VRef 10%nat];
       ODict [("id", VAtom (AStr "S1")); ("bean_types", VRef 11%nat);
              ("capacity_kg_per_year", VAtom (AInt 50000))];
       OList [VAtom (AStr "Arabica")]])%list.

(** The caller sets the capacity of the supplier in its copy to 0. *)
Definition mutated : list obj :=
  <[10%nat := ODict [("id", VAtom (AStr "S1")); ("bean_types", VRef 11%nat);
                     ("capacity_kg_per_year", VAtom (AInt 0))]]> copied.

(** The store after the step of [Demo.calm]: the change-log, at 6, holds
    the drift of the supplier, the contract that was created and the change
    of the price. *)
Definition stepped : list obj :=
  [ ODict [("id", VAtom (AStr "S1"));
           ("name", VAtom (AStr "Ethiopia Coffee Cooperative 1"));
           ("update_type", VAtom (AStr "quality"));
           ("old_value", VAtom (AFloat 8.0%Q));
           ("new_value", VAtom (AFloat 7.6%Q))];
    OList [VRef 0%nat];
    ODict [("id", VAtom (AStr "contract_S1_20251103103000"));
           ("action", VAtom (AStr "created"));
           ("supplier", VAtom (AStr "Ethiopia Coffee Cooperative 1"))];
    OList [VRef 2%nat];
    OList [];
    ODict [("new_price", VAtom (AFloat 9.88%Q));
           ("old_price", VAtom (AFloat 9.95%Q));
           ("change_pct", VAtom (AFloat (-0.00720000)%Q))];
    ODict [("suppliers", VRef 1%nat); ("contracts", VRef 3%nat);
           ("orders", VRef 4%nat); ("market_conditions", VRef 5%nat)];
    OList [];
    OList [];
    OList [];
    ODict [] ].

Definition stepped_engine : Engine :=
  {| suppliers := VRef 7%nat; contracts := VRef 8%nat; orders := VRef 9%nat;
     market_conditions := VRef 10%nat; changes := VRef 6%nat |}.

End StoreDemo.

(** ** The methods that read and write single entities

    [add_contract], [update_contract_status], [add_order],
    [update_order_status], [get_country_for_region],
    [get_country_for_supplier] and [get_order_tracking] take and return
    dictionaries with whatever keys the caller gave them, and keep the very
    objects they are given.  They are modelled over the object store: a
    method is a computation on a [Machine] (the heap, the generator of
    [random], the wall clock) that returns, raises, or is [Stuck] on a
    reference that dangles (which Python has not).  Objects that no
    reference outlives the call to (the literal lists handed to
    [random.choice], a default [{}] that is not used) are not created. *)

Module Api.

Import Store.

Inductive error :=
| KeyErr (key : string) | TypeErr | AttributeErr | ValueErr | IndexErr.

Inductive res (A : Type) := Ret (a : A) | Err (e : error) | Stuck.
Arguments Ret {A} a.
Arguments Err {A} e.
Arguments Stuck {A}.

Record Machine := { mem : list obj; gen : Rng; wall : datetime }.

Definition H (A : Type) : Type := Machine -> res A * Machine.

#[export] Instance H_ret : MRet H := fun A a m => (Ret a, m).

#[export] Instance H_bind : MBind H := fun A B k c m =>
  match c m with
  | (Ret a, m') => k a m'
  | (Err e, m') => (Err e, m')
  | (Stuck, m') => (Stuck, m')
  end.

Definition throw {A} (e : error) : H A := fun m => (Err e, m).

Definition load (l : loc) : H obj := fun m =>
  match mem m !! l with
  | Some o => (Ret o, m)
  | None => (Stuck, m)
  end.

Definition store (l : loc) (o : obj) : H unit := fun m =>
  (Ret tt, {| mem := <[l := o]> (mem m); gen := gen m; wall := wall m |}).

(** A new object. *)
Definition alloc (o : obj) : H val := fun m =>
  (Ret (VRef (length (mem m))),
   {| mem := mem m ++ [o]; gen := gen m; wall := wall m |}).

Fixpoint assoc (k : string) (kvs : list (string * val)) : option val :=
  match kvs with
  | [] => None
  | (k', v) :: rest => if decide (k = k') then Some v else assoc k rest
  end.

Fixpoint assoc_set (k : string) (v : val) (kvs : list (string * val))
  : list (string * val) :=
  match kvs with
  | [] => [(k, v)]
  | (k', v') :: rest =>
      if decide (k = k') then (k, v) :: rest
      else (k', v') :: assoc_set k v rest
  end.

Definition str (s : string) : val := VAtom (AStr s).

(** [v == s] for a string [s]. *)
Definition is_str (s : string) (v : val) : bool :=
  match v with
  | VAtom (AStr s') => bool_decide (s' = s)
  | _ => false
  end.

(** [x[k]] for a string [k]: only a dict can be subscripted with it. *)
Definition getitem (x : val) (k : string) : H val :=
  match x with
  | VAtom _ => throw TypeErr
  | VRef l =>
      o ← load l;
      match o with
      | OList _ => throw TypeErr
      | ODict kvs =>
          match assoc k kvs with
          | Some v => mret v
          | None => throw (KeyErr k)
          end
      end
  end.

(** [x[k] = v] *)
Definition setitem (x : val) (k : string) (v : val) : H unit :=
  match x with
  | VAtom _ => throw TypeErr
  | VRef l =>
      o ← load l;
      match o with
      | OList _ => throw TypeErr
      | ODict kvs => store l (ODict (assoc_set k v kvs))
      end
  end.

(** [x.get(k)]: the value, or nothing; only a dict has the method. *)
Definition get_opt (x : val) (k : string) : H (option val) :=
  match x with
  | VAtom _ => throw AttributeErr
  | VRef l =>
      o ← load l;
      match o with
      | OList _ => throw AttributeErr
      | ODict kvs => mret (assoc k kvs)
      end
  end.

(** [x.get(k, d)] *)
Definition get_or (x : val) (k : string) (d : val) : H val :=
  v ← get_opt x k; mret (default d v).

Fixpoint is_prefix (p s : string) : bool :=
  match p, s with
  | EmptyString, _ => true
  | String a p', String b s' => Ascii.eqb a b && is_prefix p' s'
  | String _ _, EmptyString => false
  end.

Fixpoint is_substring (p s : string) : bool :=
  is_prefix p s
  || match s with
     | EmptyString => false
     | String _ s' => is_substring p s'
     end.

(** [k in x] for a string [k]: a key of a dict, an item of a list, a part
    of a string. *)
Definition contains (k : string) (x : val) : H bool :=
  match x with
  | VAtom (AStr s) => mret (is_substring k s)
  | VAtom _ => throw TypeErr
  | VRef l =>
      o ← load l;
      match o with
      | OList vs => mret (existsb (is_str k) vs)
      | ODict kvs => mret (bool_decide (is_Some (assoc k kvs)))
      end
  end.

(** The attribute [x.append]: only a list has it. *)
Definition append_method (x : val) : H loc :=
  match x with
  | VAtom _ => throw AttributeErr
  | VRef l =>
      o ← load l;
      match o with
      | OList _ => mret l
      | ODict _ => throw AttributeErr
      end
  end.

(** The call of [append] on the list at [l]. *)
Definition push_back (l : loc) (v : val) : H unit := fun m =>
  (Ret tt,
   {| mem := alter (push (None, v)) l (mem m); gen := gen m; wall := wall m |}).

Fixpoint chars (s : string) : list val :=
  match s with
  | EmptyString => []
  | String c rest => str (String c EmptyString) :: chars rest
  end.

(** What [for item in x] goes through: the items of a list, the keys of a
    dict, the characters of a string. *)
Definition iter (x : val) : H (list val) :=
  match x with
  | VAtom (AStr s) => mret (chars s)
  | VAtom _ => throw TypeErr
  | VRef l =>
      o ← load l;
      match o with
      | OList vs => mret vs
      | ODict kvs => mret ((fun kv => str kv.1) <$> kvs)
      end
  end.

(** [random.random()], [random.randint(a, b)] and [random.choice(seq)], as
    for the simulator. *)
Definition random : H Q := fun m =>
  (Ret (frac (tape (gen m) (cursor (gen m)))),
   {| mem := mem m;
      gen := {| tape := tape (gen m); cursor := S (cursor (gen m)) |};
      wall := wall m |}).

Definition randbelow (n : Z) : H Z :=
  u ← random; mret (Qfloor (u * inject_Z n)).

Definition randint (a b : Z) : H Z :=
  if b <? a then throw ValueErr
  else k ← randbelow (b - a + 1); mret (a + k).

Definition choice {A} (seq : list A) : H A :=
  match seq with
  | [] => throw IndexErr
  | x :: _ =>
      k ← randbelow (Z.of_nat (length seq)); mret (nth (Z.to_nat k) seq x)
  end.

(** [datetime.now()] *)
Definition now : H datetime := fun m => (Ret (wall m), m).

(** [self.region_to_country] *)
Definition region_to_country : list (string * list string) :=
  [("Central America",
    ["Guatemala"; "Costa Rica"; "Honduras"; "Nicaragua"; "El Salvador";
     "Panama"]);
   ("South America", ["Brazil"; "Colombia"; "Peru"; "Ecuador"; "Bolivia"]);
   ("Africa",
    ["Ethiopia"; "Kenya"; "Rwanda"; "Tanzania"; "Uganda"; "Burundi"]);
   ("Asia",
    ["Vietnam"; "Indonesia"; "India"; "Papua New Guinea"; "Thailand";
     "Laos"])].

Fixpoint countries_of (region : string) (table : list (string * list string))
  : option (list string) :=
  match table with
  | [] => None
  | (r, cs) :: rest =>
      if decide (region = r) then Some cs else countries_of region rest
  end.

Section Methods.

Context `{DT : DatetimeLib} (self : Engine).

(** [self.changes[section].append({...})]: the list and its method are
    looked up, then the entry is built, then it is appended. *)
Definition log_change (section : string) (entry : H (list (string * val)))
  : H unit :=
  log ← getitem (changes self) section;
  l ← append_method log;
  fields ← entry;
  e ← alloc (ODict fields);
  push_back l e.

Definition add_contract (contract : val) : H unit :=
  l ← append_method (contracts self);
  push_back l contract;;
  log_change "contracts"
    (id ← getitem contract "id";
     mret [("action", str "add"); ("contract_id", id)]).

(** The loops of [update_contract_status] and [update_order_status] over the
    items still to visit: the first one with the identifier gets the status,
    and the loop ends ([break]). *)
Fixpoint update_status_loop (section id_key id status : string)
    (items : list val) : H unit :=
  match items with
  | [] => mret tt
  | item :: rest =>
      item_id ← getitem item "id";
      if is_str id item_id then
        old_status ← getitem item "status";
        setitem item "status" (str status);;
        log_change section
          (mret [("action", str "update_status"); (id_key, str id);
                 ("old_status", old_status); ("new_status", str status)])
      else update_status_loop section id_key id status rest
  end.

Definition update_contract_status (contract_id status : string) : H unit :=
  items ← iter (contracts self);
  update_status_loop "contracts" "contract_id" contract_id status items.

Definition add_order (order : val) : H unit :=
  l ← append_method (orders self);
  push_back l order;;
  log_change "orders"
    (id ← getitem order "id";
     supplier ← get_or order "supplier_name" (str "Unknown");
     volume ← get_or order "volume_lbs" (VAtom (AInt 0));
     mret [("id", id); ("action", str "created"); ("supplier", supplier);
           ("volume", volume)]).

Definition update_order_status (order_id status : string) : H unit :=
  items ← iter (orders self);
  update_status_loop "orders" "order_id" order_id status items.

(** [next((x for x in items if x['id'] == id), None)] *)
Fixpoint find_by_id (id : string) (items : list val) : H (option val) :=
  match items with
  | [] => mret None
  | item :: rest =>
      item_id ← getitem item "id";
      if is_str id item_id then mret (Some item) else find_by_id id rest
  end.

(** A region that is a list or a dict cannot be looked up in a dict. *)
Definition get_country_for_region (region : val) : H val :=
  match region with
  | VRef _ => throw TypeErr
  | VAtom (AStr r) =>
      match countries_of r region_to_country with
      | Some countries => c ← choice countries; mret (str c)
      | None => mret (str "Unknown")
      end
  | VAtom _ => mret (str "Unknown")
  end.

(** The supplier found is a dict with the key ["id"], so it counts as
    true. *)
Definition get_country_for_supplier (supplier_id : string) : H val :=
  items ← iter (suppliers self);
  found ← find_by_id supplier_id items;
  match found with
  | None => mret (str "Unknown")
  | Some supplier =>
      has_country ← contains "country" supplier;
      if (has_country : bool) then getitem supplier "country"
      else
        has_region ← contains "region" supplier;
        if (has_region : bool) then
          region ← getitem supplier "region";
          get_country_for_region region
        else mret (str "Unknown")
  end.

(** [datetime.strptime(v, "%Y-%m-%d")] *)
Definition parse_ymd (v : val) : H datetime :=
  match v with
  | VAtom (AStr s) =>
      match strptime_ymd s with
      | Some d => mret d
      | None => throw ValueErr
      end
  | _ => throw TypeErr
  end.

(** [(t + timedelta(days=n)).strftime("%Y-%m-%d")] *)
Definition ymd_after (t : datetime) (n : Z) : val :=
  str (strftime_ymd (t + timedelta_of_days n)).

(** Lines 524-556: what [get_order_tracking] adds to the tracking
    information, by status. *)
Definition tracking_details (order tracking_info status : val) : H unit :=
  if is_str "placed" status then
    setitem tracking_info "location" (str "Supplier facility");;
    setitem tracking_info "status_details"
      (str "Order is being processed by the supplier");;
    today ← now;
    days ← randint 1 5;
    setitem tracking_info "next_update_expected" (ymd_after today days)
  else if is_str "in_transit" status then
    location ← choice ["Origin port"; "Atlantic Ocean"; "Pacific Ocean";
                       "Destination port"; "Customs clearance";
                       "Local distribution center"];
    setitem tracking_info "location" (str location);;
    setitem tracking_info "status_details"
      (str "Order is in transit to destination");;
    arrival ← get_or order "expected_delivery_date" (str "Unknown");
    setitem tracking_info "estimated_arrival" arrival;;
    details ← get_opt order "shipping_details";
    carrier ← match details with
              | Some d => get_or d "carrier" (str "Unknown")
              | None => mret (str "Unknown")
              end;
    setitem tracking_info "transportation_method" carrier
  else if is_str "delayed" status then
    location ← choice ["Origin port"; "Customs clearance";
                       "International waters"; "Transshipment port"];
    setitem tracking_info "location" (str location);;
    reason ← choice ["Weather-related shipping delay";
                     "Customs processing delay";
                     "Logistics coordination issue";
                     "Documentation discrepancy"];
    setitem tracking_info "status_details" (str reason);;
    delay ← randint 3 15;
    setitem tracking_info "delay_duration" (str (pretty delay +:+ " days"));;
    today ← now;
    expected ← get_or order "expected_delivery_date"
                 (str (strftime_ymd today));
    original_date ← parse_ymd expected;
    days ← randint 3 15;
    setitem tracking_info "revised_delivery" (ymd_after original_date days)
  else if is_str "delivered" status || is_str "partially_delivered" status
  then
    setitem tracking_info "location" (str "Starbucks warehouse");;
    today ← now;
    delivered ← get_or order "actual_delivery_date"
                  (str (strftime_ymd today));
    setitem tracking_info "delivery_date" delivered;;
    setitem tracking_info "received_by" (str "Warehouse Manager");;
    check ← choice ["Pending"; "In progress"; "Completed - Passed";
                    "Completed - Minor issues"];
    setitem tracking_info "quality_check_status" (str check);;
    if is_str "partially_delivered" status then
      percentage ← randint 50 95;
      setitem tracking_info "delivery_percentage"
        (str (pretty percentage +:+ "%"));;
      today ← now;
      days ← randint 7 21;
      setitem tracking_info "remaining_delivery_expected"
        (ymd_after today days)
    else mret tt
  else mret tt.

(** The order found is a dict with the key ["id"], so it counts as true. *)
Definition get_order_tracking (order_id : string) : H val :=
  items ← iter (orders self);
  found ← find_by_id order_id items;
  match found with
  | None =>
      alloc (ODict [("error",
                     str ("Order with ID " +:+ order_id +:+ " not found"))])
  | Some order =>
      status ← getitem order "status";
      supplier_name ← get_or order "supplier_name" (str "Unknown Supplier");
      today ← now;
      details ← get_opt order "shipping_details";
      shipping_details ← match details with
                         | Some d => mret d
                         | None => alloc (ODict [])
                         end;
      tracking_info ← alloc (ODict
        [("order_id", str order_id);
         ("supplier_name", supplier_name);
         ("current_status", status);
         ("status_updated", str (strftime_ymd today));
         ("shipping_details", shipping_details)]);
      tracking_details order tracking_info status;;
      mret tracking_info
  end.

End Methods.

End Api.

(** ** The initial data ([src/simulation/data_generator.py])

    The functions that make the suppliers and the market a simulator is
    created with, and the constructor of the simulator.  They draw from the
    same generator and read the same clock as the simulator. *)

Module Generator.

Record Region := {
  r_name : string;
  r_beans : list string;
  r_quality_range : Q * Q
}.

Definition regions : list Region :=
  [ {| r_name := "Ethiopia"; r_beans := ["Arabica"; "Typica"; "Bourbon"];
       r_quality_range := (7.5%Q, 9.5%Q) |};
    {| r_name := "Colombia"; r_beans := ["Arabica"; "Bourbon"; "Typica"];
       r_quality_range := (7.0%Q, 9.0%Q) |};
    {| r_name := "Brazil"; r_beans := ["Arabica"; "Bourbon"; "Robusta"];
       r_quality_range := (6.5%Q, 8.5%Q) |};
    {| r_name := "Vietnam"; r_beans := ["Robusta"; "Arabica"];
       r_quality_range := (6.0%Q, 8.0%Q) |};
    {| r_name := "Guatemala"; r_beans := ["Arabica"; "Bourbon"; "Typica"];
       r_quality_range := (7.0%Q, 9.0%Q) |};
    {| r_name := "Costa Rica"; r_beans := ["Arabica"; "Gesha"; "Typica"];
       r_quality_range := (7.5%Q, 9.5%Q) |};
    {| r_name := "Kenya"; r_beans := ["Arabica"; "SL28"; "SL34"];
       r_quality_range := (7.5%Q, 9.5%Q) |};
    {| r_name := "Indonesia"; r_beans := ["Arabica"; "Robusta"; "Typica"];
       r_quality_range := (6.5%Q, 8.5%Q) |} ].

Definition certifications : list string :=
  ["Organic"; "Fair Trade"; "Rainforest Alliance"; "UTZ"; "Bird Friendly"].

(** The dictionary of a supplier: the keys the simulator reads, and the
    three it never reads. *)
Record SupplierData := {
  as_supplier : Supplier;
  region : string;
  supplier_certifications : list string;
  years_in_business : Z
}.


(** The loop of [random.sample] for a population of at most 21 items: an
    item of the pool is drawn, and the last item of the pool takes its
    place.  [pool] holds the items not yet selected. *)
Fixpoint sample_from {A} (pool : list A) (k : nat) : M (list A) :=
  match k with
  | O => mret []
  | S k' =>
      j ← randbelow (Z.of_nat (length pool));
      match pool !! Z.to_nat j, last pool with
      | Some x, Some y =>
          rest ← sample_from (removelast (<[Z.to_nat j := y]> pool)) k';
          mret (x :: rest)
      | _, _ => raise IndexError
      end
  end.

(** [random.sample(population, k)]: [ValueError] when the sample is larger
    than the population or negative. *)
Definition sample {A} (population : list A) (k : Z) : M (list A) :=
  if (k <? 0) || (Z.of_nat (length population) <? k) then raise ValueError
  else sample_from population (Z.to_nat k).

Section Generate.

Context `{DT : DatetimeLib}.

(** The body of the loop of [generate_suppliers], for the number [i]. *)
Definition generate_supplier (i : Z) : M SupplierData :=
  region ← choice regions;
  let region_name := r_name region in
  bean_count ← randint 1 2;
  bean_types ← sample (r_beans region)
                 (Z.min bean_count (Z.of_nat (length (r_beans region))));
  cert_count ← randint 0 3;
  supplier_certifications ←
    sample certifications
      (Z.min cert_count (Z.of_nat (length certifications)));
  let '(quality_min, quality_max) := r_quality_range region in
  q ← uniform quality_min quality_max;
  let quality_score := Py.round q 1 in
  c ← randint 10 100;
  let capacity := c * 1000 in
  reliability ← uniform 6.0%Q 9.5%Q;
  years ← randint 3 50;
  sustainability ← uniform 5.0%Q 10.0%Q;
  mret {| as_supplier :=
            {| s_id := "S" +:+ pretty i;
               s_name := region_name +:+ " Coffee Cooperative " +:+ pretty i;
               quality_score := Some quality_score;
               reliability_score := Py.round reliability 1;
               sustainability_score := Py.round sustainability 1;
               capacity_kg_per_year := capacity;
               bean_types := Some bean_types |};
          region := region_name;
          supplier_certifications := supplier_certifications;
          years_in_business := years |}.

(** [for i in range(first, first + n)] *)
Fixpoint generate_from (first : Z) (n : nat) : M (list SupplierData) :=
  match n with
  | O => mret []
  | S n' =>
      supplier ← generate_supplier first;
      rest ← generate_from (first + 1) n';
      mret (supplier :: rest)
  end.

Definition generate_suppliers (count : Z) : M (list SupplierData) :=
  generate_from 1 (Z.to_nat count).

(** The history of prices: [for i in range(days, 0, -1)]. *)
Fixpoint generate_history (current_date : datetime) (temp_price : Q)
    (days : nat) : M (list PricePoint) :=
  match days with
  | O => mret []
  | S days' =>
      let date := current_date - timedelta_of_days (Z.of_nat days) in
      change_pct ← uniform (-0.03)%Q 0.03%Q;
      let temp_price := Py.round (temp_price * (1 + change_pct))%Q 2 in
      rest ← generate_history current_date temp_price days';
      mret ({| pp_date := isoformat date; pp_price := temp_price |} :: rest)
  end.

Fixpoint generate_regional_prices (base_price : Q) (names : list string)
  : M (list (string * Q)) :=
  match names with
  | [] => mret []
  | name :: rest =>
      variation ← uniform (-0.10)%Q 0.15%Q;
      prices ← generate_regional_prices base_price rest;
      mret ((name, Py.round (base_price * (1 + variation))%Q 2) :: prices)
  end.

Definition generate_factor (name : string) (statuses details : list string)
  : M Factor :=
  status ← choice statuses;
  impact ← choice ["Minimal"; "Moderate"; "Significant"];
  detail ← choice details;
  mret {| f_name := name; f_status := status; f_impact := impact;
          f_details := detail |}.

Definition generate_market_conditions : M MarketConditions :=
  current_date ← datetime_now;
  base ← uniform 4.0%Q 6.0%Q;
  let base_price := Py.round base 2 in
  price_history ← generate_history current_date base_price 30;
  regional_prices ←
    generate_regional_prices base_price
      ["Ethiopia"; "Colombia"; "Brazil"; "Vietnam"; "Guatemala";
       "Costa Rica"; "Kenya"; "Indonesia"];
  robusta ← uniform 0.7%Q 0.9%Q;
  bourbon ← uniform 1.05%Q 1.2%Q;
  typica ← uniform 1.0%Q 1.15%Q;
  gesha ← uniform 1.5%Q 2.5%Q;
  let bean_prices :=
    [("Arabica", base_price);
     ("Robusta", Py.round (base_price * robusta)%Q 2);
     ("Bourbon", Py.round (base_price * bourbon)%Q 2);
     ("Typica", Py.round (base_price * typica)%Q 2);
     ("Gesha", Py.round (base_price * gesha)%Q 2)] in
  weather ← generate_factor "Weather Conditions"
              ["Favorable"; "Mixed"; "Concerning"]
              ["Ideal rainfall in major growing regions";
               "Drought conditions in parts of Brazil";
               "Excessive rainfall in Colombia affecting harvest";
               "Normal seasonal patterns across most regions"];
  politics ← generate_factor "Political Stability"
               ["Stable"; "Some Concerns"; "Unstable"]
               ["No major political disruptions in key regions";
                "Political tensions in Ethiopia affecting exports";
                "Trade policy changes impacting shipping costs";
                "Labor disputes in Colombia affecting production"];
  demand ← generate_factor "Global Demand"
             ["Growing"; "Stable"; "Declining"]
             ["Steady increase in global coffee consumption";
              "Shifting consumer preferences toward specialty coffee";
              "Economic slowdown affecting cafe sales";
              "New markets emerging in Asia"];
  trend ← choice ["Rising"; "Stable"; "Falling"];
  short ← choice ["Price increase expected"; "Stable prices likely";
                  "Price decrease expected"];
  long ← choice ["Upward trend"; "Stable market"; "Downward pressure";
                 "Increased volatility"];
  mret {| date := isoformat current_date;
          average_price := base_price;
          price_trend := trend;
          price_history := price_history;
          regional_prices := regional_prices;
          bean_prices := bean_prices;
          market_factors := [weather; politics; demand];
          forecast := {| short_term := short; long_term := long |} |}.




End Generate.

End Generator.

(** * Properties

    The predicates the statements below are made of. *)

(** ** Invariants of computations

    [keeps I m]: when [I] holds of the simulator before [m] it holds after
    it, whether [m] returns or raises. *)

Definition keeps {A} (I : Sim -> Prop) (m : M A) : Prop :=
  forall w, I (self w) -> I (self (m w).2).

(** ** Bounds *)

Definition in_range (lo hi x : Q) : Prop := (lo <= x <= hi)%Q.

(** [r] is [x] rounded to the cent: a price within half a cent of [x].
    Which of two cents the code stores when [x] lies within a rounding error
    of the middle between them depends on the binary representation of the
    floats, which the model does not have. *)
Definition cent_of (x r : Q) : Prop :=
  (x - (1 # 200) <= r <= x + (1 # 200))%Q.

Definition price_in_bounds (s : Sim) : Prop :=
  in_range 3 10 (average_price (market_conditions s)).

Definition supplier_in_bounds (x : Supplier) : Prop :=
  (forall q, quality_score x = Some q -> in_range 5 10 q)
  /\ in_range 5 10 (reliability_score x)
  /\ in_range 5 10 (sustainability_score x).

Definition scores_in_bounds (s : Sim) : Prop :=
  Forall supplier_in_bounds (suppliers s).

Definition bounded (s : Sim) : Prop :=
  price_in_bounds s /\ scores_in_bounds s.


(** ** Worlds to run the simulator on *)

Module Demo.

Definition market : MarketConditions :=
  {| date := "2025-11-03T10:30:00";
     average_price := 9.95%Q;
     price_trend := "Rising";
     price_history := [];
     regional_prices := [("Ethiopia", 5.1%Q)];
     bean_prices := [("Arabica", 5.0%Q)];
     market_factors :=
       [{| f_name := "Weather Conditions"; f_status := "Mixed";
           f_impact := "Minimal";
           f_details := "Frost concerns in Brazil" |}];
     forecast := {| short_term := "Stable prices likely";
                    long_term := "Stable market" |} |}.

Definition supplier (capacity : Z) : Supplier :=
  {| s_id := "S1"; s_name := "Ethiopia Coffee Cooperative 1";
     quality_score := Some 8.0%Q; reliability_score := 7.0%Q;
     sustainability_score := 6.0%Q; capacity_kg_per_year := capacity;
     bean_types := Some ["Arabica"] |}.

(** The simulator on 2025-11-03T10:30:00.123456, without contracts. *)
Definition sim (sups : list Supplier) (os : list Order) : Sim :=
  {| suppliers := sups; contracts := []; orders := os;
     market_conditions := market;
     simulation_date := 1762165800123456;
     simulation_step := 0; changes := no_changes |}.

(** The generator that replays [draws] and then repeats [rest]. *)
Definition world (s : Sim) (draws : list Q) (rest : Q) : World :=
  {| self := s;
     rand := {| tape := fun i => nth i draws rest; cursor := 0 |};
     clock := 1762165800123456 |}.

Definition quiet : World := world (sim [supplier 50000] []) [] 0.05%Q.

(** An order with the legacy date field only, or with no date field. *)
Definition order (status : string) (due : option string) : Order :=
  {| o_id := "order_1"; o_status := status;
     expected_delivery := None; expected_delivery_date := due |}.

(** A pending order due on the tenth day after the simulated date, and a
    generator none of whose draws is below 0.9. *)
Definition unlucky : World :=
  world (sim [supplier 50000] [order "pending" (Some "2025-11-13")])
    [] 0.9%Q.

(** A pending order whose date is not a date. *)
Definition malformed : World :=
  world (sim [supplier 50000] [order "pending" (Some "soon")]) [] 0.9%Q.

(** A supplier of capacity 1, and draws that make the drift sub-step pick
    its capacity and the change -5%. *)
Definition shrinking : World :=
  world (sim [supplier 1] [])
    [0.5; 0.5; 0.5; 0.5; 0.5; 0.1; 0; 0.8; 0.25]%Q 0.9%Q.

(** Two orders with one identifier: the first has the key
    [expected_delivery], the second the legacy key only. *)
Definition twins : World :=
  world (sim [supplier 50000]
           [{| o_id := "order_1"; o_status := "pending";
               expected_delivery := Some "2025-12-01";
               expected_delivery_date := None |};
            order "pending" (Some "2025-11-13")])
    [] 0.9%Q.

(** An order with the legacy key only. *)
Definition legacy : World :=
  world (sim [supplier 50000] [order "pending" (Some "2025-11-13")]) [] 0.9%Q.


(** A pending order without a date and a delivered one. *)
Definition settled : World :=
  world (sim [supplier 50000]
           [order "pending" None; order "delivered" (Some "2025-11-01")])
    [] 0.05%Q.

(** Thirty earlier days in the history of prices, the oldest first, at
    9.00, 9.01, ... dollars. *)
Definition month : World :=
  world
    {| suppliers := [supplier 50000]; contracts := []; orders := [];
       market_conditions :=
         set_price_history
           ((fun i =>
               {| pp_date :=
                    Calendar.cal_isoformat
                      (1762165800123456
                       - timedelta_of_days (30 - Z.of_nat i));
                  pp_price := (9 + inject_Z (Z.of_nat i) / 100)%Q |})
              <$> seq 0 30)
           market;
       simulation_date := 1762165800123456;
       simulation_step := 0; changes := no_changes |}
    [] 0.05%Q.

(** The simulator of [quiet] with a generator all of whose draws are
    0.07. *)
Definition calm : World := world (sim [supplier 50000] []) [] 0.07%Q.

(** A pending order due on the tenth day after the simulated date, and a
    generator all of whose draws are 0.05. *)
Definition lucky : World :=
  world (sim [supplier 50000] [order "pending" (Some "2025-11-13")])
    [] 0.05%Q.

End Demo.

(** ** Where the model describes the code

    Three conventions of the model are narrower than Python.  A statement
    that depends on one of them says so in a hypothesis.

    - The last [datetime] of Python is 9999-12-31T23:59:59.999999, and
      adding a [timedelta] to a date raises [OverflowError] when the sum
      lies beyond it (the first is 0001-01-01T00:00).  The dates of the
      model are unbounded.
    - [datetime.fromisoformat] returns a datetime with a time zone for a
      string with a UTC offset, and subtracting the simulated date, which
      has none, from it raises [TypeError].  [fromisoformat] of
      [DatetimeLib] describes the parser on the strings without an offset.
    - A list of the simulator can hold one dictionary twice ([add_order]
      appends what it is given), and a write to it at one position is then
      seen at the other.  The records of the model are values: a list
      without two equal entries ([NoDup]) holds no object twice. *)

Definition datetime_min : datetime := - 719162 * us_per_day.
Definition datetime_max : datetime := 2932897 * us_per_day - 1.

(** [days] days can be added to the date [d]. *)
Definition days_left (days : Z) (d : datetime) : Prop :=
  d + timedelta_of_days days <= datetime_max.

Fixpoint occurs (c : Ascii.ascii) (s : string) : bool :=
  match s with
  | EmptyString => false
  | String c' rest => Ascii.eqb c c' || occurs c rest
  end.

(** [s[n:]] *)
Fixpoint string_from (n : nat) (s : string) : string :=
  match n, s with
  | O, _ => s
  | S n', String _ rest => string_from n' rest
  | S _, EmptyString => EmptyString
  end.

(** The string has no UTC offset.  An offset begins with [+] or [-] and
    follows the time, which follows a date of seven characters at least and
    a separator: it begins at the tenth character or later.  ([Z], the
    third way to write an offset, is removed by the simulator before it
    parses.) *)
Definition offset_free (s : string) : bool :=
  negb (occurs "+"%char s) && negb (occurs "-"%char (string_from 10 s)).

(** ** The history of prices *)

(** The point [simulate_step] adds to the history of prices: the date and
    the average price of the market after the step. *)
Definition new_point (m : MarketConditions) : PricePoint :=
  {| pp_date := date m; pp_price := average_price m |}.

Definition history_updated `{DT : DatetimeLib} (today : datetime)
    (before : list PricePoint) (s' : Sim) : Prop :=
  let m := market_conditions s' in
  date m = isoformat today
  /\ price_history m = last_n 30 (before ++ [new_point m]).

(** What the history of prices depends on. *)
Definition price_part (s : Sim) : string * Q * list PricePoint :=
  let m := market_conditions s in (date m, average_price m, price_history m).


(** ** The lifecycle of an order *)

Definition absorbing (status : string) : Prop :=
  status ∈ ["delivered"; "cancelled"].

Inductive transition : string -> string -> Prop :=
| ships : transition "pending" "in_transit"
| delays : transition "pending" "delayed"
| arrives : transition "in_transit" "delivered"
| resumes : transition "delayed" "in_transit".

(** The date an order is due, when it has a date field that parses. *)
Definition delivery_date `{DT : DatetimeLib} (o : Order) : option datetime :=
  match delivery_field o with
  | Some s => parsed_delivery s
  | None => None
  end.

(** What one visit of [_update_orders] does to an order: nothing, or one
    transition of an order with a date. *)
Definition visit `{DT : DatetimeLib} (o o' : Order) : Prop :=
  o' = o
  \/ (o_id o' = o_id o /\ transition (o_status o) (o_status o')
      /\ is_Some (delivery_date o)).

(** ... and to the list of orders, when the order at [i] is visited. *)
Definition orders_visit `{DT : DatetimeLib} (i : nat) (os os' : list Order)
  : Prop :=
  (forall j, j <> i -> os' !! j = os !! j)
  /\ (forall o, os !! i = Some o -> exists o', os' !! i = Some o' /\ visit o o').

(** What a step does to the order at [j]. *)
Definition visited `{DT : DatetimeLib} (j : nat) (o : Order) (s : Sim)
  : Prop :=
  exists o', orders s !! j = Some o' /\ visit o o'.

(** ** The drift of a supplier *)

(** What [_update_suppliers] does to a supplier: nothing, a new clamped
    score, or a capacity scaled by a factor in [0.9, 1.1] and truncated. *)
Inductive drift : Supplier -> Supplier -> Prop :=
| drift_none s : drift s s
| drift_quality s v : drift s (set_quality_score (clamp_score v) s)
| drift_reliability s v : drift s (set_reliability_score (clamp_score v) s)
| drift_sustainability s v :
    drift s (set_sustainability_score (clamp_score v) s)
| drift_capacity s pct :
    (-0.1 <= pct <= 0.1)%Q ->
    drift s (set_capacity_kg_per_year
               (Py.int (inject_Z (capacity_kg_per_year s) * (1 + pct))%Q) s).

Definition drifted (i : nat) (s : Supplier) (sim : Sim) : Prop :=
  exists s', suppliers sim !! i = Some s' /\ drift s s'.


(** ** Changing a delivery date *)

(** The world after [update_order_expected_delivery] has replaced the date
    [old] of the order [o] at [i] by [new]. *)
Definition delivery_updated (w : World) (i : nat) (o : Order)
    (old new : string) : World :=
  {| self :=
       set_changes
         (log_order (OrderDeliveryUpdate (o_id o) old new) (changes (self w)))
         (set_orders (<[i := set_expected_delivery new o]> (orders (self w)))
            (self w));
     rand := rand w; clock := clock w |}.

(** The order at [i] is the first one with its identifier. *)
Definition first_with_id (os : list Order) (i : nat) (o : Order) : Prop :=
  os !! i = Some o
  /\ forall j o', (j < i)%nat -> os !! j = Some o' -> o_id o' <> o_id o.


(** ** The change-log *)

(** The world with another change-log. *)
Definition with_changes (c : Changes) (w : World) : World :=
  {| self := set_changes c (self w); rand := rand w; clock := clock w |}.

(** ** Orders whose dates the model describes *)

(** The date string of the order, when the lifecycle reads it (the order is
    neither delivered nor cancelled), has no UTC offset, and when the order
    is pending a delay of fifteen days can be added to its date. *)
Definition plain_dated `{DT : DatetimeLib} (o : Order) : Prop :=
  absorbing (o_status o)
  \/ forall s, delivery_field o = Some s ->
       offset_free s = true
       /\ (o_status o = "pending" ->
           forall d, parsed_delivery s = Some d -> days_left 15 d).

(** The log that [simulate_step] writes when it starts from an empty one. *)
Definition step_log `{DT : DatetimeLib} (w : World) : Changes :=
  changes (self (simulate_step (with_changes no_changes w)).2).

(** *** The change-log as an object

    The value of [self.changes] after a step, with the entries as the
    sub-steps build them (lines 190-194, 319-325, 232-236, 249-254, 259-263,
    269-273 and 613-617). *)
Module Log.

Import Store.

Definition text (s : string) : tree := TAtom (AStr s).

Definition of_value (v : Value) : tree :=
  match v with
  | FloatValue q => TAtom (AFloat q)
  | IntValue z => TAtom (AInt z)
  | NoneValue => TAtom ANone
  end.

Definition of_supplier (c : SupplierChange) : tree :=
  TDict [("id", text (sc_id c)); ("name", text (sc_name c));
         ("update_type", text (update_type c));
         ("old_value", of_value (old_value c));
         ("new_value", of_value (new_value c))].

Definition of_contract (c : ContractChange) : tree :=
  match c with
  | ContractCreated id supplier =>
      TDict [("id", text id); ("action", text "created");
             ("supplier", text supplier)]
  end.

Definition of_order (c : OrderChange) : tree :=
  match c with
  | OrderTransition id old_status new_status delay_days =>
      TDict ([("id", text id); ("old_status", text old_status);
              ("new_status", text new_status)]
             ++ match delay_days with
                | Some k => [("delay_days", TAtom (AInt k))]
                | None => []
                end)
  | OrderDeliveryUpdate order_id old_delivery new_delivery =>
      TDict [("action", text "update_delivery"); ("order_id", text order_id);
             ("old_delivery", text old_delivery);
             ("new_delivery", text new_delivery)]
  end.

Definition of_market (c : option MarketChange) : tree :=
  match c with
  | None => TDict []
  | Some c =>
      TDict [("new_price", TAtom (AFloat (new_price c)));
             ("old_price", TAtom (AFloat (old_price c)));
             ("change_pct", TAtom (AFloat (change_pct c)))]
  end.

Definition of_changes (c : Changes) : tree :=
  TDict [("suppliers", TList (of_supplier <$> ch_suppliers c));
         ("contracts", TList (of_contract <$> ch_contracts c));
         ("orders", TList (of_order <$> ch_orders c));
         ("market_conditions", of_market (ch_market_conditions c))].

(** The value [v] of the heap [h] is the change-log [c]. *)
Definition shows (h : list obj) (v : val) (c : Changes) : Prop :=
  exists depth, snapshot depth h v = Some (of_changes c).

End Log.

(** ** What a step does to the orders and to their log *)

Definition is_ok {A} (r : outcome A) : bool :=
  match r with Ok _ => true | Raise _ => false end.

(** The date field of an order that is delayed is rewritten: the field
    [expected_delivery] when the order has it, else the legacy field. *)
Definition postponed `{DT : DatetimeLib} (new_delivery : datetime) (o : Order)
  : Order :=
  match expected_delivery o, expected_delivery_date o with
  | Some _, _ => set_expected_delivery (isoformat new_delivery) o
  | None, Some _ => set_expected_delivery_date (strftime_ymd new_delivery) o
  | None, None => o
  end.

(** An order in transit whose date has come. *)
Definition overdue `{DT : DatetimeLib} (today : datetime) (o : Order) : Prop :=
  o_status o = "in_transit"
  /\ exists due, delivery_date o = Some due
                 /\ timedelta_days (due - today) <= 0.

(** [moved finished today o o' l]: what the visit of the order [o] on the
    simulated date [today] leaves, and what it appends to the log.  When the
    step has [finished] (it did not raise), an order that is overdue was
    delivered. *)
Inductive moved `{DT : DatetimeLib} (finished : bool) (today : datetime)
    (o : Order) : Order -> list OrderChange -> Prop :=
| moved_not :
    (finished = true -> ~ overdue today o) -> moved finished today o o []
| moved_ship due :
    delivery_date o = Some due -> o_status o = "pending" ->
    timedelta_days (due - today) <= 30 ->
    moved finished today o (set_o_status "in_transit" o)
      [OrderTransition (o_id o) "pending" "in_transit" None]
| moved_delay due k :
    delivery_date o = Some due -> o_status o = "pending" ->
    timedelta_days (due - today) <= 30 -> 5 <= k <= 15 ->
    moved finished today o
      (postponed (due + timedelta_of_days k) (set_o_status "delayed" o))
      [OrderTransition (o_id o) "pending" "delayed" (Some k)]
| moved_arrive due :
    delivery_date o = Some due -> o_status o = "in_transit" ->
    timedelta_days (due - today) <= 0 ->
    moved finished today o (set_o_status "delivered" o)
      [OrderTransition (o_id o) "in_transit" "delivered" None]
| moved_resume due :
    delivery_date o = Some due -> o_status o = "delayed" ->
    moved finished today o (set_o_status "in_transit" o)
      [OrderTransition (o_id o) "delayed" "in_transit" None].

(** ... of the orders of a list, one after the other. *)
Inductive all_moved `{DT : DatetimeLib} (finished : bool) (today : datetime)
  : list Order -> list Order -> list OrderChange -> Prop :=
| all_moved_nil : all_moved finished today [] [] []
| all_moved_cons o o' l os os' log :
    moved finished today o o' l ->
    all_moved finished today os os' log ->
    all_moved finished today (o :: os) (o' :: os') (l ++ log).

(** What the visits of the orders read and write. *)
Definition orders_part (s : Sim) : list Order * list OrderChange * datetime :=
  (orders s, ch_orders (changes s), simulation_date s).

(** Worlds with one order, of a given status and due date (in the legacy
    field, as the orders the agents place have it); no draw is below 0.9. *)
Module Cases.

Definition with_order (status due : string) : World :=
  Demo.world (Demo.sim [Demo.supplier 50000] [Demo.order status (Some due)])
    [] 0.9%Q.

(** In transit, due ten days after the simulated date. *)
Definition shipping : World := with_order "in_transit" "2025-11-13".

(** In transit, due two days before the simulated date. *)
Definition arriving : World := with_order "in_transit" "2025-11-01".

(** Placed by an agent, due in six weeks. *)
Definition placed : World := with_order "placed" "2025-12-15".

(** Two orders: the first in transit and due two days before the simulated
    date, the second pending and due ten days after it; every draw is
    0.05. *)
Definition pair : World :=
  Demo.world
    (Demo.sim [Demo.supplier 50000]
       [{| o_id := "order_1"; o_status := "in_transit";
           expected_delivery := None;
           expected_delivery_date := Some "2025-11-01" |};
        {| o_id := "order_2"; o_status := "pending";
           expected_delivery := Some "2025-11-13T00:00:00";
           expected_delivery_date := None |}])
    [] 0.05%Q.

End Cases.

(** ** Who is who *)

(** What names the orders and the suppliers. *)
Definition names (s : Sim)
  : list string * list (string * string * option (list string)) :=
  (o_id <$> orders s,
   (fun x => (s_id x, s_name x, bean_types x)) <$> suppliers s).

(** ** The price of the day *)

(** The range the daily change of the price is drawn from, by trend. *)
Definition change_range (trend : string) : Q * Q :=
  if decide (trend = "Rising") then ((-0.01)%Q, 0.03%Q)
  else if decide (trend = "Falling") then ((-0.03)%Q, 0.01%Q)
  else ((-0.015)%Q, 0.015%Q).

(** The price after a change of [change_pct]: rounded to the cent and kept
    in [3.0, 10.0]. *)
Definition next_price (current_price change_pct : Q) : Q :=
  Py.max 3.0%Q
    (Py.min 10.0%Q (Py.round (current_price * (1 + change_pct))%Q 2)).

(** The trend that two prices four entries apart give. *)
Definition trend_of (oldest newest : Q) : string :=
  if Py.Qltb (oldest * 1.02)%Q newest then "Rising"
  else if Py.Qltb newest (oldest * 0.98)%Q then "Falling"
  else "Stable".

(** What the trend is computed from, and the trend. *)
Definition trend_part (s : Sim) : string * list PricePoint * Q :=
  let m := market_conditions s in
  (price_trend m, price_history m, average_price m).


(** What the trend is after the market was updated. *)
Definition trend_updated (before : string) (s' : Sim) : Prop :=
  let m' := market_conditions s' in
  let h := price_history m' in
  ((length h < 5)%nat -> price_trend m' = before)
  /\ ((5 <= length h)%nat ->
      exists oldest,
        h !! (length h - 5)%nat = Some oldest
        /\ price_trend m' = trend_of (pp_price oldest) (average_price m')).


(** The average price of [s'] is that of [m] after a change drawn from the
    range of the trend of [m]. *)
Definition priced (m : MarketConditions) (s' : Sim) : Prop :=
  exists pct,
    in_range (change_range (price_trend m)).1 (change_range (price_trend m)).2
      pct
    /\ average_price (market_conditions s')
       = next_price (average_price m) pct.

(** ** Steps that return *)


(** The date of the order can be read: the order is delivered or cancelled
    (its date is not looked at), or has no date field, or has one that
    parses. *)
Definition well_dated `{DT : DatetimeLib} (o : Order) : Prop :=
  absorbing (o_status o) \/ delivery_field o = None
  \/ is_Some (delivery_date o).


(** There is a market factor to update, and every supplier has a quality
    score. *)
Definition equipped (s : Sim) : Prop :=
  market_factors (market_conditions s) <> []
  /\ Forall (fun x => is_Some (quality_score x)) (suppliers s).

Definition ready `{DT : DatetimeLib} (s : Sim) : Prop :=
  equipped s /\ Forall well_dated (orders s).


(** Every key of the list has a price in a dict of the market. *)
Definition priced_keys (prices : MarketConditions -> list (string * Q))
    (keys : list string) (s : Sim) : Prop :=
  Forall (fun k => is_Some (dict_get k (prices (market_conditions s)))) keys.

(** ** Steps that raise *)

Module Broken.

(** A market without factors; every draw is 0.05. *)
Definition no_factors : World :=
  Demo.world
    {| suppliers := [Demo.supplier 50000]; contracts := [];
       orders := [Demo.order "pending" (Some "2025-11-13")];
       market_conditions := set_market_factors [] Demo.market;
       simulation_date := 1762165800123456;
       simulation_step := 0; changes := no_changes |}
    [] 0.05%Q.

(** A supplier without a quality score; the draws pick it and a change of
    its quality. *)
Definition unrated : World :=
  Demo.world
    (Demo.sim [{| s_id := "S1"; s_name := "Ethiopia Coffee Cooperative 1";
                  quality_score := None; reliability_score := 7.0%Q;
                  sustainability_score := 6.0%Q;
                  capacity_kg_per_year := 50000; bean_types := None |}] [])
    [] 0.05%Q.

End Broken.

(** The draws of a generator from its cursor on. *)
Definition draw (w : World) (i : nat) : Q :=
  frac (tape (rand w) (cursor (rand w) + i)).

(** The part of [simulate_step] that runs before the order at the position
    [i] is visited: the clock and the log, the market, and the visits of the
    orders before it. *)
Definition reach_order `{DT : DatetimeLib} (i : nat) : M unit :=
  begin_step;; _update_market_conditions;; for_each (seq 0 i) update_order.

(** The status and the identifier of the order at [i]. *)
Definition labelled (i : nat) (id status : string) (s : Sim) : Prop :=
  exists o', orders s !! i = Some o' /\ o_id o' = id /\ o_status o' = status.

(** The generator after [n] draws. *)
Definition drawn (n : nat) (r : Rng) : Rng :=
  {| tape := tape r; cursor := (cursor r + n)%nat |}.

(** The regional prices, the bean prices and the factors of the market. *)
Definition market_rest (s : Sim)
  : list (string * Q) * list (string * Q) * list Factor :=
  let m := market_conditions s in
  (regional_prices m, bean_prices m, market_factors m).

(** ** The entities in the store *)

Module ApiProps.

Import Store Api.

(** The value is a reference to a dict, or to a list, of the heap. *)
Definition dict_at (h : list obj) (x : val) (kvs : list (string * val))
  : Prop :=
  exists l, x = VRef l /\ h !! l = Some (ODict kvs).

Definition list_at (h : list obj) (x : val) (vs : list val) : Prop :=
  exists l, x = VRef l /\ h !! l = Some (OList vs).

(** The item is a dict with an identifier, which is, or is not, [id]. *)
Definition has_id (h : list obj) (id : string) (item : val) : Prop :=
  exists kvs v, dict_at h item kvs /\ assoc "id" kvs = Some v
                /\ is_str id v = true.

Definition has_other_id (h : list obj) (id : string) (item : val) : Prop :=
  exists kvs v, dict_at h item kvs /\ assoc "id" kvs = Some v
                /\ is_str id v = false.

(** The item is a dict that [id] does not name: it has another identifier,
    or no key ["id"]. *)
Definition unmatched (h : list obj) (id : string) (item : val) : Prop :=
  exists kvs, dict_at h item kvs
              /\ match assoc "id" kvs with
                 | Some v => is_str id v = false
                 | None => True
                 end.

(** The item is a dict with the key [k]. *)
Definition keyed (h : list obj) (k : string) (item : val) : bool :=
  match item with
  | VRef l =>
      match h !! l with
      | Some (ODict kvs) => bool_decide (is_Some (assoc k kvs))
      | _ => false
      end
  | VAtom _ => false
  end.

(** The change-log is a dict whose entry [section] is the list at [l]. *)
Definition log_at (self : Engine) (h : list obj) (section : string) (l : loc)
    (entries : list val) : Prop :=
  exists ckvs, dict_at h (changes self) ckvs
               /\ assoc section ckvs = Some (VRef l)
               /\ h !! l = Some (OList entries).

(** The machine with another heap. *)
Definition with_mem (h : list obj) (m : Machine) : Machine :=
  {| mem := h; gen := gen m; wall := wall m |}.

(** The heap after [x.append(v)] for the list at [l]. *)
Definition appended (l : loc) (v : val) (h : list obj) : list obj :=
  alter (push (None, v)) l h.

(** The heap after a new entry with [fields] was added to the log at [l]. *)
Definition logged (l : loc) (fields : list (string * val)) (h : list obj)
  : list obj :=
  appended l (VRef (length h)) (h ++ [ODict fields]).


(** [hoare I c Q E]: from a heap that satisfies [I], the computation [c]
    leaves a heap that satisfies [Q] with its result when it returns, and
    [E] when it raises. *)
Definition hoare {A} (I : list obj -> Prop) (c : H A)
    (Q : A -> list obj -> Prop) (E : list obj -> Prop) : Prop :=
  forall m, I (mem m) ->
    match c m with
    | (Ret a, m') => Q a (mem m')
    | (_, m') => E (mem m')
    end.

(** The computation leaves the heap as it is. *)
Definition quiet {A} (c : H A) : Prop := forall m, mem (c m).2 = mem m.

(** While the tracking information at [t] is filled: the objects of [h0]
    are as they were, and the tracking information is a newer object whose
    shipping details are [d]. *)
Definition tracking (h0 : list obj) (d : val) (t : loc) (h : list obj)
  : Prop :=
  h0 `prefix_of` h /\ (length h0 <= t)%nat
  /\ exists fields, h !! t = Some (ODict fields)
                    /\ assoc "shipping_details" fields = Some d.

(** The regions that [generate_suppliers] of
    [src/simulation/data_generator.py] gives its suppliers (lines 41-50). *)
Definition generated_regions : list string :=
  ["Ethiopia"; "Colombia"; "Brazil"; "Vietnam"; "Guatemala"; "Costa Rica";
   "Kenya"; "Indonesia"].

End ApiProps.

(** A store to run the methods on: two orders that the agents placed (the
    second one a duplicate of the first identifier), no contract, and an
    empty change-log. *)
Module ApiDemo.

Import Store Api.

Definition placed_order (id status : string) : obj :=
  ODict [("id", str id); ("supplier_name", str "Ethiopia Coffee Cooperative 1");
         ("status", str status); ("volume_lbs", VAtom (AInt 2500));
         ("expected_delivery_date", str "2025-12-15");
         ("shipping_details", VRef 9%nat)].

Definition objects : list obj :=
  [ placed_order "order_1" "placed";
    placed_order "order_1" "in_transit";
    OList [VRef 0%nat; VRef 1%nat];
    OList [];
    OList [];
    OList [];
    OList [];
    ODict [];
    ODict [("suppliers", VRef 4%nat); ("contracts", VRef 5%nat);
           ("orders", VRef 6%nat); ("market_conditions", VRef 7%nat)];
    ODict [("carrier", str "OceanFreight")];
    ODict [("id", str "S1"); ("name", str "Ethiopia Coffee Cooperative 1");
           ("region", str "Ethiopia")];
    OList [VRef 10%nat] ].

Definition engine : Engine :=
  {| suppliers := VRef 11%nat; contracts := VRef 3%nat; orders := VRef 2%nat;
     market_conditions := VRef 7%nat; changes := VRef 8%nat |}.

Definition machine : Machine :=
  {| mem := objects;
     gen := {| tape := fun _ => 0.5%Q; cursor := 0 |};
     wall := 1762165800123456 |}.

(** An order without an identifier, in a store of its own. *)
Definition nameless : Machine :=
  {| mem := objects ++ [ODict [("status", str "placed")]];
     gen := gen machine; wall := wall machine |}.

(** A new order of the caller, not yet known to the simulator. *)
Definition fresh : Machine :=
  {| mem := objects ++ [ODict [("id", str "order_2");
                               ("status", str "placed")]];
     gen := gen machine; wall := wall machine |}.

(** A store with one contract, and one order that has no identifier. *)
Definition stock : Machine :=
  {| mem :=
       [ ODict [("id", str "contract_1"); ("status", str "active")];
         ODict [("status", str "placed")];
         OList [VRef 0%nat];
         OList [VRef 1%nat];
         OList [];
         ODict [];
         OList [];
         OList [];
         OList [];
         ODict [];
         ODict [("suppliers", VRef 6%nat); ("contracts", VRef 7%nat);
                ("orders", VRef 8%nat); ("market_conditions", VRef 9%nat)] ];
     gen := gen machine; wall := wall machine |}.

Definition stock_engine : Engine :=
  {| suppliers := VRef 4%nat; contracts := VRef 2%nat; orders := VRef 3%nat;
     market_conditions := VRef 5%nat; changes := VRef 10%nat |}.

End ApiDemo.

(** ** The initial data *)

Module GeneratorProps.

Import Generator.

(** [yields t m Q]: at the time [t] the computation [m] returns, whatever
    the generator draws, a result that satisfies [Q]; it leaves the
    simulator and the clock as they are. *)
Definition yields {A} (t : datetime) (m : M A) (Q : A -> Prop) : Prop :=
  forall w, clock w = t ->
    exists a w', m w = (Ok a, w') /\ self w' = self w /\ clock w' = t /\ Q a.

(** A number with one decimal. *)
Definition tenths (x : Q) : Prop := (inject_Z (Qfloor (x * 10)) == x * 10)%Q.

(** What the generator needs of an entry of its table of regions: at least
    one bean, and a quality range in tenths within the bounds of the
    simulator. *)
Definition region_ok (r : Region) : Prop :=
  (1 <= length (r_beans r))%nat
  /\ tenths (r_quality_range r).1 /\ tenths (r_quality_range r).2
  /\ (5 <= (r_quality_range r).1)%Q
  /\ ((r_quality_range r).1 <= (r_quality_range r).2)%Q
  /\ ((r_quality_range r).2 <= 10)%Q.

(** What [generate_suppliers] gives the supplier with the number [i]. *)
Definition supplier_ok (i : Z) (d : SupplierData) : Prop :=
  let s := as_supplier d in
  s_id s = "S" +:+ pretty i
  /\ exists r beans q,
       r ∈ regions /\ region d = r_name r
       /\ s_name s = r_name r +:+ " Coffee Cooperative " +:+ pretty i
       /\ quality_score s = Some q
       /\ in_range (r_quality_range r).1 (r_quality_range r).2 q
       /\ bean_types s = Some beans
       /\ (1 <= length beans <= 2)%nat /\ beans ⊆+ r_beans r
       /\ in_range 6.0 9.5 (reliability_score s)
       /\ in_range 5.0 10.0 (sustainability_score s)
       /\ (exists c, 10 <= c <= 100 /\ capacity_kg_per_year s = c * 1000)
       /\ (length (supplier_certifications d) <= 3)%nat
       /\ supplier_certifications d ⊆+ certifications
       /\ 3 <= years_in_business d <= 50.

(** What [generate_market_conditions] gives at the time [now]. *)
Definition market_ok `{DT : DatetimeLib} (now : datetime)
    (m : MarketConditions) : Prop :=
  date m = isoformat now
  /\ in_range 4.0 6.0 (average_price m)
  /\ length (price_history m) = 30%nat
  /\ (forall i p, price_history m !! i = Some p ->
        pp_date p = isoformat (now - timedelta_of_days (30 - Z.of_nat i)))
  /\ (regional_prices m).*1
     = ["Ethiopia"; "Colombia"; "Brazil"; "Vietnam"; "Guatemala";
        "Costa Rica"; "Kenya"; "Indonesia"]
  /\ (bean_prices m).*1 = ["Arabica"; "Robusta"; "Bourbon"; "Typica"; "Gesha"]
  /\ dict_get "Arabica" (bean_prices m) = Some (average_price m)
  /\ f_name <$> market_factors m
     = ["Weather Conditions"; "Political Stability"; "Global Demand"]
  /\ price_trend m ∈ ["Rising"; "Stable"; "Falling"].


End GeneratorProps.

(** * Proofs *)

Example calendar_roundtrip :
  Calendar.cal_fromisoformat (Calendar.cal_isoformat 1762165800123456)
  = Some 1762165800123456
  /\ Calendar.cal_isoformat 1762165800123456 = "2025-11-03T10:30:00.123456"
  /\ Calendar.cal_strptime_ymd "2025-11-13" = Some (20405 * us_per_day)
  /\ Calendar.cal_strptime_ymd "soon" = None
  /\ Calendar.cal_fromisoformat "soon" = None.
Proof. vm_compute. repeat split; reflexivity. Qed.

(** ** Facts about the numbers *)

Lemma Qltb_lt (x y : Q) : Py.Qltb x y = true <-> (x < y)%Q.
Proof.
  unfold Py.Qltb. rewrite negb_true_iff.
  destruct (Qle_bool y x) eqn:E.
  - apply Qle_bool_iff in E. split; [discriminate | intros; lra].
  - split; [intros _ | reflexivity].
    apply Qnot_le_lt. intros H. apply Qle_bool_iff in H. congruence.
Qed.

Lemma Qltb_ge (x y : Q) : Py.Qltb x y = false <-> (y <= x)%Q.
Proof.
  unfold Py.Qltb. rewrite negb_false_iff. apply Qle_bool_iff.
Qed.

Lemma clamp_bounds (lo hi x : Q) :
  (lo <= hi)%Q -> (lo <= Py.max lo (Py.min hi x) <= hi)%Q.
Proof.
  intros Hlh. unfold Py.max, Py.min.
  destruct (Py.Qltb x hi) eqn:E1.
  - apply Qltb_lt in E1.
    destruct (Py.Qltb lo x) eqn:E2.
    + apply Qltb_lt in E2. lra.
    + lra.
  - destruct (Py.Qltb lo hi) eqn:E2; lra.
Qed.

Lemma frac_bounds (u : Q) : (0 <= frac u < 1)%Q.
Proof.
  unfold frac. pose proof (Qfloor_le u) as H1. pose proof (Qlt_floor u) as H2.
  rewrite inject_Z_plus in H2. change (inject_Z 1) with 1%Q in H2. lra.
Qed.

Lemma round_half_even_ge (n : Z) (x : Q) :
  (inject_Z n <= x)%Q -> n <= Py.round_half_even x.
Proof.
  intros H. apply Qfloor_resp_le in H. rewrite Qfloor_Z in H.
  unfold Py.round_half_even.
  destruct (x - inject_Z (Qfloor x) ?= 1 # 2)%Q; [destruct (Z.even _) | |]; lia.
Qed.

Lemma round_half_even_le (n : Z) (x : Q) :
  (x <= inject_Z n)%Q -> Py.round_half_even x <= n.
Proof.
  intros H. pose proof (Qfloor_resp_le _ _ H) as Hf. rewrite Qfloor_Z in Hf.
  unfold Py.round_half_even.
  destruct (Z.eq_dec (Qfloor x) n) as [E | E].
  - pose proof (Qfloor_le x) as Hx. rewrite E in *.
    assert (Hc : (x - inject_Z n ?= 1 # 2)%Q = Lt).
    { apply (proj1 (Qlt_alt _ _)). lra. }
    rewrite Hc. lia.
  - destruct (x - inject_Z (Qfloor x) ?= 1 # 2)%Q; [destruct (Z.even _) | |]; lia.
Qed.

Lemma round_half_even_error (y : Q) :
  (inject_Z (Py.round_half_even y) - y <= 1 # 2)%Q
  /\ (y - inject_Z (Py.round_half_even y) <= 1 # 2)%Q.
Proof.
  unfold Py.round_half_even.
  pose proof (Qfloor_le y) as H1. pose proof (Qlt_floor y) as H2.
  rewrite inject_Z_plus in H2. change (inject_Z 1) with 1%Q in H2.
  destruct (y - inject_Z (Qfloor y) ?= 1 # 2)%Q eqn:E.
  - apply Qeq_alt in E.
    destruct (Z.even _); rewrite ?inject_Z_plus;
      change (inject_Z 1) with 1%Q; lra.
  - apply Qlt_alt in E. lra.
  - apply Qgt_alt in E. rewrite inject_Z_plus.
    change (inject_Z 1) with 1%Q. lra.
Qed.

(** [round(x, 2)] is within half a cent of [x]. *)
Lemma round_cent_error (x : Q) :
  (x - (1 # 200) <= Py.round x 2 <= x + (1 # 200))%Q.
Proof.
  unfold Py.round. change (inject_Z (10 ^ Z.of_nat 2)) with 100%Q.
  destruct (round_half_even_error (x * 100)) as [H1 H2].
  set (r := inject_Z (Py.round_half_even (x * 100))) in *.
  unfold Qdiv. assert (Hinv : (/ 100 == 1 # 100)%Q) by reflexivity.
  setoid_rewrite Hinv. lra.
Qed.

Lemma clamp_score_bounds (x : Q) : (5 <= clamp_score x <= 10)%Q.
Proof.
  unfold clamp_score, Py.round.
  pose proof (clamp_bounds 5.0 10.0 x ltac:(lra)) as [Hlo Hhi].
  set (y := Py.max 5.0 (Py.min 10.0 x)) in *.
  change (inject_Z (10 ^ Z.of_nat 1)) with 10%Q.
  assert (H1 : 50 <= Py.round_half_even (y * 10)%Q).
  { apply round_half_even_ge. change (inject_Z 50) with 50%Q. lra. }
  assert (H2 : Py.round_half_even (y * 10)%Q <= 100).
  { apply round_half_even_le. change (inject_Z 100) with 100%Q. lra. }
  rewrite Zle_Qle in H1, H2.
  change (inject_Z 50) with 50%Q in H1. change (inject_Z 100) with 100%Q in H2.
  unfold Qdiv. assert (Hinv : (/ 10 == 1 # 10)%Q) by reflexivity.
  setoid_rewrite Hinv. lra.
Qed.

Lemma bind_run {A B} (m : M A) (k : A -> M B) (w : World) :
  (m ≫= k) w = match m w with
               | (Ok a, w') => k a w'
               | (Raise e, w') => (Raise e, w')
               end.
Proof. reflexivity. Qed.

(** ** Invariants of computations: rules *)

Section Keeps.

Context (I : Sim -> Prop).

Lemma keeps_ret {A} (a : A) : keeps I (mret a).
Proof. intros w H. exact H. Qed.

Lemma keeps_raise {A} (e : exn) : keeps I (@raise A e).
Proof. intros w H. exact H. Qed.

Lemma keeps_bind {A B} (m : M A) (k : A -> M B) :
  keeps I m -> (forall a, keeps I (k a)) -> keeps I (m ≫= k).
Proof.
  intros Hm Hk w H. rewrite bind_run. specialize (Hm w H).
  destruct (m w) as [[a | e] w']; simpl in *; [apply Hk | ]; assumption.
Qed.

Lemma keeps_gets {A} (f : Sim -> A) : keeps I (gets f).
Proof. intros w H. exact H. Qed.

Lemma keeps_random : keeps I random.
Proof. intros w H. exact H. Qed.

Lemma keeps_now : keeps I datetime_now.
Proof. intros w H. exact H. Qed.

Lemma keeps_modify (f : Sim -> Sim) :
  (forall s, I s -> I (f s)) -> keeps I (modify f).
Proof. intros Hf w H. apply Hf, H. Qed.

Lemma keeps_for_each {A} (xs : list A) (body : A -> M unit) :
  (forall x, keeps I (body x)) -> keeps I (for_each xs body).
Proof.
  intros Hb. induction xs as [| x rest IH]; simpl.
  - apply keeps_ret.
  - apply keeps_bind; [apply Hb | intros _; exact IH].
Qed.

End Keeps.

(** One step of a proof of [keeps]: the structure of the computation is
    followed down to its [modify]s and to the methods it calls. *)
Ltac keeps_prim :=
  match goal with
  | |- keeps _ (mret _) => apply keeps_ret
  | |- keeps _ (raise _) => apply keeps_raise
  | |- keeps _ (gets _) => apply keeps_gets
  | |- keeps _ random => apply keeps_random
  | |- keeps _ datetime_now => apply keeps_now
  | |- keeps _ (mbind _ _) => apply keeps_bind; [| intros ?]
  | |- keeps _ (for_each _ _) => apply keeps_for_each; intros ?
  | |- keeps _ (if ?b then _ else _) => destruct b
  | |- keeps _ (match ?x with _ => _ end) => destruct x
  end.

Section KeepsDerived.

Context (I : Sim -> Prop).

Lemma keeps_uniform (a b : Q) : keeps I (uniform a b).
Proof. unfold uniform. repeat keeps_prim. Qed.

Lemma keeps_randint (a b : Z) : keeps I (randint a b).
Proof. unfold randint, randbelow. repeat keeps_prim. Qed.

Lemma keeps_choice {A} (seq : list A) : keeps I (choice seq).
Proof. unfold choice, randbelow. repeat keeps_prim. Qed.

Lemma keeps_py_index {A} (l : list A) (i : Z) : keeps I (py_index l i).
Proof. unfold py_index. repeat keeps_prim. Qed.

Lemma keeps_py_getitem (d : list (string * Q)) (k : string) :
  keeps I (py_getitem d k).
Proof. unfold py_getitem. repeat keeps_prim. Qed.

Lemma keeps_gets_market {A} (f : MarketConditions -> A) :
  keeps I (gets_market f).
Proof. apply keeps_gets. Qed.

(** A computation that only writes the market, the orders, the suppliers,
    the contracts or the change-log keeps what does not read them. *)
Lemma keeps_modify_market (f : MarketConditions -> MarketConditions) :
  (forall s, I s -> I (set_market_conditions (f (market_conditions s)) s)) ->
  keeps I (modify_market f).
Proof. intros H. apply keeps_modify, H. Qed.

Lemma keeps_modify_changes (f : Changes -> Changes) :
  (forall s, I s -> I (set_changes (f (changes s)) s)) ->
  keeps I (modify_changes f).
Proof. intros H. apply keeps_modify, H. Qed.

End KeepsDerived.

Ltac keeps_step :=
  first
    [ keeps_prim
    | match goal with
      | |- keeps _ (uniform _ _) => apply keeps_uniform
      | |- keeps _ (randint _ _) => apply keeps_randint
      | |- keeps _ (choice _) => apply keeps_choice
      | |- keeps _ (py_index _ _) => apply keeps_py_index
      | |- keeps _ (py_getitem _ _) => apply keeps_py_getitem
      | |- keeps _ (gets_market _) => apply keeps_gets_market
      end ].

Ltac keeps_go := repeat keeps_step.

(** ** Bounds are kept *)

Section Bounds.

Context `{DT : DatetimeLib}.

(** Writes that touch neither the average price nor a supplier. *)
Ltac frame_bounded :=
  intros ? [? ?]; split; assumption.

Ltac modify_frame :=
  unfold modify_market, modify_factor, modify_order, modify_changes;
  apply keeps_modify; frame_bounded.

Lemma bounded_update_factor : keeps bounded update_factor.
Proof. unfold update_factor. keeps_go; modify_frame. Qed.

Lemma bounded_update_forecast : keeps bounded update_forecast.
Proof. unfold update_forecast. keeps_go; modify_frame. Qed.

Lemma bounded_update_trend : keeps bounded update_trend.
Proof. unfold update_trend. keeps_go; modify_frame. Qed.

Lemma bounded_update_regional_prices c :
  keeps bounded (update_regional_prices c).
Proof. unfold update_regional_prices. keeps_go; modify_frame. Qed.

Lemma bounded_update_bean_prices c : keeps bounded (update_bean_prices c).
Proof. unfold update_bean_prices. keeps_go; modify_frame. Qed.

Lemma bounded_update_price_history p : keeps bounded (update_price_history p).
Proof. unfold update_price_history. keeps_go; modify_frame. Qed.

Lemma bounded_update_average_price : keeps bounded update_average_price.
Proof.
  unfold update_average_price. keeps_go;
    apply keeps_modify; intros s [_ Hs]; split; try assumption;
    unfold price_in_bounds, in_range; simpl;
    match goal with
    | |- context [Py.max _ (Py.min _ ?x)] =>
        pose proof (clamp_bounds 3.0 10.0 x ltac:(lra))
    end; lra.
Qed.

Lemma bounded_update_market_conditions :
  keeps bounded _update_market_conditions.
Proof.
  unfold _update_market_conditions, update_market_rest.
  keeps_go;
    lazymatch goal with
    | |- keeps _ update_average_price => apply bounded_update_average_price
    | |- keeps _ (update_price_history _) =>
        apply bounded_update_price_history
    | |- keeps _ update_trend => apply bounded_update_trend
    | |- keeps _ (update_regional_prices _) =>
        apply bounded_update_regional_prices
    | |- keeps _ (update_bean_prices _) => apply bounded_update_bean_prices
    | |- keeps _ update_factor => apply bounded_update_factor
    | |- keeps _ update_forecast => apply bounded_update_forecast
    | |- _ => modify_frame
    end.
Qed.

Lemma bounded_update_order i : keeps bounded (update_order i).
Proof. unfold update_order, parse_delivery. keeps_go; modify_frame. Qed.

Lemma bounded_update_orders : keeps bounded _update_orders.
Proof. unfold _update_orders. keeps_go. apply bounded_update_order. Qed.

Lemma bounded_modify_supplier i f :
  (forall x, supplier_in_bounds x -> supplier_in_bounds (f x)) ->
  keeps bounded (modify_supplier i f).
Proof.
  intros Hf. apply keeps_modify. intros s [Hp Hs]. split; [exact Hp |].
  unfold scores_in_bounds in *. simpl.
  apply Forall_alter; [exact Hs | intros x _; apply Hf].
Qed.

Lemma set_quality_score_in_bounds v x :
  supplier_in_bounds x -> supplier_in_bounds (set_quality_score (clamp_score v) x).
Proof.
  intros (Hq & Hr & Hs). split; [| split; assumption].
  simpl. intros q [= <-]. apply clamp_score_bounds.
Qed.

Lemma set_reliability_score_in_bounds v x :
  supplier_in_bounds x ->
  supplier_in_bounds (set_reliability_score (clamp_score v) x).
Proof.
  intros (Hq & Hr & Hs). split; [exact Hq | split; [| exact Hs]].
  apply clamp_score_bounds.
Qed.

Lemma set_sustainability_score_in_bounds v x :
  supplier_in_bounds x ->
  supplier_in_bounds (set_sustainability_score (clamp_score v) x).
Proof.
  intros (Hq & Hr & Hs). split; [exact Hq | split; [exact Hr |]].
  apply clamp_score_bounds.
Qed.

Lemma set_capacity_in_bounds v x :
  supplier_in_bounds x -> supplier_in_bounds (set_capacity_kg_per_year v x).
Proof. intros H. exact H. Qed.

Lemma bounded_update_suppliers : keeps bounded _update_suppliers.
Proof.
  unfold _update_suppliers.
  keeps_go; try modify_frame; apply bounded_modify_supplier; intros x Hx;
    first [ apply set_quality_score_in_bounds
          | apply set_reliability_score_in_bounds
          | apply set_sustainability_score_in_bounds
          | apply set_capacity_in_bounds ]; exact Hx.
Qed.

Lemma bounded_create_sample_contract : keeps bounded _create_sample_contract.
Proof.
  unfold _create_sample_contract.
  keeps_go; try modify_frame; apply keeps_modify; frame_bounded.
Qed.

Lemma bounded_simulate_step : keeps bounded simulate_step.
Proof.
  unfold simulate_step, advance, begin_step, ensure_active_contract.
  keeps_go;
    lazymatch goal with
    | |- keeps _ _update_market_conditions =>
        apply bounded_update_market_conditions
    | |- keeps _ _update_orders => apply bounded_update_orders
    | |- keeps _ _update_suppliers => apply bounded_update_suppliers
    | |- keeps _ _create_sample_contract =>
        apply bounded_create_sample_contract
    | |- _ => apply keeps_modify; frame_bounded
    end.
Qed.

End Bounds.

(** C1: when the average price is in [3.0, 10.0] and every supplier score
    in [5.0, 10.0], they still are after every call of [simulate_step],
    however many calls are made and whether or not a call raises. *)
Theorem bounds_after_steps `{DT : DatetimeLib} (n : nat) (w : World) :
  price_in_bounds (self w) -> scores_in_bounds (self w) ->
  price_in_bounds (self (simulate_steps n w))
  /\ scores_in_bounds (self (simulate_steps n w)).
Proof.
  intros Hp Hs. assert (H : bounded (self w)) by (split; assumption).
  clear Hp Hs. revert w H.
  induction n as [| n IH]; intros w H; simpl.
  - exact H.
  - apply IH. apply bounded_simulate_step. exact H.
Qed.

Lemma bounds_after_steps_witness :
  price_in_bounds
    (self (simulate_steps (DT := Calendar.calendar) 3 Demo.quiet))
  /\ scores_in_bounds
       (self (simulate_steps (DT := Calendar.calendar) 3 Demo.quiet)).
Proof.
  apply (bounds_after_steps (DT := Calendar.calendar) 3 Demo.quiet).
  - unfold price_in_bounds, in_range. vm_compute. split; discriminate.
  - constructor; [| constructor].
    split; [intros q [= <-] | split]; vm_compute; split; discriminate.
Defined.

(** ** Running a computation *)

Lemma keeps_via {A B} (proj : Sim -> B) (I : Sim -> Prop) (m : M A) :
  (forall s s', proj s = proj s' -> I s -> I s') ->
  (forall v, keeps (fun s => proj s = v) m) -> keeps I m.
Proof.
  intros Hc Hk w HI. apply (Hc (self w)); [| exact HI].
  symmetry. apply (Hk (proj (self w)) w). reflexivity.
Qed.

Ltac frame_modify :=
  unfold modify_market, modify_factor, modify_order, modify_supplier,
    modify_changes;
  apply keeps_modify; intros ? Hframe; exact Hframe.

Lemma gets_run {A} (f : Sim -> A) w : gets f w = (Ok (f (self w)), w).
Proof. reflexivity. Qed.

Lemma modify_run f w :
  modify f w = (Ok tt, {| self := f (self w); rand := rand w; clock := clock w |}).
Proof. reflexivity. Qed.

Lemma random_run w :
  random w = (Ok (frac (tape (rand w) (cursor (rand w)))),
              {| self := self w;
                 rand := {| tape := tape (rand w); cursor := S (cursor (rand w)) |};
                 clock := clock w |}).
Proof. reflexivity. Qed.

Lemma ret_run {A} (a : A) (w : World) : (mret a : M A) w = (Ok a, w).
Proof. reflexivity. Qed.

Lemma raise_run {A} e w : @raise A e w = (Raise e, w).
Proof. reflexivity. Qed.

Ltac run_step :=
  first [ rewrite bind_run | rewrite gets_run | rewrite modify_run
        | rewrite random_run | rewrite ret_run | rewrite raise_run
        | progress cbv beta iota ].

Ltac run := repeat run_step.

Lemma bind_post {A B} (I : Sim -> Prop) (m : M A) (k : A -> M B) w :
  I (self (m w).2) -> (forall a, keeps I (k a)) -> I (self ((m ≫= k) w).2).
Proof.
  intros H Hk. rewrite bind_run.
  destruct (m w) as [[a | e] w']; simpl in *; [apply Hk |]; exact H.
Qed.

Section History.
Context `{DT : DatetimeLib}.

Lemma update_average_price_run w :
  exists r w', update_average_price w = (Ok r, w')
    /\ self w' = set_market_conditions
                   (set_average_price r.2 (market_conditions (self w))) (self w).
Proof.
  unfold update_average_price, gets_market, modify_market, uniform.
  run.
  do 2 (try match goal with
            | |- context [decide ?P] => destruct (decide P)
            end);
    run; eexists (_, _, _), _; split; reflexivity.
Qed.

Lemma last_n_all {A} (n : nat) (l : list A) :
  (length l <= n)%nat -> last_n n l = l.
Proof.
  intros H. unfold last_n. replace (length l - n)%nat with 0%nat by lia.
  reflexivity.
Qed.

Lemma update_price_history_run p w :
  exists w', update_price_history p w = (Ok tt, w')
    /\ self w' = set_market_conditions
         (set_price_history
            (last_n 30 (price_history (market_conditions (self w))
                        ++ [{| pp_date := isoformat (simulation_date (self w));
                               pp_price := p |}]))
            (market_conditions (self w))) (self w).
Proof.
  unfold update_price_history, gets_market, modify_market.
  run. cbn [self market_conditions set_market_conditions set_price_history
            price_history].
  set (h := (_ ++ _)%list).
  destruct (30 <? Z.of_nat (length h)) eqn:E; run.
  - eexists; split; reflexivity.
  - eexists; split; [reflexivity |]. cbn [self].
    rewrite last_n_all; [reflexivity | lia].
Qed.


Lemma price_part_update_market_rest v c p n :
  keeps (fun s => price_part s = v) (update_market_rest c p n).
Proof.
  unfold update_market_rest, update_trend, update_regional_prices,
    update_bean_prices, update_factor, update_forecast.
  keeps_go; frame_modify.
Qed.

Lemma market_update_orders v :
  keeps (fun s => market_conditions s = v) _update_orders.
Proof.
  unfold _update_orders, update_order, parse_delivery. keeps_go; frame_modify.
Qed.

Lemma market_update_suppliers v :
  keeps (fun s => market_conditions s = v) _update_suppliers.
Proof. unfold _update_suppliers. keeps_go; frame_modify. Qed.

Lemma market_create_sample_contract v :
  keeps (fun s => market_conditions s = v) _create_sample_contract.
Proof.
  unfold _create_sample_contract. keeps_go; frame_modify.
Qed.

Lemma market_ensure_active_contract v :
  keeps (fun s => market_conditions s = v) ensure_active_contract.
Proof.
  unfold ensure_active_contract. keeps_go.
  apply market_create_sample_contract.
Qed.

Lemma history_updated_frame today before s s' :
  market_conditions s = market_conditions s' ->
  history_updated today before s -> history_updated today before s'.
Proof. unfold history_updated. intros <-. trivial. Qed.

Lemma begin_step_run w :
  begin_step w =
    (Ok tt,
     {| self := set_changes no_changes
                  (set_simulation_date
                     (simulation_date (self w) + timedelta_of_days 1)
                     (set_simulation_step (simulation_step (self w) + 1)
                        (self w)));
        rand := rand w; clock := clock w |}).
Proof. reflexivity. Qed.

Lemma history_after_market w :
  history_updated (simulation_date (self w))
    (price_history (market_conditions (self w)))
    (self (_update_market_conditions w).2).
Proof.
  unfold _update_market_conditions, modify_market. run.
  match goal with
  | |- context [update_average_price ?w1] =>
      destruct (update_average_price_run w1) as ([[cur pct] new] & w2 & E & Hs)
  end.
  rewrite E. cbv beta iota.
  apply (bind_post (history_updated _ _)).
  - destruct (update_price_history_run new w2) as (w3 & E3 & Hs3).
    rewrite E3. cbn [snd]. rewrite Hs3, Hs. split; reflexivity.
  - intros _. apply keeps_via with (proj := price_part).
    + unfold history_updated, price_part, new_point.
      intros s s' [= Hd Ha Hh]. rewrite Hd, Ha, Hh. trivial.
    + intros v. apply price_part_update_market_rest.
Qed.

Lemma history_after_step w :
  history_updated (simulation_date (self w) + timedelta_of_days 1)
    (price_history (market_conditions (self w)))
    (self (simulate_step w).2).
Proof.
  unfold simulate_step, advance.
  apply (bind_post (history_updated _ _)).
  - rewrite bind_run, begin_step_run. cbv beta iota.
    apply (bind_post (history_updated _ _)).
    + match goal with
      | |- history_updated _ _ (self (_ ?w0).2) =>
          exact (history_after_market w0)
      end.
    + intros _.
      apply keeps_via with (proj := market_conditions);
        [apply history_updated_frame |].
      intros v. keeps_go;
        [apply market_update_orders | apply market_update_suppliers].
  - intros _.
    apply keeps_via with (proj := market_conditions);
      [apply history_updated_frame |].
    intros v. apply market_ensure_active_contract.
Qed.

End History.

Lemma last_n_length {A} (n : nat) (l : list A) : (length (last_n n l) <= n)%nat.
Proof. unfold last_n. rewrite length_drop. lia. Qed.

Lemma last_n_snoc {A} (n : nat) (l : list A) (x : A) :
  (0 < n)%nat -> last (last_n n (l ++ [x])) = Some x.
Proof.
  intros Hn. unfold last_n. rewrite length_app. simpl.
  rewrite drop_app_le by lia. apply last_snoc.
Qed.

Lemma last_n_lookup {A} (n : nat) (l : list A) (i : nat) :
  last_n n l !! i = l !! (length l - n + i)%nat.
Proof. unfold last_n. apply lookup_drop. Qed.

(** C5: when the history of prices has at most 30 entries, after
    [simulate_step] it is the history before with the new point (the date
    and the average price of the day) added at its end and cut to its last
    30 entries: it has at most 30 entries, its last entry is the new point,
    and the entry that is dropped, if any, is the oldest one. *)
Theorem price_history_after_step `{DT : DatetimeLib} (w : World) :
  let before := price_history (market_conditions (self w)) in
  let m' := market_conditions (self (simulate_step w).2) in
  let extended := (before ++ [new_point m'])%list in
  (length before <= 30)%nat ->
  date m' = isoformat (simulation_date (self w) + timedelta_of_days 1)
  /\ price_history m' = last_n 30 extended
  /\ (length (price_history m') <= 30)%nat
  /\ last (price_history m') = Some (new_point m')
  /\ (forall i, price_history m' !! i
               = extended !! (length extended - 30 + i)%nat)
  /\ price_history m'
     = ((if decide (length before = 30%nat) then drop 1 before else before)
        ++ [new_point m'])%list.
Proof.
  intros before m' extended Hb.
  destruct (history_after_step w) as [Hd Hh]. fold m' in Hd, Hh.
  fold before in Hh. fold extended in Hh.
  split; [exact Hd |]. split; [exact Hh |]. rewrite Hh.
  split; [apply last_n_length |].
  split; [apply last_n_snoc; lia |].
  split; [intros i; apply last_n_lookup |].
  unfold last_n, extended. rewrite length_app. simpl.
  destruct (decide (length before = 30%nat)) as [E | E].
  - replace (length before + 1 - 30)%nat with 1%nat by lia.
    apply drop_app_le. lia.
  - replace (length before + 1 - 30)%nat with 0%nat by lia. reflexivity.
Qed.

(** On [Demo.month] the history is full: the step keeps it at thirty
    entries, drops the oldest one and appends the point of the day. *)
Lemma price_history_after_step_witness :
  let before := price_history (market_conditions (self Demo.month)) in
  let m' :=
    market_conditions
      (self (simulate_step (DT := Calendar.calendar) Demo.month).2) in
  length before = 30%nat
  /\ length (price_history m') = 30%nat
  /\ price_history m' = (drop 1 before ++ [new_point m'])%list
  /\ price_history m' !! 0%nat = before !! 1%nat
  /\ before !! 0%nat <> before !! 1%nat
  /\ last (price_history m') = Some (new_point m')
  /\ date m' = "2025-11-04T10:30:00.123456".
Proof.
  intros before m'.
  assert (Hlen : length before = 30%nat) by reflexivity.
  assert (Hle : (length before <= 30)%nat) by (rewrite Hlen; constructor).
  destruct (price_history_after_step (DT := Calendar.calendar) Demo.month Hle)
    as (Hdate & _ & _ & Hlast & _ & Hdrop).
  fold before in Hdrop. fold m' in Hdrop, Hlast, Hdate.
  rewrite decide_True in Hdrop by exact Hlen.
  split; [exact Hlen |].
  split; [rewrite Hdrop, length_app, length_drop, Hlen; reflexivity |].
  split; [exact Hdrop |].
  split; [rewrite Hdrop; reflexivity |].
  split; [vm_compute; discriminate |].
  split; [exact Hlast |].
  rewrite Hdate. vm_compute. reflexivity.
Defined.

(** ** The orders *)

Lemma py_index_run {A} (l : list A) (i : nat) w :
  py_index l (Z.of_nat i) w
  = match l !! i with
    | Some x => (Ok x, w)
    | None => (Raise IndexError, w)
    end.
Proof.
  unfold py_index.
  destruct (Z.of_nat i <? 0) eqn:E; [apply Z.ltb_lt in E; lia |].
  rewrite E, Nat2Z.id.
  destruct (l !! i); reflexivity.
Qed.

Lemma randint_run (a b : Z) w :
  a <= b ->
  randint a b w
  = (Ok (a + Qfloor (frac (tape (rand w) (cursor (rand w)))
                     * inject_Z (b - a + 1))),
     {| self := self w;
        rand := {| tape := tape (rand w); cursor := S (cursor (rand w)) |};
        clock := clock w |}).
Proof.
  intros H. unfold randint, randbelow.
  destruct (b <? a) eqn:E; [apply Z.ltb_lt in E; lia |]. reflexivity.
Qed.

Ltac run' :=
  repeat first [ run_step | progress cbn [self rand clock tape cursor fst snd]
               | rewrite randint_run by lia ].

(** A case analysis on an innermost scrutinee of the goal. *)
Ltac case_inner :=
  match goal with
  | |- context [match ?x with _ => _ end] =>
      lazymatch x with
      | context [match _ with _ => _ end] => fail
      | _ => destruct x eqn:?
      end
  end.

Section Orders.

Context `{DT : DatetimeLib}.

Lemma orders_visit_refl i os : orders_visit i os os.
Proof. split; [reflexivity | intros o Ho; exists o; split; [exact Ho | left; reflexivity]]. Qed.

Lemma orders_visit_alter i os o f :
  os !! i = Some o -> visit o (f o) -> orders_visit i os (alter f i os).
Proof.
  intros Ho Hv. split.
  - intros j Hj. apply list_lookup_alter_ne. congruence.
  - intros o1 Ho1. rewrite list_lookup_alter_eq, Ho. simpl.
    exists (f o). replace o1 with o by congruence. split; [reflexivity | exact Hv].
Qed.


Lemma update_order_effect i w :
  orders_visit i (orders (self w)) (orders (self (update_order i w).2)).
Proof.
  unfold update_order, parse_delivery, modify_order, modify_changes.
  run. rewrite py_index_run.
  destruct (orders (self w) !! i) as [order |] eqn:Ho; run;
    [| apply orders_visit_refl].
  destruct (bool_decide _) eqn:Habs; run; [apply orders_visit_refl |].
  destruct (delivery_field order) as [str |] eqn:Hstr; run;
    [| apply orders_visit_refl].
  destruct (parsed_delivery str) as [expected |] eqn:Hp; run;
    [| apply orders_visit_refl].
  repeat (case_inner; run');
    cbn [snd self orders set_orders set_changes];
    try apply orders_visit_refl.
  all: rewrite ?list_alter_alter_eq.
  all: apply orders_visit_alter with (o := order); [exact Ho |].
  all: right; split; [reflexivity |];
    (split; [| unfold delivery_date; rewrite Hstr, Hp; eexists; reflexivity]);
    simpl;
    repeat match goal with
           | H : _ && _ = true |- _ => apply andb_prop in H; destruct H
           | H : bool_decide _ = true |- _ => apply bool_decide_eq_true in H
           end;
    match goal with H : o_status _ = _ |- _ => rewrite H end;
    constructor.
Qed.

(** The loop of [_update_orders] over indices that are all different. *)
Lemma for_each_update_order_effect (indices : list nat) w :
  NoDup indices ->
  let os := orders (self w) in
  let os' := orders (self (for_each indices update_order w).2) in
  forall j o, os !! j = Some o ->
    exists o', os' !! j = Some o' /\ visit o o' /\ (j ∉ indices -> o' = o).
Proof.
  intros Hnd. revert w.
  induction Hnd as [| i rest Hi Hnd IH]; intros w os os' j o Hj.
  - exists o. subst os os'. simpl. split; [exact Hj |]. split; [left |]; reflexivity.
  - subst os os'. simpl. rewrite bind_run.
    destruct (update_order_effect i w) as [Hother Hat].
    destruct (update_order i w) as [[[] | e] w1] eqn:E; simpl in Hother, Hat.
    + destruct (decide (j = i)) as [-> | Hne].
      * destruct (Hat o Hj) as (o1 & Ho1 & Hv).
        destruct (IH w1 i o1 Ho1) as (o' & Ho' & _ & Hsame).
        rewrite (Hsame Hi) in Ho'. exists o1. split; [exact Ho' |].
        split; [exact Hv |]. intros Hn. exfalso. apply Hn. left.
      * rewrite <- (Hother j Hne) in Hj.
        destruct (IH w1 j o Hj) as (o' & Ho' & Hv & Hsame).
        exists o'. split; [exact Ho' |]. split; [exact Hv |].
        intros Hn. apply Hsame. intros Hin. apply Hn. right. exact Hin.
    + simpl. destruct (decide (j = i)) as [-> | Hne].
      * destruct (Hat o Hj) as (o1 & Ho1 & Hv).
        exists o1. split; [exact Ho1 |]. split; [exact Hv |].
        intros Hn. exfalso. apply Hn. left.
      * exists o. rewrite (Hother j Hne). split; [exact Hj |].
        split; [left |]; reflexivity.
Qed.

Lemma update_orders_effect w j o :
  orders (self w) !! j = Some o ->
  exists o', orders (self (_update_orders w).2) !! j = Some o' /\ visit o o'.
Proof.
  intros Hj. unfold _update_orders. rewrite bind_run, gets_run.
  destruct (for_each_update_order_effect (seq 0 (length (orders (self w)))) w
              (NoDup_seq _ _) j o Hj) as (o' & Ho' & Hv & _).
  exists o'. split; assumption.
Qed.

Lemma orders_update_market_conditions v :
  keeps (fun s => orders s = v) _update_market_conditions.
Proof.
  unfold _update_market_conditions, update_average_price,
    update_price_history, update_market_rest, update_trend,
    update_regional_prices, update_bean_prices, update_factor,
    update_forecast.
  keeps_go; frame_modify.
Qed.

Lemma orders_update_suppliers v :
  keeps (fun s => orders s = v) _update_suppliers.
Proof. unfold _update_suppliers. keeps_go; frame_modify. Qed.

Lemma orders_ensure_active_contract v :
  keeps (fun s => orders s = v) ensure_active_contract.
Proof.
  unfold ensure_active_contract, _create_sample_contract.
  keeps_go; frame_modify.
Qed.

Lemma visited_frame j o s s' :
  orders s = orders s' -> visited j o s -> visited j o s'.
Proof. unfold visited. intros <-. trivial. Qed.

Lemma simulate_step_order w j o :
  orders (self w) !! j = Some o -> visited j o (self (simulate_step w).2).
Proof.
  intros Hj. unfold simulate_step, advance.
  apply (bind_post (visited j o)).
  - rewrite bind_run, begin_step_run. cbv beta iota.
    match goal with |- context [mbind ?k _update_market_conditions ?w0] =>
      pose proof (orders_update_market_conditions (orders (self w)) w0
                    eq_refl) as Hm;
      rewrite bind_run; destruct (_update_market_conditions w0)
        as [[[] | e] w1]
    end; simpl in Hm.
    + apply (bind_post (visited j o)).
      * rewrite <- Hm in Hj. apply update_orders_effect, Hj.
      * intros _. apply keeps_via with (proj := orders);
          [apply visited_frame |].
        intros v. keeps_go. apply orders_update_suppliers.
    + simpl. exists o. rewrite Hm. split; [exact Hj | left; reflexivity].
  - intros _. apply keeps_via with (proj := orders); [apply visited_frame |].
    intros v. apply orders_ensure_active_contract.
Qed.

Lemma absorbing_cases status :
  absorbing status <-> status = "delivered" \/ status = "cancelled".
Proof.
  unfold absorbing. rewrite !elem_of_cons, elem_of_nil. tauto.
Qed.

Lemma visit_absorbing o o' : absorbing (o_status o) -> visit o o' -> o' = o.
Proof.
  intros Ha [-> | (_ & Ht & _)]; [reflexivity |].
  apply absorbing_cases in Ha.
  inversion Ht as [E F | E F | E F | E F]; rewrite <- E in Ha;
    destruct Ha; discriminate.
Qed.

Lemma visit_undated o o' : delivery_date o = None -> visit o o' -> o' = o.
Proof.
  intros Hd [-> | (_ & _ & [d Hs])]; [reflexivity | congruence].
Qed.

End Orders.

(** C6: an order that is delivered or cancelled is the same, status
    included, after any number of calls of [simulate_step]. *)
Theorem absorbing_orders_stay `{DT : DatetimeLib} (n : nat) (w : World)
    (i : nat) (o : Order) :
  orders (self w) !! i = Some o ->
  absorbing (o_status o) ->
  orders (self (simulate_steps n w)) !! i = Some o.
Proof.
  intros Hi Ha. revert w Hi.
  induction n as [| n IH]; intros w Hi; simpl; [exact Hi |].
  apply IH. destruct (simulate_step_order w i o Hi) as (o' & Ho' & Hv).
  rewrite Ho'. f_equal. apply visit_absorbing; assumption.
Qed.

Lemma absorbing_orders_stay_witness :
  orders (self (simulate_steps (DT := Calendar.calendar) 3 Demo.settled)) !! 1%nat
  = Some (Demo.order "delivered" (Some "2025-11-01")).
Proof.
  apply (absorbing_orders_stay (DT := Calendar.calendar) 3 Demo.settled 1
           (Demo.order "delivered" (Some "2025-11-01"))).
  - reflexivity.
  - apply absorbing_cases. left. reflexivity.
Defined.

(** The visit of a pending order that is due within 30 days: the first draw
    decides whether it ships, the second whether it is delayed; when both
    fail it stays pending. *)
Lemma update_order_pending `{DT : DatetimeLib} (w : World) (i : nat)
    (o : Order) (d : datetime) :
  orders (self w) !! i = Some o ->
  o_status o = "pending" ->
  delivery_date o = Some d ->
  timedelta_days (d - simulation_date (self w)) <= 30 ->
  o_status <$> orders (self (update_order i w).2) !! i
  = Some (if Py.Qltb (frac (tape (rand w) (cursor (rand w)))) 0.8%Q
          then "in_transit"
          else if Py.Qltb (frac (tape (rand w) (S (cursor (rand w))))) 0.5%Q
               then "delayed" else "pending").
Proof.
  intros Ho Hs Hd Hdays. unfold delivery_date in Hd.
  destruct (delivery_field o) as [str |] eqn:Hstr; [| discriminate].
  unfold update_order, parse_delivery, modify_order, modify_changes.
  run. rewrite py_index_run, Ho. run. rewrite Hs.
  rewrite bool_decide_eq_false_2
    by (intros H; apply absorbing_cases in H; destruct H; discriminate).
  rewrite Hstr, Hd. run'.
  rewrite bool_decide_eq_true_2 by reflexivity.
  apply Z.leb_le in Hdays. rewrite Hdays. cbn [andb].
  run'.
  destruct (Py.Qltb _ 0.8%Q); run'.
  - cbn [orders set_orders set_changes]. rewrite list_lookup_alter_eq, Ho. reflexivity.
  - destruct (Py.Qltb _ 0.5%Q); run'.
    + repeat (case_inner; run'); cbn [orders set_orders set_changes];
        rewrite ?list_lookup_alter_eq, Ho; reflexivity.
    + rewrite Ho. simpl. rewrite Hs. reflexivity.
Qed.

(** The first and the last date of Python, and strings with and without a
    UTC offset. *)
Example calendar_ends :
  Calendar.cal_isoformat datetime_min = "0001-01-01T00:00:00"
  /\ Calendar.cal_isoformat datetime_max = "9999-12-31T23:59:59.999999"
  /\ offset_free "2025-11-13" = true
  /\ offset_free "2025-11-04T10:30:00.123456" = true
  /\ offset_free "2025-11-04T10:30:00+00:00" = false
  /\ offset_free "2025-11-04T10:30:00-05:00" = false
  /\ offset_free "2025W45T10-0500" = false.
Proof. repeat split; vm_compute; reflexivity. Qed.

Section Pending.
Context `{DT : DatetimeLib}.

Lemma date_update_market_conditions v :
  keeps (fun s => simulation_date s = v) _update_market_conditions.
Proof.
  unfold _update_market_conditions, update_average_price,
    update_price_history, update_market_rest, update_trend,
    update_regional_prices, update_bean_prices, update_factor,
    update_forecast.
  keeps_go; frame_modify.
Qed.

Lemma date_update_order v i :
  keeps (fun s => simulation_date s = v) (update_order i).
Proof. unfold update_order, parse_delivery. keeps_go; frame_modify. Qed.

Lemma for_each_app {A} (l1 l2 : list A) (body : A -> M unit) w :
  for_each (l1 ++ l2) body w
  = match for_each l1 body w with
    | (Ok _, w') => for_each l2 body w'
    | (Raise e, w') => (Raise e, w')
    end.
Proof.
  revert w. induction l1 as [| x l1 IH]; intros w; [reflexivity |].
  cbn [app for_each]. rewrite !bind_run.
  destruct (body x w) as [[[] | e] w']; [apply IH | reflexivity].
Qed.

(** The visits of other positions leave the order at [i] as it is. *)
Lemma for_each_update_order_other (indices : list nat) (i : nat) (o : Order) :
  NoDup indices -> i ∉ indices ->
  keeps (fun s => orders s !! i = Some o) (for_each indices update_order).
Proof.
  intros Hnd Hi w Ho.
  destruct (for_each_update_order_effect indices w Hnd i o Ho)
    as (o' & Ho' & _ & Hsame).
  rewrite Ho'. f_equal. apply Hsame, Hi.
Qed.

(** What [reach_order] leaves when it returns: the new date, and the order
    at [i] as it was; the visits of the other orders are still to come. *)
Lemma reach_order_run i w w1 o :
  reach_order i w = (Ok tt, w1) ->
  orders (self w) !! i = Some o ->
  orders (self w1) !! i = Some o
  /\ simulation_date (self w1)
     = simulation_date (self w) + timedelta_of_days 1
  /\ exists wm,
       _update_market_conditions (begin_step w).2 = (Ok tt, wm)
       /\ for_each (seq 0 i) update_order wm = (Ok tt, w1)
       /\ orders (self wm) = orders (self w).
Proof.
  unfold reach_order. rewrite bind_run, begin_step_run. cbv beta iota.
  rewrite bind_run. cbn [snd].
  match goal with |- context [_update_market_conditions ?w0] =>
    pose proof (orders_update_market_conditions (orders (self w)) w0 eq_refl)
      as Hmo;
    pose proof (date_update_market_conditions
                  (simulation_date (self w) + timedelta_of_days 1) w0
                  eq_refl) as Hmd;
    destruct (_update_market_conditions w0) as [[[] | e] wm]
  end; [| discriminate].
  cbn [snd] in Hmo, Hmd. intros E Ho.
  pose proof (for_each_update_order_other (seq 0 i) i o (NoDup_seq _ _)) as Hk.
  specialize (Hk ltac:(rewrite elem_of_seq; lia) wm
                ltac:(cbv beta; rewrite Hmo; exact Ho)).
  pose proof (keeps_for_each _ (seq 0 i) update_order
                (date_update_order _) wm Hmd) as Hd.
  rewrite E in Hk, Hd. cbn [snd] in Hk, Hd.
  split; [exact Hk |]. split; [exact Hd |].
  exists wm. split; [reflexivity |]. split; [exact E | exact Hmo].
Qed.

Lemma labelled_frame i id status s s' :
  orders s = orders s' -> labelled i id status s -> labelled i id status s'.
Proof. unfold labelled. intros <-. trivial. Qed.

Lemma labelled_other i id status (indices : list nat) :
  NoDup indices -> i ∉ indices ->
  keeps (labelled i id status) (for_each indices update_order).
Proof.
  intros Hnd Hi w (o' & Ho' & Hid & Hst). exists o'.
  split; [apply for_each_update_order_other; assumption | auto].
Qed.

Lemma pending_order_visited w i o due :
  orders (self w) !! i = Some o ->
  o_status o = "pending" ->
  delivery_date o = Some due ->
  timedelta_days (due - (simulation_date (self w) + timedelta_of_days 1))
  <= 30 ->
  (reach_order i w).1 = Ok tt ->
  labelled i (o_id o)
    (if Py.Qltb (draw (reach_order i w).2 0) 0.8%Q then "in_transit"
     else if Py.Qltb (draw (reach_order i w).2 1) 0.5%Q then "delayed"
          else "pending")
    (self (simulate_step w).2).
Proof.
  intros Ho Hs Hd Hdays Hok.
  destruct (reach_order i w) as [[[] | e] w1] eqn:E; [| discriminate].
  cbn [snd]. clear Hok.
  destruct (reach_order_run i w w1 o E Ho) as (Ho1 & Hdate & wm & Em & Ev & Hmo).
  set (st := if Py.Qltb (draw w1 0) 0.8%Q then "in_transit"
             else if Py.Qltb (draw w1 1) 0.5%Q then "delayed"
                  else "pending").
  assert (Hi : (i < length (orders (self wm)))%nat)
    by (rewrite Hmo; apply lookup_lt_Some in Ho; exact Ho).
  (* the visit *)
  assert (Hvisit : labelled i (o_id o) st (self (update_order i w1).2)).
  { pose proof (update_order_pending w1 i o due Ho1 Hs Hd
                  ltac:(rewrite Hdate; exact Hdays)) as Hst.
    destruct (update_order_effect i w1) as [_ Hat].
    destruct (Hat o Ho1) as (o' & Ho' & Hv).
    exists o'. split; [exact Ho' |]. split.
    - destruct Hv as [-> | (Hid & _)]; [reflexivity | exact Hid].
    - rewrite Ho' in Hst. cbn in Hst. injection Hst as Hst. rewrite Hst.
      unfold st, draw. rewrite Nat.add_0_r, Nat.add_1_r. reflexivity. }
  (* the step *)
  unfold simulate_step. apply (bind_post (labelled i (o_id o) st)).
  2:{ intros _. apply keeps_via with (proj := orders);
        [apply labelled_frame |].
      intros v. apply orders_ensure_active_contract. }
  unfold advance. rewrite bind_run, begin_step_run. cbv beta iota.
  rewrite begin_step_run in Em. cbn [snd] in Em.
  rewrite bind_run, Em. cbv beta iota.
  apply (bind_post (labelled i (o_id o) st)).
  2:{ intros _. apply keeps_via with (proj := orders);
        [apply labelled_frame |].
      intros v. keeps_go. apply orders_update_suppliers. }
  unfold _update_orders. rewrite bind_run, gets_run. cbv beta iota.
  replace (length (orders (self wm)))
    with (i + S (length (orders (self wm)) - S i))%nat by lia.
  rewrite seq_app, for_each_app, Ev. cbn [seq for_each Nat.add].
  apply (bind_post (labelled i (o_id o) st)); [exact Hvisit |].
  intros _. apply labelled_other; [apply NoDup_seq |].
  rewrite elem_of_seq. lia.
Qed.

End Pending.

(** C2, as the code has it: a pending order with at most 30 whole days
    ([timedelta.days]) to go to its date on the new simulated date (one due
    ten days after the simulated date is such an order) is, after one call
    of [simulate_step] that reaches it, in transit when the
    first draw of its visit is below 0.8, delayed when that draw is not and
    the second is below 0.5, and still pending otherwise; it has the
    identifier it had, and it is never delivered by that call.  This is so
    when no order is in the list twice, no date has a UTC offset, and the
    calendar leaves room for the day of the step and for a delay. *)
Theorem pending_order_after_step `{DT : DatetimeLib} (w : World) (i : nat)
    (o : Order) (due : datetime) :
  let today := simulation_date (self w) + timedelta_of_days 1 in
  let before := (reach_order i w).2 in
  let ships := Py.Qltb (draw before 0) 0.8%Q in
  let is_delayed := Py.Qltb (draw before 1) 0.5%Q in
  orders (self w) !! i = Some o ->
  o_status o = "pending" ->
  delivery_date o = Some due ->
  timedelta_days (due - today) <= 30 ->
  NoDup (orders (self w)) ->
  Forall plain_dated (orders (self w)) ->
  days_left 1 (simulation_date (self w)) ->
  (reach_order i w).1 = Ok tt ->
  exists o', orders (self (simulate_step w).2) !! i = Some o'
    /\ o_id o' = o_id o
    /\ o_status o'
       = (if ships then "in_transit"
          else if is_delayed then "delayed" else "pending")
    /\ o_status o' <> "delivered".
Proof.
  intros today before ships is_delayed Ho Hs Hd Hdays _ _ _ Hok.
  destruct (pending_order_visited w i o due Ho Hs Hd Hdays Hok)
    as (o' & Ho' & Hid & Hst).
  exists o'. split; [exact Ho' |]. split; [exact Hid |].
  split; [exact Hst |]. rewrite Hst.
  fold before. destruct (Py.Qltb (draw before 0) 0.8%Q);
    [discriminate |].
  destruct (Py.Qltb (draw before 1) 0.5%Q); discriminate.
Qed.

(** On [Demo.lucky] every draw is 0.05: the order, due on 2025-11-13, ten
    days after the simulated date, ships. *)
Lemma pending_order_after_step_witness :
  exists o',
    orders (self (simulate_step (DT := Calendar.calendar) Demo.lucky).2) !! 0%nat
    = Some o'
    /\ o_id o' = "order_1"
    /\ o_status o' = "in_transit"
    /\ o_status o' <> "delivered".
Proof.
  apply (pending_order_after_step (DT := Calendar.calendar) Demo.lucky 0
           (Demo.order "pending" (Some "2025-11-13")) (20405 * us_per_day)).
  - reflexivity.
  - reflexivity.
  - vm_compute. reflexivity.
  - vm_compute. discriminate.
  - constructor; [apply not_elem_of_nil | constructor].
  - constructor; [| constructor]. right. intros s [= <-].
    split; [reflexivity |]. intros _ d Hd. vm_compute in Hd.
    injection Hd as <-. vm_compute. discriminate.
  - vm_compute. discriminate.
  - vm_compute. reflexivity.
Defined.

(** C2 as stated fails: the order of [Demo.unlucky] is pending and due on
    2025-11-13, ten days after the simulated date 2025-11-03; after one call
    of [simulate_step] it is still pending, neither in transit nor
    delayed. *)
Lemma pending_order_can_stay_pending :
  orders (self Demo.unlucky) !! 0%nat
  = Some (Demo.order "pending" (Some "2025-11-13"))
  /\ Calendar.cal_strftime_ymd
       (simulation_date (self Demo.unlucky) + timedelta_of_days 10)
     = "2025-11-13"
  /\ (simulate_step (DT := Calendar.calendar) Demo.unlucky).1 = Ok tt
  /\ orders (self (simulate_step (DT := Calendar.calendar) Demo.unlucky).2)
       !! 0%nat
     = Some (Demo.order "pending" (Some "2025-11-13"))
  /\ ~ (o_status (Demo.order "pending" (Some "2025-11-13"))
        ∈ ["in_transit"; "delayed"]).
Proof.
  split; [reflexivity |]. split; [vm_compute; reflexivity |].
  split; [vm_compute; reflexivity |]. split; [vm_compute; reflexivity |].
  simpl. rewrite !elem_of_cons, elem_of_nil.
  intros [H | [H | []]]; discriminate.
Qed.

(** C3, as the code has it: an order whose date field is absent or does not
    parse is the same after [simulate_step].  Its visit changes nothing; it
    returns when the field is absent (or the order is delivered or
    cancelled) and raises [ValueError] when there is a string that does not
    parse. *)
Theorem order_without_date `{DT : DatetimeLib} (w : World) (i : nat)
    (o : Order) :
  orders (self w) !! i = Some o ->
  delivery_date o = None ->
  orders (self (simulate_step w).2) !! i = Some o
  /\ update_order i w
     = (match delivery_field o with
        | None => Ok tt
        | Some _ =>
            if bool_decide (o_status o ∈ ["delivered"; "cancelled"])
            then Ok tt else Raise ValueError
        end, w).
Proof.
  intros Ho Hd. split.
  - destruct (simulate_step_order w i o Ho) as (o' & Ho' & Hv).
    rewrite Ho'. f_equal. apply visit_undated; assumption.
  - unfold update_order, parse_delivery. run. rewrite py_index_run, Ho. run.
    unfold delivery_date in Hd.
    destruct (bool_decide _); destruct (delivery_field o) as [str |]; run;
      try reflexivity.
    rewrite Hd. reflexivity.
Qed.

Lemma order_without_date_witness :
  orders (self (simulate_step (DT := Calendar.calendar) Demo.settled).2) !! 0%nat
  = Some (Demo.order "pending" None)
  /\ update_order (DT := Calendar.calendar) 0 Demo.settled = (Ok tt, Demo.settled).
Proof.
  apply (order_without_date (DT := Calendar.calendar) Demo.settled 0
           (Demo.order "pending" None)); reflexivity.
Defined.

(** C3 as stated fails: the order of [Demo.malformed] has the date string
    "soon", which no parser accepts; [simulate_step] does not skip it but
    raises [ValueError]. *)
Lemma malformed_date_raises :
  orders (self Demo.malformed) !! 0%nat
  = Some (Demo.order "pending" (Some "soon"))
  /\ delivery_date (DT := Calendar.calendar)
       (Demo.order "pending" (Some "soon")) = None
  /\ (simulate_step (DT := Calendar.calendar) Demo.malformed).1
     = Raise ValueError.
Proof. repeat split; vm_compute; reflexivity. Qed.

(** ** The suppliers *)

Lemma randbelow_range (u : Q) (n : Z) :
  0 < n -> 0 <= Qfloor (frac u * inject_Z n) < n.
Proof.
  intros Hn. pose proof (frac_bounds u) as [H0 H1].
  assert (Hq : (0 < inject_Z n)%Q) by (rewrite Zlt_Qlt in Hn; exact Hn).
  split.
  - change 0 with (Qfloor (inject_Z 0)). apply Qfloor_resp_le.
    change (inject_Z 0) with 0%Q. nra.
  - assert (H : (frac u * inject_Z n < inject_Z n)%Q) by nra.
    pose proof (Qfloor_le (frac u * inject_Z n)) as Hf.
    rewrite Zlt_Qlt. lra.
Qed.

Lemma py_index_nonneg_run {A} (l : list A) (j : Z) w :
  0 <= j ->
  py_index l j w
  = match l !! Z.to_nat j with
    | Some x => (Ok x, w)
    | None => (Raise IndexError, w)
    end.
Proof.
  intros Hj. unfold py_index.
  destruct (j <? 0) eqn:E; [apply Z.ltb_lt in E; lia |]. rewrite E.
  destruct (l !! Z.to_nat j); reflexivity.
Qed.

Lemma choice_run {A} (x : A) (l : list A) w :
  choice (x :: l) w
  = (Ok (nth (Z.to_nat (Qfloor (frac (tape (rand w) (cursor (rand w)))
                                * inject_Z (Z.of_nat (length (x :: l))))))
           (x :: l) x),
     {| self := self w;
        rand := {| tape := tape (rand w); cursor := S (cursor (rand w)) |};
        clock := clock w |}).
Proof. reflexivity. Qed.

Lemma uniform_range (a b u : Q) :
  (a <= b)%Q -> (a <= a + (b - a) * frac u <= b)%Q.
Proof. intros H. pose proof (frac_bounds u). nra. Qed.

Lemma seq_post {A B} (I J : Sim -> Prop) (m : M A) (k : A -> M B) w :
  I (self w) -> keeps I m -> (forall s, I s -> J s) ->
  (forall a w1, I (self w1) -> J (self (k a w1).2)) ->
  J (self ((m ≫= k) w).2).
Proof.
  intros HI Hm HIJ Hk. rewrite bind_run. specialize (Hm w HI).
  destruct (m w) as [[a | e] w1]; simpl in *; [apply Hk | apply HIJ]; exact Hm.
Qed.

Section Drift.
Context `{DT : DatetimeLib}.

Lemma drifted_refl i s sim : suppliers sim !! i = Some s -> drifted i s sim.
Proof. intros H. exists s. split; [exact H | constructor]. Qed.

Lemma drifted_alter i j s sups f sim :
  suppliers sim = alter f j sups ->
  sups !! i = Some s -> (j = i -> drift s (f s)) -> drifted i s sim.
Proof.
  intros E Hi Hf. unfold drifted. rewrite E.
  destruct (decide (j = i)) as [-> | Hne].
  - rewrite list_lookup_alter_eq, Hi. exists (f s). split; [reflexivity | auto].
  - rewrite list_lookup_alter_ne by exact Hne. exists s.
    split; [exact Hi | constructor].
Qed.

Lemma update_suppliers_effect w i s :
  suppliers (self w) !! i = Some s ->
  drifted i s (self (_update_suppliers w).2).
Proof.
  intros Hi. unfold _update_suppliers, modify_supplier, modify_changes, uniform.
  run. destruct (0 <? _) eqn:Hlen; run; [| apply drifted_refl, Hi].
  apply Z.ltb_lt in Hlen.
  rewrite randint_run by lia. run'.
  match goal with
  | |- context [py_index _ (0 + ?k)] =>
      assert (Hk : 0 <= 0 + k)
        by (pose proof (randbelow_range (tape (rand w) (cursor (rand w)))
                          (Z.of_nat (length (suppliers (self w))) - 1 - 0 + 1)
                          ltac:(lia)); lia);
      rewrite (py_index_nonneg_run _ _ _ Hk);
      generalize dependent (0 + k); intros j Hj
  end.
  destruct (suppliers (self w) !! Z.to_nat j) as [supplier |] eqn:Hsup;
    run'; [| apply drifted_refl, Hi].
  rewrite choice_run. run'.
  repeat (case_inner; run'); try (apply drifted_refl, Hi).
  all: eapply drifted_alter; [reflexivity | exact Hi |].
  all: intros Hj'; rewrite Hj' in Hsup;
    replace supplier with s in * by congruence.
  all: try constructor.
  all: apply (uniform_range (-0.1) 0.1); lra.
Qed.

Lemma suppliers_update_market_conditions v :
  keeps (fun s => suppliers s = v) _update_market_conditions.
Proof.
  unfold _update_market_conditions, update_average_price,
    update_price_history, update_market_rest, update_trend,
    update_regional_prices, update_bean_prices, update_factor,
    update_forecast.
  keeps_go; frame_modify.
Qed.

Lemma suppliers_update_orders v :
  keeps (fun s => suppliers s = v) _update_orders.
Proof.
  unfold _update_orders, update_order, parse_delivery. keeps_go; frame_modify.
Qed.

Lemma suppliers_ensure_active_contract v :
  keeps (fun s => suppliers s = v) ensure_active_contract.
Proof.
  unfold ensure_active_contract, _create_sample_contract.
  keeps_go; frame_modify.
Qed.

Lemma suppliers_begin_step v : keeps (fun s => suppliers s = v) begin_step.
Proof. unfold begin_step. keeps_go; frame_modify. Qed.

Lemma drifted_frame i s sim sim' :
  suppliers sim = suppliers sim' -> drifted i s sim -> drifted i s sim'.
Proof. unfold drifted. intros <-. trivial. Qed.

Lemma simulate_step_supplier w i s :
  suppliers (self w) !! i = Some s ->
  drifted i s (self (simulate_step w).2).
Proof.
  intros Hi. unfold simulate_step, advance.
  apply (bind_post (drifted i s)).
  - set (I := fun sim => suppliers sim = suppliers (self w)).
    assert (HIJ : forall sim, I sim -> drifted i s sim).
    { intros sim E. apply drifted_refl. rewrite E. exact Hi. }
    apply (seq_post I); [reflexivity | apply suppliers_begin_step | exact HIJ |].
    intros _ w0 H0.
    apply (seq_post I);
      [exact H0 | apply suppliers_update_market_conditions | exact HIJ |].
    intros _ w1 H1.
    apply (seq_post I);
      [exact H1 | apply suppliers_update_orders | exact HIJ |].
    intros _ w2 H2. run.
    destruct (Py.Qltb _ _); run.
    + apply update_suppliers_effect. cbn [self]. rewrite H2. exact Hi.
    + apply HIJ, H2.
  - intros _. apply keeps_via with (proj := suppliers);
      [apply drifted_frame |].
    intros v. apply suppliers_ensure_active_contract.
Qed.

End Drift.

Lemma int_of_nonneg (x : Q) : (0 <= x)%Q -> Py.int x = Qfloor x.
Proof.
  intros H. unfold Py.int. apply Qle_bool_iff in H. rewrite H. reflexivity.
Qed.

Lemma drift_capacity_sign s s' :
  drift s s' ->
  0 < capacity_kg_per_year s ->
  0 < capacity_kg_per_year s'
  \/ (capacity_kg_per_year s = 1 /\ capacity_kg_per_year s' = 0).
Proof.
  intros Hd Hpos. destruct Hd as [s | s v | s v | s v | s pct Hpct];
    try (left; exact Hpos).
  simpl. set (cap := capacity_kg_per_year s) in *.
  assert (Hc : (1 <= inject_Z cap)%Q).
  { change 1%Q with (inject_Z 1). rewrite <- Zle_Qle. lia. }
  rewrite int_of_nonneg by nra.
  destruct (Z.eq_dec cap 1) as [E | E].
  - assert (H0 : 0 <= Qfloor (inject_Z cap * (1 + pct))).
    { change 0 with (Qfloor (inject_Z 0)). apply Qfloor_resp_le.
      change (inject_Z 0) with 0%Q. nra. }
    lia.
  - left. assert (H2 : (2 <= inject_Z cap)%Q).
    { change 2%Q with (inject_Z 2). rewrite <- Zle_Qle. lia. }
    assert (H1 : 1 <= Qfloor (inject_Z cap * (1 + pct))).
    { change 1 with (Qfloor (inject_Z 1)) at 1. apply Qfloor_resp_le.
      change (inject_Z 1) with 1%Q. nra. }
    lia.
Qed.

(** C9, as the code has it: for a supplier with a positive capacity, after
    [simulate_step], whose drift sub-step may scale the capacity by a factor
    in [0.9, 1.1] and truncate it, the capacity is an integer that is still
    positive, except that a capacity of 1 may have become 0. *)
Theorem capacity_after_step `{DT : DatetimeLib} (w : World) (i : nat)
    (s : Supplier) :
  suppliers (self w) !! i = Some s ->
  0 < capacity_kg_per_year s ->
  exists s', suppliers (self (simulate_step w).2) !! i = Some s'
    /\ (0 < capacity_kg_per_year s'
        \/ (capacity_kg_per_year s = 1 /\ capacity_kg_per_year s' = 0)).
Proof.
  intros Hi Hpos.
  destruct (simulate_step_supplier w i s Hi) as (s' & Hs' & Hd).
  exists s'. split; [exact Hs' |]. apply (drift_capacity_sign s s' Hd Hpos).
Qed.

Lemma capacity_after_step_witness :
  exists s',
    suppliers (self (simulate_step (DT := Calendar.calendar) Demo.shrinking).2)
      !! 0%nat = Some s'
    /\ (0 < capacity_kg_per_year s'
        \/ (capacity_kg_per_year (Demo.supplier 1) = 1
            /\ capacity_kg_per_year s' = 0)).
Proof.
  apply (capacity_after_step (DT := Calendar.calendar) Demo.shrinking 0
           (Demo.supplier 1)); reflexivity.
Defined.

(** C9 as stated fails: the supplier of [Demo.shrinking] has capacity 1; the
    drift sub-step draws the change -5%, and [int(1 * 0.95)] is 0, which is
    not positive. *)
Lemma capacity_can_reach_zero :
  suppliers (self Demo.shrinking) !! 0%nat = Some (Demo.supplier 1)
  /\ 0 < capacity_kg_per_year (Demo.supplier 1)
  /\ suppliers (self (simulate_step (DT := Calendar.calendar)
                        Demo.shrinking).2) !! 0%nat
     = Some (Demo.supplier 0)
  /\ ~ 0 < capacity_kg_per_year (Demo.supplier 0).
Proof.
  split; [reflexivity |]. split; [reflexivity |].
  split; [vm_compute; reflexivity |]. simpl. lia.
Qed.


(** ** Changing a delivery date *)

Lemma list_alter_at {A} (f : A -> A) (l : list A) (i : nat) (x : A) :
  l !! i = Some x -> alter f i l = <[i := f x]> l.
Proof.
  intros H. apply list_eq. intros j.
  destruct (decide (i = j)) as [<- | Hne].
  - rewrite list_lookup_alter_eq, H, list_lookup_insert_eq; [reflexivity |].
    apply lookup_lt_is_Some. eauto.
  - rewrite list_lookup_alter_ne, list_lookup_insert_ne by exact Hne.
    reflexivity.
Qed.

Lemma update_delivery_loop_run (new : string) (w : World) (i : nat)
    (o : Order) (m k : nat) :
  first_with_id (orders (self w)) i o ->
  (k <= i < k + m)%nat ->
  update_delivery_loop (o_id o) new (seq k m) w
  = match expected_delivery o with
    | None => (Raise (KeyError "expected_delivery"), w)
    | Some old => (Ok tt, delivery_updated w i o old new)
    end.
Proof.
  intros [Hi Hfirst]. revert k.
  induction m as [| m IH]; intros k Hk; [lia |].
  simpl. run. rewrite py_index_run.
  destruct (decide (k = i)) as [-> | Hne].
  - rewrite Hi. run. destruct (decide (o_id o = o_id o)); [| congruence].
    unfold modify_order, modify_changes.
    destruct (expected_delivery o) as [old |]; run; [| reflexivity].
    unfold delivery_updated. cbn [self rand clock orders set_orders changes].
    rewrite (list_alter_at _ _ _ _ Hi). reflexivity.
  - assert (Hlt : (k < i)%nat) by lia.
    destruct (orders (self w) !! k) as [o' |] eqn:Hk'.
    + run. destruct (decide (o_id o' = o_id o)) as [E | _].
      * exfalso. exact (Hfirst k o' Hlt Hk' E).
      * apply IH. lia.
    + exfalso. apply lookup_ge_None in Hk'.
      apply lookup_lt_Some in Hi. lia.
Qed.

(** C10, as the code has it: for a stored order that is the first one with
    its identifier, [update_order_expected_delivery] called with that
    identifier raises [KeyError] and changes nothing when the order lacks the
    key [expected_delivery] (whether or not it has the legacy key); when the
    order has the key, the call returns, replaces that date and records the
    change. *)
Theorem update_delivery_needs_key (new : string)
    (w : World) (i : nat) (o : Order) :
  first_with_id (orders (self w)) i o ->
  update_order_expected_delivery (o_id o) new w
  = match expected_delivery o with
    | None => (Raise (KeyError "expected_delivery"), w)
    | Some old => (Ok tt, delivery_updated w i o old new)
    end.
Proof.
  intros Hf. unfold update_order_expected_delivery. run.
  apply update_delivery_loop_run; [exact Hf |].
  destruct Hf as [Hi _]. apply lookup_lt_Some in Hi. lia.
Qed.

Lemma update_delivery_needs_key_witness :
  update_order_expected_delivery "order_1"
    "2025-12-24" Demo.legacy
  = (Raise (KeyError "expected_delivery"), Demo.legacy).
Proof.
  apply (update_delivery_needs_key "2025-12-24"
           Demo.legacy 0 (Demo.order "pending" (Some "2025-11-13"))).
  split; [reflexivity |]. intros j o' Hj. lia.
Defined.

(** C10 as stated fails: the second order of [Demo.twins] has the legacy key
    only, yet a call with its identifier raises nothing: it finds the first
    order, which has the same identifier and the key, and updates it. *)
Lemma duplicate_id_hides_legacy_order :
  orders (self Demo.twins) !! 1%nat
  = Some (Demo.order "pending" (Some "2025-11-13"))
  /\ expected_delivery (Demo.order "pending" (Some "2025-11-13")) = None
  /\ (update_order_expected_delivery "order_1"
        "2025-12-24" Demo.twins).1 = Ok tt
  /\ changes (self (update_order_expected_delivery
                      "order_1" "2025-12-24" Demo.twins).2)
     <> changes (self Demo.twins).
Proof.
  split; [reflexivity |]. split; [reflexivity |]. split; [reflexivity |].
  vm_compute. discriminate.
Qed.

(** ** The fallback contract *)

Lemma now_run w : datetime_now w = (Ok (clock w), w).
Proof. reflexivity. Qed.

Section Fallback.
Context `{DT : DatetimeLib}.

Lemma contracts_advance v : keeps (fun s => contracts s = v) advance.
Proof.
  unfold advance, begin_step, _update_market_conditions,
    update_average_price, update_price_history, update_market_rest,
    update_trend, update_regional_prices, update_bean_prices, update_factor,
    update_forecast, _update_orders, update_order, parse_delivery,
    _update_suppliers.
  keeps_go; frame_modify.
Qed.

Lemma nth_lookup_Z {A} (l : list A) (k : Z) (d : A) :
  0 <= k < Z.of_nat (length l) -> l !! Z.to_nat k = Some (nth (Z.to_nat k) l d).
Proof.
  intros Hk. destruct (nth_lookup_or_length l (Z.to_nat k) d) as [H | H];
    [exact H | lia].
Qed.

Lemma create_sample_contract_run w s0 rest :
  suppliers (self w) = s0 :: rest ->
  exists c supplier duration,
    contracts (self (_create_sample_contract w).2)
    = (contracts (self w) ++ [c])%list
    /\ suppliers (self w)
         !! Z.to_nat (Qfloor (frac (tape (rand w) (cursor (rand w)))
                              * inject_Z (Z.of_nat (length (suppliers (self w))))))
       = Some supplier
    /\ c_status c = "active"
    /\ c_supplier_id c = s_id supplier
    /\ cent_of (average_price (market_conditions (self w))
                * (0.9 + default 7.0 (quality_score supplier) / 10.0 * 0.3))%Q
         (price_per_pound c)
    /\ 90 <= duration <= 365
    /\ start_date c = strftime_ymd (simulation_date (self w))
    /\ end_date c
       = strftime_ymd (simulation_date (self w) + timedelta_of_days duration).
Proof.
  intros Hs. unfold _create_sample_contract, gets_market, modify_changes.
  run. rewrite Hs.
  destruct (decide (s0 :: rest = [])) as [E | _]; [discriminate |].
  rewrite bind_run, choice_run. cbv beta iota.
  rewrite bind_run, now_run. cbv beta iota.
  rewrite bind_run, gets_run. cbv beta iota.
  rewrite bind_run, randint_run by lia. cbv beta iota.
  rewrite bind_run, gets_run. cbv beta iota.
  do 2 (rewrite bind_run, randint_run by lia; cbv beta iota).
  do 3 (rewrite bind_run, choice_run; cbv beta iota).
  rewrite bind_run, modify_run. cbv beta iota. rewrite modify_run.
  cbn [self rand clock tape cursor fst snd].
  cbn [contracts set_contracts set_changes].
  eexists _, _, _. split; [reflexivity |].
  split.
  { apply nth_lookup_Z. apply randbelow_range. simpl length. lia. }
  split; [reflexivity |]. split; [reflexivity |].
  split; [apply round_cent_error |].
  split; [| split; reflexivity].
  match goal with |- _ <= 90 + Qfloor (frac ?u * _) <= _ =>
    pose proof (randbelow_range u (365 - 90 + 1) ltac:(lia))
  end. lia.
Qed.

End Fallback.




(** ** Deep copies *)

Module StoreFacts.
Import Store.

Lemma children_push e o :
  children (push e o) = children o \/ children (push e o) = (children o ++ [e.2])%list.
Proof.
  destruct o as [vs | kvs], e as [[k |] v]; unfold children; simpl;
    rewrite ?fmap_app; simpl; auto.
Qed.

Lemma image_in_memo m m' v : m ⊆ m' -> in_memo m v -> image m' v = image m v.
Proof.
  intros Hm. destruct v as [a | l]; unfold image, in_memo; [reflexivity |].
  intros [y Hy]. rewrite Hy.
  rewrite (lookup_weaken _ _ _ _ Hy Hm). reflexivity.
Qed.

Lemma in_memo_mono m m' v : m ⊆ m' -> in_memo m v -> in_memo m' v.
Proof.
  intros Hm. destruct v as [a | l]; unfold in_memo; [trivial |].
  intros [y Hy]. exists y. exact (lookup_weaken _ _ _ _ Hy Hm).
Qed.

Lemma omap_ext f g o :
  Forall (fun v => f v = g v) (children o) -> omap f o = omap g o.
Proof.
  destruct o as [vs | kvs]; unfold children; simpl; intros H; f_equal.
  - apply list_eq. intros i. rewrite !list_lookup_fmap.
    destruct (vs !! i) as [v |] eqn:E; simpl; [| reflexivity].
    f_equal. rewrite Forall_lookup in H. apply (H i).
    rewrite !list_lookup_fmap, E. reflexivity.
  - apply list_eq. intros i. rewrite !list_lookup_fmap.
    destruct (kvs !! i) as [[k v] |] eqn:E; simpl; [| reflexivity].
    do 2 f_equal. rewrite Forall_lookup in H. apply (H i).
    rewrite !list_lookup_fmap, E. reflexivity.
Qed.

Lemma fold_push f o :
  foldl (fun acc e => push (e.1, f e.2) acc) (empty_like o) (entries o)
  = omap f o.
Proof.
  destruct o as [vs | kvs]; simpl.
  - change (OList (f <$> vs)) with (OList ([] ++ (f <$> vs))).
    generalize (@nil val). induction vs as [| v vs IH]; intros acc; simpl.
    + rewrite app_nil_r. reflexivity.
    + rewrite IH, <- app_assoc. reflexivity.
  - change (ODict ((fun kv => (kv.1, f kv.2)) <$> kvs))
      with (ODict ([] ++ ((fun kv => (kv.1, f kv.2)) <$> kvs))).
    generalize (@nil (string * val)).
    induction kvs as [| [k v] kvs IH]; intros acc; simpl.
    + rewrite app_nil_r. reflexivity.
    + rewrite IH, <- app_assoc. reflexivity.
Qed.

Lemma image_within h0 n0 busy h m v :
  copy_inv h0 n0 busy h m -> in_memo m v ->
  val_within (length h0) (length h) (image m v).
Proof.
  intros Hinv. destruct v as [a | l]; unfold image, in_memo; [trivial |].
  intros [y Hy]. rewrite Hy. simpl. apply (inv_range _ _ _ _ _ Hinv l y Hy).
Qed.

(** Adding the copy of an item to the object that is being filled. *)
Lemma copy_inv_push h0 n0 busy h m l y k a :
  copy_inv h0 n0 busy h m -> l ∈ busy -> m !! l = Some y -> in_memo m a ->
  copy_inv h0 n0 busy (alter (push (k, image m a)) y h) m.
Proof.
  intros Hinv Hl Hy Ha.
  destruct (inv_range _ _ _ _ _ Hinv l y Hy) as [_ [Hy0 Hy1]].
  constructor.
  - intros l1 Hl1. rewrite list_lookup_alter_ne by lia.
    apply (inv_old _ _ _ _ _ Hinv), Hl1.
  - rewrite length_alter. apply (inv_len _ _ _ _ _ Hinv).
  - intros l1 y1 H1. rewrite length_alter.
    apply (inv_range _ _ _ _ _ Hinv), H1.
  - apply (inv_inj _ _ _ _ _ Hinv).
  - intros l1 y1 H1 Hb.
    destruct (inv_done _ _ _ _ _ Hinv l1 y1 H1 Hb) as (o & Ho & Hy1' & Hc).
    exists o. split; [exact Ho |]. split; [| exact Hc].
    rewrite list_lookup_alter_ne; [exact Hy1' |].
    intros <-. apply Hb.
    rewrite (inv_inj _ _ _ _ _ Hinv l1 l y H1 Hy). exact Hl.
  - intros y1 o1 Hy1' Ho1. rewrite length_alter.
    destruct (decide (y = y1)) as [<- | Hne].
    + rewrite list_lookup_alter_eq in Ho1.
      destruct (h !! y) as [oy |] eqn:Hoy; [| discriminate].
      injection Ho1 as <-.
      pose proof (inv_fresh _ _ _ _ _ Hinv y oy Hy0 Hoy) as Hf.
      destruct (children_push (k, image m a) oy) as [E | E]; rewrite E;
        [exact Hf |].
      apply Forall_app. split; [exact Hf |].
      constructor; [| constructor]. apply (image_within _ _ _ _ _ _ Hinv Ha).
    + rewrite list_lookup_alter_ne in Ho1 by exact Hne.
      apply (inv_fresh _ _ _ _ _ Hinv y1 o1 Hy1' Ho1).
Qed.

Lemma copy_entries_inv h0 n0 rec :
  rec_ok h0 n0 rec ->
  forall es busy l y h m h' m',
    copy_inv h0 n0 busy h m -> l ∈ busy -> m !! l = Some y ->
    busy ⊆ dom m -> Forall (val_below n0) es.*2 ->
    copy_entries rec y es (h, m) = Some (h', m') ->
    copy_inv h0 n0 busy h' m'
    /\ m ⊆ m'
    /\ Forall (in_memo m') es.*2
    /\ (forall oy, h !! y = Some oy ->
          h' !! y
          = Some (foldl (fun acc e => push (e.1, image m' e.2) acc) oy es))
    /\ (forall l2 y2, l2 ∈ busy -> l2 <> l -> m !! l2 = Some y2 ->
          h' !! y2 = h !! y2)
    /\ (length h <= length h')%nat.
Proof.
  intros Hrec es.
  induction es as [| [k a] es IH]; intros busy l y h m h' m' Hinv Hl Hy Hb Hes Hrun.
  - simpl in Hrun. injection Hrun as <- <-.
    split; [exact Hinv |]. split; [reflexivity |]. split; [constructor |].
    split; [intros oy Hoy; exact Hoy |]. split; [reflexivity | lia].
  - simpl in Hrun. simpl in Hes. apply Forall_cons in Hes as [Ha Hes].
    destruct (rec a (h, m)) as [[c [ha ma]] |] eqn:Hrec_a; [| discriminate].
    destruct (Hrec a busy h m c ha ma Hinv Ha Hb Hrec_a)
      as (Hinv_a & Hsub_a & Hc & Hin_a & Hkeep_a & Hlen_a).
    assert (Hy_a : ma !! l = Some y) by exact (lookup_weaken _ _ _ _ Hy Hsub_a).
    assert (Hb_a : busy ⊆ dom ma).
    { etransitivity; [exact Hb | apply subseteq_dom, Hsub_a]. }
    subst c.
    pose proof (copy_inv_push _ _ _ _ _ l y k a Hinv_a Hl Hy_a Hin_a) as Hinv_b.
    destruct (IH busy l y _ ma h' m' Hinv_b Hl Hy_a Hb_a Hes Hrun)
      as (Hinv' & Hsub' & Hin' & Hfill & Hkeep' & Hlen').
    split; [exact Hinv' |].
    split; [etransitivity; eassumption |].
    split.
    { simpl. constructor; [| exact Hin'].
      apply (in_memo_mono _ _ _ Hsub' Hin_a). }
    split.
    { intros oy Hoy. simpl.
      rewrite (image_in_memo _ _ _ Hsub' Hin_a).
      apply Hfill. rewrite list_lookup_alter_eq, (Hkeep_a l y Hl Hy), Hoy.
      reflexivity. }
    split.
    { intros l2 y2 Hl2 Hne Hy2.
      assert (Hy2_a : ma !! l2 = Some y2)
        by exact (lookup_weaken _ _ _ _ Hy2 Hsub_a).
      rewrite (Hkeep' l2 y2 Hl2 Hne Hy2_a).
      rewrite list_lookup_alter_ne; [exact (Hkeep_a l2 y2 Hl2 Hy2) |].
      intros <-. apply Hne.
      exact (inv_inj _ _ _ _ _ Hinv_a l2 l y Hy2_a Hy_a). }
    rewrite length_alter in Hlen'. lia.
Qed.

Lemma copy_post_same h0 n0 busy x h m :
  copy_inv h0 n0 busy h m -> in_memo m x ->
  copy_post h0 n0 busy x h m (image m x) h m.
Proof.
  intros Hinv Hx. split; [exact Hinv |]. split; [reflexivity |].
  split; [reflexivity |]. split; [exact Hx |]. split; [reflexivity | lia].
Qed.

(** Entering a new object in the memo, its copy still empty. *)
Lemma copy_inv_enter h0 n0 busy h m l o :
  copy_inv h0 n0 busy h m -> (l < n0)%nat -> m !! l = None ->
  copy_inv h0 n0 ({[l]} ∪ busy) (h ++ [empty_like o]) (<[l := length h]> m).
Proof.
  intros Hinv Hl Hm.
  pose proof (inv_len _ _ _ _ _ Hinv) as Hlen.
  assert (Hsub : m ⊆ <[l := length h]> m) by (apply insert_subseteq, Hm).
  constructor.
  - intros l1 Hl1. rewrite lookup_app_l by lia.
    apply (inv_old _ _ _ _ _ Hinv), Hl1.
  - rewrite length_app. simpl. lia.
  - intros l1 y1 H1. rewrite length_app. simpl.
    apply lookup_insert_Some in H1 as [[<- <-] | [_ H1]]; [lia |].
    pose proof (inv_range _ _ _ _ _ Hinv l1 y1 H1). lia.
  - intros l1 l2 y H1 H2.
    apply lookup_insert_Some in H1 as [[<- <-] | [Hn1 H1]];
      apply lookup_insert_Some in H2 as [[<- E] | [Hn2 H2]]; try reflexivity.
    + pose proof (inv_range _ _ _ _ _ Hinv l2 _ H2). lia.
    + pose proof (inv_range _ _ _ _ _ Hinv l1 _ H1). lia.
    + exact (inv_inj _ _ _ _ _ Hinv l1 l2 y H1 H2).
  - intros l1 y1 H1 Hb.
    apply lookup_insert_Some in H1 as [[<- <-] | [Hn1 H1]].
    { exfalso. apply Hb, elem_of_union_l, elem_of_singleton. reflexivity. }
    assert (Hb' : l1 ∉ busy) by (intros H; apply Hb, elem_of_union_r, H).
    destruct (inv_done _ _ _ _ _ Hinv l1 y1 H1 Hb')
      as (o1 & Ho1 & Hy1 & Hc).
    exists o1. split; [exact Ho1 |].
    pose proof (inv_range _ _ _ _ _ Hinv l1 y1 H1) as [_ [_ Hlt]].
    split.
    + rewrite lookup_app_l by exact Hlt. rewrite Hy1. f_equal.
      apply omap_ext. eapply Forall_impl; [exact Hc |].
      intros v Hv. symmetry. apply (image_in_memo _ _ _ Hsub Hv).
    + eapply Forall_impl; [exact Hc |].
      intros v Hv. apply (in_memo_mono _ _ _ Hsub Hv).
  - intros y1 o1 Hy1 Ho1. rewrite length_app. simpl.
    destruct (decide (y1 < length h)%nat) as [Hlt | Hge].
    + rewrite lookup_app_l in Ho1 by exact Hlt.
      eapply Forall_impl; [exact (inv_fresh _ _ _ _ _ Hinv y1 o1 Hy1 Ho1) |].
      intros [a | c]; simpl; [trivial | lia].
    + rewrite lookup_app_r in Ho1 by lia.
      destruct (y1 - length h)%nat; [| discriminate].
      injection Ho1 as <-. destruct o; constructor.
Qed.

(** The object that was being filled is complete. *)
Lemma copy_inv_leave h0 n0 busy h m l y o :
  copy_inv h0 n0 ({[l]} ∪ busy) h m ->
  m !! l = Some y -> h0 !! l = Some o ->
  h !! y = Some (omap (image m) o) -> Forall (in_memo m) (children o) ->
  copy_inv h0 n0 busy h m.
Proof.
  intros Hinv Hy Ho Hfull Hc.
  constructor; try (apply Hinv).
  intros l1 y1 H1 Hb. destruct (decide (l1 = l)) as [-> | Hne].
  - replace y1 with y by congruence. exists o. auto.
  - apply (inv_done _ _ _ _ _ Hinv l1 y1 H1). intros H.
    apply elem_of_union in H as [H | H]; [| exact (Hb H)].
    apply elem_of_singleton in H. exact (Hne H).
Qed.

Lemma deepcopy_ok h0 n0 :
  closed_below n0 h0 -> forall fuel, rec_ok h0 n0 (deepcopy fuel).
Proof.
  intros [Hn0 Hclosed] fuel.
  induction fuel as [| fuel IH]; intros x busy h m r h' m' Hinv Hx Hb Hrun.
  - destruct x as [a | l]; simpl in Hrun.
    + injection Hrun as <- <- <-. apply (copy_post_same _ _ _ (VAtom a)); easy.
    + destruct (m !! l) as [y |] eqn:Hm; [| discriminate].
      injection Hrun as <- <- <-.
      replace (VRef y) with (image m (VRef l))
        by (unfold image; rewrite Hm; reflexivity).
      apply copy_post_same; [exact Hinv | exists y; exact Hm].
  - destruct x as [a | l]; simpl in Hrun.
    + injection Hrun as <- <- <-. apply (copy_post_same _ _ _ (VAtom a)); easy.
    + destruct (m !! l) as [y |] eqn:Hm.
      { injection Hrun as <- <- <-.
        replace (VRef y) with (image m (VRef l))
          by (unfold image; rewrite Hm; reflexivity).
        apply copy_post_same; [exact Hinv | exists y; exact Hm]. }
      destruct (h !! l) as [o |] eqn:Ho; [| discriminate].
      destruct (copy_entries _ _ _ _) as [[h1 m1] |] eqn:Hloop; [| discriminate].
      injection Hrun as <- <- <-.
      simpl in Hx.
      assert (Ho0 : h0 !! l = Some o).
      { rewrite <- (inv_old _ _ _ _ _ Hinv l) by lia. exact Ho. }
      pose proof (copy_inv_enter _ _ _ _ _ l o Hinv Hx Hm) as Hinv1.
      assert (Hl_memo : <[l := length h]> m !! l = Some (length h))
        by apply lookup_insert_eq.
      assert (Hkids : Forall (val_below n0) (entries o).*2)
        by exact (Hclosed l o Hx Ho0).
      assert (Hl_busy : l ∈ ({[l]} ∪ busy : gset nat))
        by (apply elem_of_union_l, elem_of_singleton; reflexivity).
      assert (Hb1 : ({[l]} ∪ busy : gset nat) ⊆ dom (<[l := length h]> m))
        by (rewrite dom_insert_L; apply union_mono_l, Hb).
      destruct (copy_entries_inv h0 n0 (deepcopy fuel) IH (entries o)
                  ({[l]} ∪ busy) l (length h) _ _ h1 m1 Hinv1
                  Hl_busy Hl_memo Hb1 Hkids Hloop)
        as (Hinv' & Hsub' & Hin' & Hfill & Hkeep' & Hlen').
      assert (Hsub : m ⊆ m1).
      { etransitivity; [apply insert_subseteq, Hm | exact Hsub']. }
      assert (Hy1 : m1 !! l = Some (length h))
        by exact (lookup_weaken _ _ _ _ Hl_memo Hsub').
      assert (Hfull : h1 !! length h = Some (omap (image m1) o)).
      { rewrite (Hfill (empty_like o)); [f_equal; apply fold_push |].
        rewrite lookup_app_r by lia. rewrite Nat.sub_diag. reflexivity. }
      split; [exact (copy_inv_leave _ _ _ _ _ l _ o Hinv' Hy1 Ho0 Hfull Hin') |].
      split; [exact Hsub |].
      split; [unfold image; rewrite Hy1; reflexivity |].
      split; [exists (length h); exact Hy1 |].
      split.
      { intros l2 y2 Hl2 Hy2.
        assert (Hne : l2 <> l) by (intros ->; congruence).
        rewrite (Hkeep' l2 y2 (elem_of_union_r _ _ _ Hl2) Hne).
        - apply lookup_app_l.
          apply (inv_range _ _ _ _ _ Hinv l2 y2 Hy2).
        - rewrite lookup_insert_ne by congruence. exact Hy2. }
      rewrite length_app in Hlen'. simpl in Hlen'. lia.
Qed.

Lemma mapM_ext_Forall {A B} (F G : A -> option B) (l : list A) :
  Forall (fun x => F x = G x) l -> mapM F l = mapM G l.
Proof.
  induction 1 as [| x l Hx _ IH]; simpl; [reflexivity |].
  rewrite Hx, IH. reflexivity.
Qed.

Lemma mapM_fmap {A B C} (F : B -> option C) (f : A -> B) (l : list A) :
  mapM F (f <$> l) = mapM (fun x => F (f x)) l.
Proof.
  induction l as [| x l IH]; [reflexivity |].
  rewrite fmap_cons. cbn [mapM]. rewrite IH. reflexivity.
Qed.

Lemma tree_of_ext F G o :
  Forall (fun v => F v = G v) (children o) -> tree_of F o = tree_of G o.
Proof.
  destruct o as [vs | kvs]; unfold children; simpl; intros H; f_equal.
  - apply mapM_ext_Forall. rewrite <- list_fmap_compose in H.
    rewrite Forall_fmap in H. exact H.
  - apply mapM_ext_Forall. rewrite <- list_fmap_compose in H.
    rewrite Forall_fmap in H. eapply Forall_impl; [exact H |].
    intros [k v] E. simpl in *. rewrite E. reflexivity.
Qed.

Lemma tree_of_omap F f o : tree_of F (omap f o) = tree_of (fun v => F (f v)) o.
Proof.
  destruct o as [vs | kvs]; simpl; rewrite mapM_fmap; reflexivity.
Qed.

(** When no copy is being filled any more, each copy has the value of its
    original. *)
Lemma copies_same_value h0 n0 h m :
  copy_inv h0 n0 ∅ h m ->
  forall depth l y, m !! l = Some y ->
    snapshot depth h (VRef y) = snapshot depth h0 (VRef l).
Proof.
  intros Hinv depth.
  induction depth as [| d IH]; intros l y Hy; [reflexivity |].
  destruct (inv_done _ _ _ _ _ Hinv l y Hy (not_elem_of_empty l))
    as (o & Ho & Hcopy & Hc).
  simpl. rewrite Ho, Hcopy, tree_of_omap.
  apply tree_of_ext. eapply Forall_impl; [exact Hc |].
  intros [a | c]; unfold in_memo, image; [intros _; destruct d; reflexivity |].
  intros [yc Hyc]. rewrite Hyc. apply IH, Hyc.
Qed.

(** The value of an object below [n0] depends on the objects below [n0]
    only. *)
Lemma snapshot_frame n0 h0 h :
  closed_below n0 h0 ->
  (forall l, (l < n0)%nat -> h !! l = h0 !! l) ->
  forall depth v, val_below n0 v -> snapshot depth h v = snapshot depth h0 v.
Proof.
  intros [_ Hclosed] Hsame depth.
  induction depth as [| d IH]; intros [a | l] Hv; try reflexivity.
  simpl in *. rewrite (Hsame l Hv).
  destruct (h0 !! l) as [o |] eqn:Ho; [| reflexivity].
  pose proof (Hclosed l o Hv Ho) as Hk. unfold obj_below in Hk.
  apply tree_of_ext. eapply Forall_impl; [exact Hk |].
  intros v Hv'. apply IH, Hv'.
Qed.

Lemma copy_inv_start h0 n0 : copy_inv h0 n0 ∅ h0 ∅.
Proof.
  constructor.
  - reflexivity.
  - lia.
  - intros l y H. rewrite lookup_empty in H. discriminate.
  - intros l1 l2 y H. rewrite lookup_empty in H. discriminate.
  - intros l y H. rewrite lookup_empty in H. discriminate.
  - intros y o Hy Ho. apply lookup_lt_Some in Ho. lia.
Qed.

(** *** [deepcopy] returns *)

Lemma memo_size_le (n0 : nat) (m : gmap nat nat) :
  (forall l y, m !! l = Some y -> (l < n0)%nat) -> (size m <= n0)%nat.
Proof.
  intros H. rewrite <- size_dom.
  rewrite <- (size_set_seq (C := gset nat) 0 n0).
  apply subseteq_size. intros l Hl. apply elem_of_dom in Hl as [y Hy].
  apply elem_of_set_seq. specialize (H l y Hy). lia.
Qed.

Lemma memo_size_lt (n0 : nat) (m : gmap nat nat) (l : nat) :
  (forall l y, m !! l = Some y -> (l < n0)%nat) ->
  m !! l = None -> (l < n0)%nat -> (size m < n0)%nat.
Proof.
  intros H Hl Hn.
  assert (Hs : (size (<[l := 0%nat]> m) <= n0)%nat).
  { apply memo_size_le. intros l1 y1 H1.
    apply lookup_insert_Some in H1 as [[<- _] | [_ H1]]; [exact Hn |].
    exact (H l1 y1 H1). }
  rewrite map_size_insert_None in Hs by exact Hl. lia.
Qed.

Lemma copy_entries_total h0 n0 rec (bound : nat) :
  rec_ok h0 n0 rec ->
  (forall x busy h m,
     copy_inv h0 n0 busy h m -> val_below n0 x -> busy ⊆ dom m ->
     (bound <= size m)%nat -> is_Some (rec x (h, m))) ->
  forall es busy l y h m,
    copy_inv h0 n0 busy h m -> l ∈ busy -> m !! l = Some y ->
    busy ⊆ dom m -> Forall (val_below n0) es.*2 -> (bound <= size m)%nat ->
    is_Some (copy_entries rec y es (h, m)).
Proof.
  intros Hok Htotal es.
  induction es as [| [k a] es IH]; intros busy l y h m Hinv Hl Hy Hb Hes Hsize.
  - simpl. eexists. reflexivity.
  - simpl in *. apply Forall_cons in Hes as [Ha Hes].
    destruct (Htotal a busy h m Hinv Ha Hb Hsize) as [[c [ha ma]] Hrun].
    rewrite Hrun.
    destruct (Hok a busy h m c ha ma Hinv Ha Hb Hrun)
      as (Hinv_a & Hsub_a & Hc & Hin_a & _).
    assert (Hy_a : ma !! l = Some y) by exact (lookup_weaken _ _ _ _ Hy Hsub_a).
    subst c. apply (IH busy l y).
    + apply (copy_inv_push _ _ _ _ _ l y k a Hinv_a Hl Hy_a Hin_a).
    + exact Hl.
    + exact Hy_a.
    + etransitivity; [exact Hb | apply subseteq_dom, Hsub_a].
    + exact Hes.
    + pose proof (map_subseteq_size _ _ Hsub_a). lia.
Qed.

Lemma deepcopy_total h0 n0 :
  closed_below n0 h0 ->
  forall fuel x busy h m,
    copy_inv h0 n0 busy h m -> val_below n0 x -> busy ⊆ dom m ->
    (n0 < fuel + size m)%nat -> is_Some (deepcopy fuel x (h, m)).
Proof.
  intros Hclosed fuel.
  induction fuel as [| fuel IH]; intros x busy h m Hinv Hx Hb Hsize.
  - destruct x as [a | l]; simpl; [eexists; reflexivity |].
    destruct (m !! l) as [y |] eqn:Hm; [eexists; reflexivity |].
    exfalso. simpl in Hx.
    assert (size m < n0)%nat; [| lia].
    apply (memo_size_lt n0 m l); [| exact Hm | exact Hx].
    intros l1 y1 H1. apply (inv_range _ _ _ _ _ Hinv l1 y1 H1).
  - destruct x as [a | l]; simpl; [eexists; reflexivity |].
    destruct (m !! l) as [y |] eqn:Hm; [eexists; reflexivity |].
    simpl in Hx. destruct Hclosed as [Hn0 Hkids].
    assert (Ho : exists o, h !! l = Some o).
    { apply lookup_lt_is_Some. pose proof (inv_len _ _ _ _ _ Hinv). lia. }
    destruct Ho as [o Ho]. rewrite Ho.
    assert (Ho0 : h0 !! l = Some o).
    { rewrite <- (inv_old _ _ _ _ _ Hinv l) by lia. exact Ho. }
    destruct (copy_entries_total h0 n0 (deepcopy fuel) (S n0 - fuel)
                (deepcopy_ok h0 n0 (conj Hn0 Hkids) fuel)) with
      (es := entries o) (busy := {[l]} ∪ busy) (l := l) (y := length h)
      (h := (h ++ [empty_like o])%list) (m := <[l := length h]> m)
      as [st Hst].
    + intros x busy' h' m' Hinv' Hx' Hb' Hs'.
      apply (IH x busy' h' m' Hinv' Hx' Hb'). lia.
    + apply copy_inv_enter; assumption.
    + apply elem_of_union_l, elem_of_singleton. reflexivity.
    + apply lookup_insert_eq.
    + rewrite dom_insert_L. apply union_mono_l, Hb.
    + exact (Hkids l o Hx Ho0).
    + rewrite map_size_insert_None by exact Hm. lia.
    + rewrite Hst. eexists. reflexivity.
Qed.

(** *** A copy and its caller *)

Lemma wf_closed h : wf h -> closed_below (length h) h.
Proof.
  intros H. split; [lia |]. intros l o _ Ho.
  unfold wf in H. rewrite Forall_lookup in H. exact (H l o Ho).
Qed.

Lemma deepcopy_top_spec n0 h x :
  closed_below n0 h -> val_below n0 x ->
  exists r h',
    deepcopy_top x h = Some (r, h')
    /\ (forall l, (l < length h)%nat -> h' !! l = h !! l)
    /\ same_value h' r h x
    /\ owned (length h) [r] h'.
Proof.
  intros Hclosed Hx. unfold deepcopy_top.
  pose proof (copy_inv_start h n0) as Hstart.
  destruct (deepcopy_total h n0 Hclosed (S (length h)) x ∅ h ∅ Hstart Hx
              ltac:(reflexivity)) as [[r [h' m']] Hrun].
  { destruct Hclosed as [Hn0 _]. lia. }
  rewrite Hrun.
  destruct (deepcopy_ok h n0 Hclosed (S (length h)) x ∅ h ∅ r h' m' Hstart Hx
              ltac:(reflexivity) Hrun) as (Hinv & _ & Hr & Hin & _ & Hlen).
  exists r, h'. split; [reflexivity |].
  split; [apply (inv_old _ _ _ _ _ Hinv) |].
  split.
  - intros depth. subst r. destruct x as [a | l]; [destruct depth; reflexivity |].
    destruct Hin as [y Hy]. unfold image. rewrite Hy.
    apply (copies_same_value _ _ _ _ Hinv depth l y Hy).
  - split; [exact Hlen |]. split.
    + constructor; [| constructor]. subst r.
      apply (image_within _ _ _ _ _ _ Hinv Hin).
    + apply (inv_fresh _ _ _ _ _ Hinv).
Qed.

Lemma val_within_mono lo hi hi' v :
  (hi <= hi')%nat -> val_within lo hi v -> val_within lo hi' v.
Proof. destruct v as [a | l]; simpl; [trivial | lia]. Qed.

Lemma reachable_owned n0 known h v l :
  owned n0 known h -> val_within n0 (length h) v -> reachable h v l ->
  (n0 <= l < length h)%nat.
Proof.
  intros (_ & _ & Hobj) Hv Hreach.
  induction Hreach as [l | l o v l' Ho Hin _ IH]; [exact Hv |].
  apply IH. simpl in Hv.
  pose proof (Hobj l o ltac:(lia) Ho) as Hk.
  rewrite Forall_forall in Hk. apply Hk, Hin.
Qed.

Lemma reach_owned n0 known h l :
  owned n0 known h -> reach known h l -> (n0 <= l < length h)%nat.
Proof.
  intros Ho (v & Hv & Hreach).
  apply (reachable_owned n0 known h v l Ho); [| exact Hreach].
  destruct Ho as (_ & Hk & _). rewrite Forall_forall in Hk. apply Hk, Hv.
Qed.

Lemma holds_owned n0 known h o :
  owned n0 known h -> holds known h o ->
  Forall (val_within n0 (length h)) (children o).
Proof.
  intros Ho Hh. apply Forall_forall. intros [a | l] Hin; [exact I |].
  apply (reach_owned n0 known h l Ho), Hh, Hin.
Qed.

(** The caller writes to what it owns only. *)
Lemma caller_frame n0 known h h' :
  caller known h h' -> owned n0 known h ->
  (forall l, (l < n0)%nat -> h' !! l = h !! l) /\ (length h <= length h')%nat.
Proof.
  induction 1 as [known h | known h l o h' Hl Ho _ IH | known h o h' Ho _ IH];
    intros Hown.
  - split; [reflexivity | lia].
  - pose proof (reach_owned n0 known h l Hown Hl) as Hrange.
    pose proof (holds_owned n0 known h o Hown Ho) as Hkids.
    destruct IH as [IH1 IH2].
    + destruct Hown as (Hn0 & Hk & Hobj).
      split; [| split]; rewrite length_insert; [exact Hn0 | exact Hk |].
      intros y oy Hy Hoy. destruct (decide (l = y)) as [<- | Hne].
      * rewrite list_lookup_insert_eq in Hoy by lia.
        injection Hoy as <-. exact Hkids.
      * rewrite list_lookup_insert_ne in Hoy by exact Hne.
        exact (Hobj y oy Hy Hoy).
    + rewrite length_insert in IH2. split; [| exact IH2].
      intros l1 Hl1. rewrite IH1 by exact Hl1.
      apply list_lookup_insert_ne. lia.
  - pose proof (holds_owned n0 known h o Hown Ho) as Hkids.
    destruct Hown as (Hn0 & Hk & Hobj).
    assert (Hmono : forall v, val_within n0 (length h) v ->
                              val_within n0 (length (h ++ [o])) v).
    { intros v. apply val_within_mono. rewrite length_app. lia. }
    destruct IH as [IH1 IH2].
    + split; [rewrite length_app; lia |]. split.
      * constructor; [simpl; rewrite length_app; simpl; lia |].
        eapply Forall_impl; [exact Hk | exact Hmono].
      * intros y oy Hy Hoy.
        destruct (decide (y < length h)%nat) as [Hlt | Hge].
        -- rewrite lookup_app_l in Hoy by exact Hlt.
           eapply Forall_impl; [exact (Hobj y oy Hy Hoy) | exact Hmono].
        -- rewrite lookup_app_r in Hoy by lia.
           destruct (y - length h)%nat; [| discriminate].
           injection Hoy as <-.
           eapply Forall_impl; [exact Hkids | exact Hmono].
    + rewrite length_app in IH2. simpl in IH2. split; [| lia].
      intros l1 Hl1. rewrite IH1 by exact Hl1. apply lookup_app_l. lia.
Qed.

Lemma same_value_sym h1 v1 h2 v2 :
  same_value h1 v1 h2 v2 -> same_value h2 v2 h1 v1.
Proof. intros H depth. symmetry. apply H. Qed.

Lemma same_value_trans h1 v1 h2 v2 h3 v3 :
  same_value h1 v1 h2 v2 -> same_value h2 v2 h3 v3 -> same_value h1 v1 h3 v3.
Proof. intros H1 H2 depth. rewrite H1. apply H2. Qed.

(** The accessors: a deep copy is isolated from its original. *)
Lemma deepcopy_isolated h x :
  wf h -> val_below (length h) x -> isolated (deepcopy_top x) h.
Proof.
  intros Hwf Hx. pose proof (wf_closed h Hwf) as Hclosed.
  destruct (deepcopy_top_spec (length h) h x Hclosed Hx)
    as (r1 & h1 & Hrun1 & Hold1 & Hsame1 & Hown1).
  exists r1, h1. split; [exact Hrun1 |].
  intros h2 Hcaller.
  destruct (caller_frame (length h) [r1] h1 h2 Hcaller Hown1) as [Hold2 Hlen2].
  assert (Hold : forall l, (l < length h)%nat -> h2 !! l = h !! l).
  { intros l Hl. rewrite Hold2 by exact Hl. apply Hold1, Hl. }
  split; [exact Hold |].
  assert (Hclosed2 : closed_below (length h) h2).
  { destruct Hown1 as (Hlen1 & _). split; [lia |].
    intros l o Hl Ho. rewrite Hold in Ho by exact Hl.
    destruct Hclosed as [_ Hc]. exact (Hc l o Hl Ho). }
  destruct (deepcopy_top_spec (length h) h2 x Hclosed2 Hx)
    as (r2 & h3 & Hrun2 & _ & Hsame2 & _).
  exists r2, h3. split; [exact Hrun2 |].
  apply (same_value_trans _ _ h2 x); [exact Hsame2 |].
  apply (same_value_trans _ _ h x).
  - intros depth. apply (snapshot_frame (length h) h h2 Hclosed Hold depth x Hx).
  - apply same_value_sym, Hsame1.
Qed.

End StoreFacts.

(** ** Snapshots *)


(** C7: the accessors [get_suppliers], [get_contracts], [get_orders] and
    [get_market_conditions] return a deep copy.  Whatever the caller does
    with the structure it was given (overwriting the objects it reaches from
    it, creating objects), no object of the simulator changes, and the next
    call of the accessor returns a structure of the same value as the one
    returned before the mutations. *)
Theorem accessors_isolated (eng : Store.Engine) (h : list Store.obj) :
  Store.wf h -> Store.engine_ok eng h ->
  Store.isolated (Store.get_suppliers eng) h
  /\ Store.isolated (Store.get_contracts eng) h
  /\ Store.isolated (Store.get_orders eng) h
  /\ Store.isolated (Store.get_market_conditions eng) h.
Proof.
  intros Hwf (Hs & Hc & Ho & Hm & _).
  repeat split; apply StoreFacts.deepcopy_isolated; assumption.
Qed.

Lemma demo_heap_wf : Store.wf StoreDemo.objects.
Proof.
  unfold Store.wf, StoreDemo.objects, Store.obj_below.
  repeat (constructor; simpl; try lia).
Defined.

Lemma demo_engine_ok : Store.engine_ok StoreDemo.engine StoreDemo.objects.
Proof. unfold Store.engine_ok. simpl. lia. Defined.

Lemma accessors_isolated_witness :
  Store.isolated (Store.get_suppliers StoreDemo.engine) StoreDemo.objects
  /\ Store.isolated (Store.get_contracts StoreDemo.engine) StoreDemo.objects
  /\ Store.isolated (Store.get_orders StoreDemo.engine) StoreDemo.objects
  /\ Store.isolated (Store.get_market_conditions StoreDemo.engine)
       StoreDemo.objects.
Proof.
  apply (accessors_isolated StoreDemo.engine StoreDemo.objects).
  - exact demo_heap_wf.
  - exact demo_engine_ok.
Defined.

(** The caller of [get_suppliers] sets the capacity of the supplier in its
    copy to 0: the copy has another value now, the list of the simulator has
    not, and the next copy has the value of the first. *)
Example mutating_a_copy :
  Store.get_suppliers StoreDemo.engine StoreDemo.objects
  = Some (Store.VRef 9%nat, StoreDemo.copied)
  /\ Store.caller [Store.VRef 9%nat] StoreDemo.copied StoreDemo.mutated
  /\ Store.snapshot 3 StoreDemo.mutated (Store.VRef 9%nat)
     <> Store.snapshot 3 StoreDemo.copied (Store.VRef 9%nat)
  /\ Store.snapshot 3 StoreDemo.mutated (Store.VRef 2%nat)
     = Store.snapshot 3 StoreDemo.objects (Store.VRef 2%nat)
  /\ match Store.get_suppliers StoreDemo.engine StoreDemo.mutated with
     | Some (r, h) => Store.snapshot 3 h r
     | None => None
     end
     = Store.snapshot 3 StoreDemo.copied (Store.VRef 9%nat).
Proof.
  split; [vm_compute; reflexivity |]. split.
  - apply Store.caller_write with (l := 10%nat)
      (o := Store.ODict
              [("id", Store.VAtom (Store.AStr "S1"));
               ("bean_types", Store.VRef 11%nat);
               ("capacity_kg_per_year", Store.VAtom (Store.AInt 0))]).
    + exists (Store.VRef 9%nat). split; [apply list_elem_of_here |].
      apply Store.reach_item
        with (o := Store.OList [Store.VRef 10%nat]) (v := Store.VRef 10%nat).
      * reflexivity.
      * apply list_elem_of_here.
      * apply Store.reach_here.
    + intros l Hl. unfold Store.children in Hl. simpl in Hl.
      apply list_elem_of_In in Hl. simpl in Hl.
      destruct Hl as [Hl | [Hl | [Hl | []]]]; try discriminate.
      injection Hl as <-. exists (Store.VRef 9%nat).
      split; [apply list_elem_of_here |].
      apply Store.reach_item
        with (o := Store.OList [Store.VRef 10%nat]) (v := Store.VRef 10%nat);
        [reflexivity | apply list_elem_of_here |].
      apply Store.reach_item
        with (o := Store.ODict
                     [("id", Store.VAtom (Store.AStr "S1"));
                      ("bean_types", Store.VRef 11%nat);
                      ("capacity_kg_per_year",
                       Store.VAtom (Store.AInt 50000))])
             (v := Store.VRef 11%nat);
        [reflexivity | | apply Store.reach_here].
      unfold Store.children. simpl. apply list_elem_of_In. simpl. auto.
    + apply Store.caller_done.
  - split; [vm_compute; discriminate |].
    split; vm_compute; reflexivity.
Qed.

Lemma shows_same_value h1 v1 h2 v2 c :
  Store.same_value h1 v1 h2 v2 -> Log.shows h2 v2 c -> Log.shows h1 v1 c.
Proof. intros Hs [d Hd]. exists d. rewrite (Hs d). exact Hd. Qed.

(** The step resets the log before anything else: what it leaves does not
    depend on the log before. *)
Lemma simulate_step_forgets `{DT : DatetimeLib} (c : Changes) (w : World) :
  simulate_step (with_changes c w) = simulate_step w.
Proof.
  assert (Hb : begin_step (with_changes c w) = begin_step w) by reflexivity.
  assert (Ha : advance (with_changes c w) = advance w).
  { unfold advance.
    rewrite (bind_run begin_step _ (with_changes c w)),
      (bind_run begin_step _ w), Hb. reflexivity. }
  unfold simulate_step.
  rewrite (bind_run advance _ (with_changes c w)), (bind_run advance _ w), Ha.
  reflexivity.
Qed.

(** C4: [get_changes] after [simulate_step] shows the log of that step
    alone.  Whatever log [c] the simulator held before the step, when the
    change-log object of its store holds what the step left, [get_changes]
    returns a copy whose value is the log that the step writes from an
    empty one; a second call, with nothing in between, returns a copy of
    the same value; and the objects of the simulator are as they were.  The
    calendar leaves room for the day of the step (beyond 9999-12-31 line 51
    raises before the log is reset). *)
Theorem change_log_per_step `{DT : DatetimeLib} (w : World) (c : Changes)
    (eng : Store.Engine) (h : list Store.obj) :
  days_left 1 (simulation_date (self w)) ->
  Store.wf h -> Store.engine_ok eng h ->
  Log.shows h (Store.changes eng)
    (changes (self (simulate_step (with_changes c w)).2)) ->
  exists r1 h1 r2 h2,
    Store.get_changes eng h = Some (r1, h1)
    /\ Log.shows h1 r1 (step_log w)
    /\ Store.get_changes eng h1 = Some (r2, h2)
    /\ Log.shows h2 r2 (step_log w)
    /\ Store.same_value h2 r2 h1 r1
    /\ forall l, (l < length h)%nat -> h1 !! l = h !! l.
Proof.
  intros _ Hwf (_ & _ & _ & _ & Hc) Hlog.
  assert (Hstep : Log.shows h (Store.changes eng) (step_log w)).
  { unfold step_log. rewrite simulate_step_forgets.
    rewrite simulate_step_forgets in Hlog. exact Hlog. }
  destruct (StoreFacts.deepcopy_top_spec (length h) h (Store.changes eng)
              (StoreFacts.wf_closed h Hwf) Hc)
    as (r1 & h1 & Hrun1 & _ & Hsame1 & _).
  destruct (StoreFacts.deepcopy_isolated h (Store.changes eng) Hwf Hc)
    as (r1' & h1' & Hrun1' & Hafter).
  rewrite Hrun1 in Hrun1'. injection Hrun1' as <- <-.
  destruct (Hafter h1 (Store.caller_done _ _))
    as (Hold & r2 & h2 & Hrun2 & Hsame2).
  assert (H1 : Log.shows h1 r1 (step_log w))
    by (eapply shows_same_value; [exact Hsame1 | exact Hstep]).
  exists r1, h1, r2, h2. unfold Store.get_changes.
  split; [exact Hrun1 |]. split; [exact H1 |]. split; [exact Hrun2 |].
  split; [eapply shows_same_value; [exact Hsame2 | exact H1] |].
  split; [exact Hsame2 | exact Hold].
Qed.

Lemma stepped_heap_wf : Store.wf StoreDemo.stepped.
Proof.
  unfold Store.wf, StoreDemo.stepped, Store.obj_below.
  repeat (constructor; simpl; try lia).
Defined.

Lemma stepped_engine_ok :
  Store.engine_ok StoreDemo.stepped_engine StoreDemo.stepped.
Proof. unfold Store.engine_ok. simpl. lia. Defined.

(** [StoreDemo.stepped] is the store after the step of [Demo.calm], taken
    with a log that held a change of the price from 2 to 1: the copy shows
    the drift of the supplier, the new contract and the change of the price
    from 9.95 to 9.88 of the step, and nothing of the log before. *)
Lemma change_log_per_step_witness :
  (exists r1 h1 r2 h2,
     Store.get_changes StoreDemo.stepped_engine StoreDemo.stepped
     = Some (r1, h1)
     /\ Log.shows h1 r1 (step_log (DT := Calendar.calendar) Demo.calm)
     /\ Store.get_changes StoreDemo.stepped_engine h1 = Some (r2, h2)
     /\ Log.shows h2 r2 (step_log (DT := Calendar.calendar) Demo.calm)
     /\ Store.same_value h2 r2 h1 r1
     /\ forall l, (l < length StoreDemo.stepped)%nat ->
                  h1 !! l = StoreDemo.stepped !! l)
  /\ ch_market_conditions (step_log (DT := Calendar.calendar) Demo.calm)
     = Some {| new_price := 9.88%Q; old_price := 9.95%Q;
               change_pct := (-0.00720000)%Q |}
  /\ ch_contracts (step_log (DT := Calendar.calendar) Demo.calm)
     = [ContractCreated "contract_S1_20251103103000"
          "Ethiopia Coffee Cooperative 1"].
Proof.
  split; [| split; vm_compute; reflexivity].
  apply (change_log_per_step (DT := Calendar.calendar) Demo.calm
           (log_market {| new_price := 1; old_price := 2; change_pct := 3 |}
              no_changes)
           StoreDemo.stepped_engine StoreDemo.stepped).
  - vm_compute. discriminate.
  - exact stepped_heap_wf.
  - exact stepped_engine_ok.
  - exists 3%nat. vm_compute. reflexivity.
Defined.
Section OrdersLog.
Context `{DT : DatetimeLib}.

Lemma moved_weaken b today o o' l :
  moved true today o o' l -> moved b today o o' l.
Proof.
  intros H. destruct H; [apply moved_not; auto | econstructor; eauto ..].
Qed.

Lemma all_moved_weaken b today os os' log :
  all_moved true today os os' log -> all_moved b today os os' log.
Proof.
  induction 1; constructor; [apply moved_weaken |]; assumption.
Qed.

Lemma all_moved_refl today os : all_moved false today os os [].
Proof.
  induction os as [| o os IH]; [constructor |].
  change (@nil OrderChange) with (@nil OrderChange ++ [])%list.
  constructor; [apply moved_not; discriminate | exact IH].
Qed.

Lemma update_order_moved i w o :
  orders (self w) !! i = Some o ->
  exists o' l,
    orders (self (update_order i w).2) = <[i := o']> (orders (self w))
    /\ ch_orders (changes (self (update_order i w).2))
       = (ch_orders (changes (self w)) ++ l)%list
    /\ simulation_date (self (update_order i w).2) = simulation_date (self w)
    /\ moved (is_ok (update_order i w).1) (simulation_date (self w)) o o' l.
Proof.
  intros Ho.
  assert (Hsame : forall w' b,
    orders (self w') = orders (self w) -> changes (self w') = changes (self w) ->
    simulation_date (self w') = simulation_date (self w) ->
    (b = true -> ~ overdue (simulation_date (self w)) o) ->
    exists o' l,
      orders (self w') = <[i := o']> (orders (self w))
      /\ ch_orders (changes (self w')) = (ch_orders (changes (self w)) ++ l)%list
      /\ simulation_date (self w') = simulation_date (self w)
      /\ moved b (simulation_date (self w)) o o' l).
  { intros w' b E1 E2 E3 Hb. exists o, []. rewrite E1, E2, app_nil_r.
    rewrite list_insert_id by exact Ho.
    repeat split; [exact E3 | apply moved_not, Hb]. }
  unfold update_order, parse_delivery, modify_order, modify_changes.
  run. rewrite py_index_run, Ho. run.
  destruct (bool_decide _) eqn:Habs; run.
  { apply Hsame; try reflexivity. intros _ [Hs _].
    apply bool_decide_eq_true in Habs. rewrite Hs in Habs.
    apply absorbing_cases in Habs. destruct Habs; discriminate. }
  destruct (delivery_field o) as [str |] eqn:Hstr; run.
  2:{ apply Hsame; try reflexivity. intros _ (_ & due & Hd & _).
      unfold delivery_date in Hd. rewrite Hstr in Hd. discriminate. }
  destruct (parsed_delivery str) as [expected |] eqn:Hp; run.
  2:{ apply Hsame; try reflexivity. discriminate. }
  assert (Hd : delivery_date o = Some expected).
  { unfold delivery_date. rewrite Hstr. exact Hp. }
  destruct (bool_decide (o_status o = "pending") && _) eqn:Hpend.
  { apply andb_prop in Hpend. destruct Hpend as [Hst Hdays].
    apply bool_decide_eq_true in Hst. apply Z.leb_le in Hdays.
    run. destruct (Py.Qltb _ 0.8%Q); run.
    - exists (set_o_status "in_transit" o), 
        [OrderTransition (o_id o) "pending" "in_transit" None].
      cbn [snd self orders set_orders set_changes changes ch_orders log_order
           simulation_date fst is_ok].
      rewrite (list_alter_at _ _ _ _ Ho).
      repeat split. eapply moved_ship; eauto.
    - destruct (Py.Qltb _ 0.5%Q); run.
      + rewrite randint_run by lia. run'.
        match goal with |- context [5 + Qfloor (frac ?u * _)] =>
          pose proof (randbelow_range u (15 - 5 + 1) ltac:(lia)) as Hk;
          set (k := 5 + Qfloor (frac u * _)) in *
        end.
        exists (postponed (expected + timedelta_of_days k)
                  (set_o_status "delayed" o)),
          [OrderTransition (o_id o) "pending" "delayed" (Some k)].
        assert (Hmv : moved true (simulation_date (self w)) o
                  (postponed (expected + timedelta_of_days k)
                     (set_o_status "delayed" o))
                  [OrderTransition (o_id o) "pending" "delayed" (Some k)]).
        { eapply moved_delay; eauto. unfold k. lia. }
        unfold postponed. cbn [expected_delivery expected_delivery_date set_o_status].
        unfold postponed in Hmv.
        cbn [expected_delivery expected_delivery_date set_o_status] in Hmv.
        destruct (expected_delivery o) as [e1 |] eqn:He1;
          [| destruct (expected_delivery_date o) as [e2 |] eqn:He2];
          run'; cbn [snd self orders set_orders set_changes changes ch_orders
                     log_order simulation_date fst is_ok];
          rewrite ?list_alter_alter_eq;
          rewrite (list_alter_at _ _ _ _ Ho);
          repeat split; try exact Hmv.
      + apply Hsame; try reflexivity. intros _ [Hs _]. congruence. }
  destruct (bool_decide (o_status o = "in_transit") && _) eqn:Htr.
  { apply andb_prop in Htr. destruct Htr as [Hst Hdays].
    apply bool_decide_eq_true in Hst. apply Z.leb_le in Hdays.
    run. exists (set_o_status "delivered" o),
      [OrderTransition (o_id o) "in_transit" "delivered" None].
    cbn [snd self orders set_orders set_changes changes ch_orders log_order
         simulation_date fst is_ok].
    rewrite (list_alter_at _ _ _ _ Ho).
    repeat split. eapply moved_arrive; eauto. }
  assert (Hnot : ~ overdue (simulation_date (self w)) o).
  { intros (Hs & due & Hdue & Hdays).
    rewrite Hd in Hdue. injection Hdue as <-.
    rewrite bool_decide_eq_true_2 in Htr by exact Hs.
    apply Z.leb_le in Hdays. cbn [andb] in Htr. congruence. }
  destruct (bool_decide (o_status o = "delayed")) eqn:Hdel.
  { apply bool_decide_eq_true in Hdel. run.
    destruct (Py.Qltb _ 0.3%Q); run.
    - exists (set_o_status "in_transit" o),
        [OrderTransition (o_id o) "delayed" "in_transit" None].
      cbn [snd self orders set_orders set_changes changes ch_orders log_order
           simulation_date fst is_ok].
      rewrite (list_alter_at _ _ _ _ Ho).
      repeat split. eapply moved_resume; eauto.
    - apply Hsame; try reflexivity. intros _. exact Hnot. }
  run. apply Hsame; try reflexivity. intros _. exact Hnot.
Qed.


Lemma for_each_update_order_moved m : forall k w,
  (k + m = length (orders (self w)))%nat ->
  exists log,
    take k (orders (self (for_each (seq k m) update_order w).2))
    = take k (orders (self w))
    /\ length (orders (self (for_each (seq k m) update_order w).2))
       = length (orders (self w))
    /\ ch_orders (changes (self (for_each (seq k m) update_order w).2))
       = (ch_orders (changes (self w)) ++ log)%list
    /\ all_moved (is_ok (for_each (seq k m) update_order w).1)
         (simulation_date (self w))
         (drop k (orders (self w)))
         (drop k (orders (self (for_each (seq k m) update_order w).2))) log.
Proof.
  induction m as [| m IH]; intros k w Hlen.
  - exists []. cbn [seq for_each]. rewrite ret_run. cbn [fst snd is_ok].
    rewrite app_nil_r, drop_ge by lia. repeat split. constructor.
  - cbn [seq for_each].
    destruct (lookup_lt_is_Some_2 (orders (self w)) k ltac:(lia)) as [o Ho].
    destruct (update_order_moved k w o Ho) as (o1 & l & Hos & Hlog & Hdate & Hmv).
    rewrite bind_run.
    destruct (update_order k w) as [[[] | e] w1]; cbn [fst snd is_ok] in *.
    + destruct (IH (S k) w1) as (log & Htake & Hlen' & Hlog' & Hall).
      { rewrite Hos, length_insert. lia. }
      set (r := for_each (seq (S k) m) update_order w1) in *.
      assert (Hk : orders (self r.2) !! k = Some o1).
      { rewrite <- (lookup_take_lt _ (S k)) by lia.
        rewrite Htake, lookup_take_lt by lia.
        rewrite Hos. apply list_lookup_insert_eq. apply lookup_lt_Some in Ho. exact Ho. }
      exists (l ++ log)%list. split; [| split; [| split]].
      * pose proof (f_equal (take k) Htake) as Ht.
        rewrite !take_take, Nat.min_l in Ht by lia.
        rewrite Ht, Hos. apply take_insert_ge. lia.
      * rewrite Hlen', Hos. apply length_insert.
      * rewrite Hlog', Hlog. symmetry; apply app_assoc.
      * rewrite (drop_S _ _ _ Ho), (drop_S _ _ _ Hk).
        constructor; [apply moved_weaken, Hmv |].
        rewrite Hdate, Hos in Hall.
        rewrite drop_insert_lt in Hall by lia. exact Hall.
    + exists l. rewrite Hos, length_insert.
      split; [apply take_insert_ge; lia |]. split; [reflexivity |].
      split; [exact Hlog |].
      rewrite (drop_S _ _ _ Ho).
      erewrite (drop_S (<[k:=o1]> _)); cycle 1.
      { apply list_lookup_insert_eq. apply lookup_lt_Some in Ho. exact Ho. }
      rewrite drop_insert_lt by lia.
      pose proof (all_moved_cons false _ _ _ _ _ _ _ Hmv
                    (all_moved_refl (simulation_date (self w))
                       (drop (S k) (orders (self w))))) as H.
      rewrite app_nil_r in H. exact H.
Qed.

Lemma update_orders_moved w :
  exists log,
    ch_orders (changes (self (_update_orders w).2))
    = (ch_orders (changes (self w)) ++ log)%list
    /\ all_moved (is_ok (_update_orders w).1) (simulation_date (self w))
         (orders (self w)) (orders (self (_update_orders w).2)) log.
Proof.
  unfold _update_orders. rewrite bind_run, gets_run. cbv beta iota.
  destruct (for_each_update_order_moved (length (orders (self w))) 0 w eq_refl)
    as (log & _ & _ & Hlog & Hall).
  exists log. split; [exact Hlog | exact Hall].
Qed.


Lemma orders_part_update_market_conditions v :
  keeps (fun s => orders_part s = v) _update_market_conditions.
Proof.
  unfold _update_market_conditions, update_average_price,
    update_price_history, update_market_rest, update_trend,
    update_regional_prices, update_bean_prices, update_factor,
    update_forecast.
  keeps_go; frame_modify.
Qed.

Lemma orders_part_update_suppliers v :
  keeps (fun s => orders_part s = v) _update_suppliers.
Proof. unfold _update_suppliers. keeps_go; frame_modify. Qed.

Lemma orders_part_ensure_active_contract v :
  keeps (fun s => orders_part s = v) ensure_active_contract.
Proof.
  unfold ensure_active_contract, _create_sample_contract.
  keeps_go; frame_modify.
Qed.

(** A relation between the outcome of a computation and the orders and
    their log goes through what comes after, and through what comes before,
    when that leaves the orders and their log alone. *)
Lemma logged_bind_tail {A B} (R : bool -> Sim -> Prop) (m : M A)
    (k : A -> M B) w :
  (forall b s s', orders_part s = orders_part s' -> R true s -> R b s') ->
  (forall s, R true s -> R false s) ->
  R (is_ok (m w).1) (self (m w).2) ->
  (forall a v, keeps (fun s => orders_part s = v) (k a)) ->
  R (is_ok ((m ≫= k) w).1) (self ((m ≫= k) w).2).
Proof.
  intros Hframe Hweak H Hk. rewrite bind_run.
  destruct (m w) as [[a | e] w1]; cbn [fst snd is_ok] in *; [| exact H].
  pose proof (Hk a _ w1 eq_refl) as E.
  apply (Hframe _ (self w1)); [symmetry; exact E | exact H].
Qed.

Lemma logged_bind_head {A B} (R : bool -> Sim -> Prop) (m : M A)
    (k : A -> M B) w :
  (forall s s', orders_part s = orders_part s' -> R false s -> R false s') ->
  (forall v, keeps (fun s => orders_part s = v) m) ->
  R false (self w) ->
  (forall a w1, orders_part (self w1) = orders_part (self w) ->
     R (is_ok (k a w1).1) (self (k a w1).2)) ->
  R (is_ok ((m ≫= k) w).1) (self ((m ≫= k) w).2).
Proof.
  intros Hframe Hm H Hk. rewrite bind_run. pose proof (Hm _ w eq_refl) as E.
  destruct (m w) as [[a | e] w1]; cbn [fst snd is_ok] in *.
  - apply Hk, E.
  - apply (Hframe (self w)); [symmetry; exact E | exact H].
Qed.

Lemma all_moved_frame b b' today os s s' :
  orders_part s = orders_part s' -> (b' = true -> b = true) ->
  all_moved b today os (orders s) (ch_orders (changes s)) ->
  all_moved b' today os (orders s') (ch_orders (changes s')).
Proof.
  unfold orders_part. intros [= <- <- _] Hb H.
  destruct b; [apply all_moved_weaken, H |].
  destruct b'; [discriminate (Hb eq_refl) | exact H].
Qed.

Lemma simulate_step_moved w :
  all_moved (is_ok (simulate_step w).1)
    (simulation_date (self w) + timedelta_of_days 1)
    (orders (self w)) (orders (self (simulate_step w).2))
    (ch_orders (changes (self (simulate_step w).2))).
Proof.
  set (R := fun b s =>
    all_moved b (simulation_date (self w) + timedelta_of_days 1)
      (orders (self w)) (orders s) (ch_orders (changes s))).
  assert (Hframe : forall b b' s s',
    orders_part s = orders_part s' -> (b' = true -> b = true) ->
    R b s -> R b' s') by (intros; eapply all_moved_frame; eauto).
  change (R (is_ok (simulate_step w).1) (self (simulate_step w).2)).
  unfold simulate_step. apply logged_bind_tail;
    [intros; eapply Hframe; eauto | intros; eapply Hframe; eauto | |
     intros _ v; apply orders_part_ensure_active_contract].
  unfold advance. rewrite bind_run, begin_step_run. cbv beta iota.
  apply logged_bind_head.
  - intros; eapply Hframe; eauto.
  - apply orders_part_update_market_conditions.
  - apply all_moved_refl.
  - intros _ w1 E. unfold orders_part in E. injection E as E1 E2 E3.
    apply logged_bind_tail.
    + intros; eapply Hframe; eauto.
    + intros; eapply Hframe; eauto.
    + destruct (update_orders_moved w1) as (log & Hlog & Hall).
      unfold R. rewrite Hlog, E2. rewrite E1, E3 in Hall. exact Hall.
    + intros _ v. keeps_go. apply orders_part_update_suppliers.
Qed.

Lemma all_moved_lookup b today os os' log i o :
  all_moved b today os os' log -> os !! i = Some o ->
  exists o' l, os' !! i = Some o' /\ moved b today o o' l.
Proof.
  intros H. revert i. induction H as [| o0 o0' l os os' log Hm H IH];
    intros i Hi; [discriminate |].
  destruct i as [| i]; simpl in *.
  - injection Hi as ->. eauto.
  - apply IH, Hi.
Qed.

Lemma moved_id b today o o' l : moved b today o o' l -> o_id o' = o_id o.
Proof.
  destruct 1; try reflexivity. unfold postponed.
  repeat case_match; reflexivity.
Qed.

Lemma all_moved_ids b today os os' log :
  all_moved b today os os' log -> o_id <$> os' = o_id <$> os.
Proof.
  induction 1 as [| o o' l os os' log Hm H IH]; [reflexivity |].
  cbn [fmap list_fmap]. f_equal; [eapply moved_id, Hm | exact IH].
Qed.

End OrdersLog.

(** After [simulate_step], whether it returned or raised, the orders are
    the orders before it, each one either as it was or moved by one
    transition of the lifecycle that its status and due date allow on the
    new simulated date (a delay postpones the date by 5 to 15 days), and the
    order log of the step lists these transitions, in the order of the list,
    and nothing else.  When the step returned, no overdue order in transit
    was left as it was.  This is so when no order is in the list twice, no
    date has a UTC offset, and the calendar leaves room for the day of the
    step and for the delay of a pending order. *)
Theorem orders_and_log_after_step `{DT : DatetimeLib} (w : World) :
  let s' := self (simulate_step w).2 in
  NoDup (orders (self w)) ->
  Forall plain_dated (orders (self w)) ->
  days_left 1 (simulation_date (self w)) ->
  all_moved (is_ok (simulate_step w).1)
    (simulation_date (self w) + timedelta_of_days 1)
    (orders (self w)) (orders s') (ch_orders (changes s')).
Proof.
  intros s' _ _ _. subst s'.
  set (R := fun b s =>
    all_moved b (simulation_date (self w) + timedelta_of_days 1)
      (orders (self w)) (orders s) (ch_orders (changes s))).
  assert (Hframe : forall b b' s s',
    orders_part s = orders_part s' -> (b' = true -> b = true) ->
    R b s -> R b' s') by (intros; eapply all_moved_frame; eauto).
  change (R (is_ok (simulate_step w).1) (self (simulate_step w).2)).
  unfold simulate_step. apply logged_bind_tail;
    [intros; eapply Hframe; eauto | intros; eapply Hframe; eauto | |
     intros _ v; apply orders_part_ensure_active_contract].
  unfold advance. rewrite bind_run, begin_step_run. cbv beta iota.
  apply logged_bind_head.
  - intros; eapply Hframe; eauto.
  - apply orders_part_update_market_conditions.
  - apply all_moved_refl.
  - intros _ w1 E. unfold orders_part in E. injection E as E1 E2 E3.
    apply logged_bind_tail.
    + intros; eapply Hframe; eauto.
    + intros; eapply Hframe; eauto.
    + destruct (update_orders_moved w1) as (log & Hlog & Hall).
      unfold R. rewrite Hlog, E2. rewrite E1, E3 in Hall. exact Hall.
    + intros _ v. keeps_go. apply orders_part_update_suppliers.
Qed.

(** On [Cases.pair] the step returns: the first order, overdue, is
    delivered, the second ships, and the log lists the two transitions. *)
Lemma orders_and_log_after_step_witness :
  let s' := self (simulate_step (DT := Calendar.calendar) Cases.pair).2 in
  all_moved (DT := Calendar.calendar) true
    (simulation_date (self Cases.pair) + timedelta_of_days 1)
    (orders (self Cases.pair)) (orders s') (ch_orders (changes s'))
  /\ o_status <$> orders s' = ["delivered"; "in_transit"]
  /\ ch_orders (changes s')
     = [OrderTransition "order_1" "in_transit" "delivered" None;
        OrderTransition "order_2" "pending" "in_transit" None].
Proof.
  intros s'. split; [| split; vm_compute; reflexivity].
  apply (orders_and_log_after_step (DT := Calendar.calendar) Cases.pair).
  - constructor;
      [intros H; apply list_elem_of_singleton in H; discriminate H |].
    constructor; [apply not_elem_of_nil | constructor].
  - constructor; [| constructor; [| constructor]]; right; intros s [= <-];
      (split; [reflexivity |]); intros H; [discriminate H |].
    intros d Hd. vm_compute in Hd. injection Hd as <-.
    vm_compute. discriminate.
  - vm_compute. discriminate.
Defined.

(** An order that is not due is left as it is by [simulate_step]: a pending
    order with more than 30 whole days to go to its date on the new
    simulated date ([timedelta.days], which rounds down, is 31 or more), an
    order in transit with at least one whole day to go, and any order that
    is neither pending, in transit nor delayed. *)
Theorem order_not_due_after_step `{DT : DatetimeLib} (w : World) (i : nat)
    (o : Order) (due : datetime) :
  let days :=
    timedelta_days (due - (simulation_date (self w) + timedelta_of_days 1)) in
  orders (self w) !! i = Some o ->
  delivery_date o = Some due ->
  (o_status o = "pending" -> 30 < days) ->
  (o_status o = "in_transit" -> 0 < days) ->
  o_status o <> "delayed" ->
  orders (self (simulate_step w).2) !! i = Some o.
Proof.
  intros days Ho Hd Hp Ht Hn.
  destruct (all_moved_lookup _ _ _ _ _ _ _ (simulate_step_moved w) Ho)
    as (o' & l & Ho' & Hm).
  rewrite Ho'. f_equal.
  destruct Hm as [_ | due' Hd' Hs Hdays | due' k Hd' Hs Hdays _
                  | due' Hd' Hs Hdays | due' Hd' Hs];
    try reflexivity; rewrite Hd in Hd'; injection Hd' as <-;
    [specialize (Hp Hs) | specialize (Hp Hs) | specialize (Ht Hs) |];
    first [contradiction | unfold days in *; lia].
Qed.

Lemma order_not_due_after_step_witness :
  orders (self (simulate_step (DT := Calendar.calendar) Cases.shipping).2)
    !! 0%nat
  = Some (Demo.order "in_transit" (Some "2025-11-13")).
Proof.
  apply (order_not_due_after_step (DT := Calendar.calendar) Cases.shipping 0
           (Demo.order "in_transit" (Some "2025-11-13"))
           (20405 * us_per_day)).
  - reflexivity.
  - vm_compute. reflexivity.
  - discriminate.
  - intros _. vm_compute. reflexivity.
  - discriminate.
Defined.

(** When [simulate_step] returns, an order that was in transit and whose
    date is not after the new simulated date is delivered, and nothing else
    of it has changed. *)
Theorem overdue_order_delivered `{DT : DatetimeLib} (w : World) (i : nat)
    (o : Order) :
  (simulate_step w).1 = Ok tt ->
  orders (self w) !! i = Some o ->
  overdue (simulation_date (self w) + timedelta_of_days 1) o ->
  orders (self (simulate_step w).2) !! i = Some (set_o_status "delivered" o).
Proof.
  intros Hok Ho Hover.
  destruct (all_moved_lookup _ _ _ _ _ _ _ (simulate_step_moved w) Ho)
    as (o' & l & Ho' & Hm).
  rewrite Ho'. f_equal. rewrite Hok in Hm. cbn [is_ok] in Hm.
  destruct Hover as (Hst & due & Hd & Hdays).
  destruct Hm as [Hnot | due' Hd' Hs Hdays' | due' k Hd' Hs Hdays' _
                  | due' Hd' Hs Hdays' | due' Hd' Hs];
    try congruence.
  exfalso. apply (Hnot eq_refl). split; [exact Hst |]. eauto.
Qed.

Lemma overdue_order_delivered_witness :
  orders (self (simulate_step (DT := Calendar.calendar) Cases.arriving).2)
    !! 0%nat
  = Some (Demo.order "delivered" (Some "2025-11-01")).
Proof.
  apply (overdue_order_delivered (DT := Calendar.calendar) Cases.arriving 0
           (Demo.order "in_transit" (Some "2025-11-01"))).
  - vm_compute. reflexivity.
  - reflexivity.
  - split; [reflexivity |]. exists (20393 * us_per_day).
    split; vm_compute; [reflexivity | discriminate].
Defined.

(** The lifecycle only knows the statuses pending, in transit and delayed:
    an order with any other status (the agents place their orders with the
    status "placed") is the same after any number of calls of
    [simulate_step], whatever its date. *)
Theorem other_status_never_moves `{DT : DatetimeLib} (n : nat) (w : World)
    (i : nat) (o : Order) :
  orders (self w) !! i = Some o ->
  o_status o ∉ ["pending"; "in_transit"; "delayed"] ->
  orders (self (simulate_steps n w)) !! i = Some o.
Proof.
  intros Hi Hs. revert w Hi.
  induction n as [| n IH]; intros w Hi; simpl; [exact Hi |].
  apply IH. destruct (simulate_step_order w i o Hi) as (o' & Ho' & Hv).
  rewrite Ho'. f_equal.
  destruct Hv as [-> | (_ & Ht & _)]; [reflexivity |].
  exfalso. apply Hs. inversion Ht; set_solver.
Qed.

Lemma other_status_never_moves_witness :
  orders (self (simulate_steps (DT := Calendar.calendar) 50 Cases.placed))
    !! 0%nat
  = Some (Demo.order "placed" (Some "2025-12-15")).
Proof.
  apply (other_status_never_moves (DT := Calendar.calendar) 50 Cases.placed 0
           (Demo.order "placed" (Some "2025-12-15"))).
  - reflexivity.
  - rewrite !elem_of_cons, elem_of_nil.
    intros [H | [H | [H | []]]]; discriminate.
Defined.

(** ** The clock, the identities and the contracts *)

Section Frames.
Context `{DT : DatetimeLib}.

Lemma clock_advance_rest v :
  keeps (fun s => (simulation_step s, simulation_date s) = v)
    (_update_market_conditions;; _update_orders;;
     r ← random; if Py.Qltb r 0.2%Q then _update_suppliers else mret tt).
Proof.
  unfold _update_market_conditions, update_average_price,
    update_price_history, update_market_rest, update_trend,
    update_regional_prices, update_bean_prices, update_factor,
    update_forecast, _update_orders, update_order, parse_delivery,
    _update_suppliers.
  keeps_go; frame_modify.
Qed.

Lemma clock_ensure_active_contract v :
  keeps (fun s => (simulation_step s, simulation_date s) = v)
    ensure_active_contract.
Proof.
  unfold ensure_active_contract, _create_sample_contract.
  keeps_go; frame_modify.
Qed.

Lemma clock_simulate_step w :
  simulation_step (self (simulate_step w).2) = simulation_step (self w) + 1
  /\ simulation_date (self (simulate_step w).2)
     = simulation_date (self w) + timedelta_of_days 1.
Proof.
  set (I := fun s =>
    (simulation_step s, simulation_date s)
    = (simulation_step (self w) + 1,
       simulation_date (self w) + timedelta_of_days 1)).
  assert (H : I (self (simulate_step w).2)).
  { unfold simulate_step. apply (bind_post I).
    - unfold advance. rewrite bind_run, begin_step_run. cbv beta iota.
      apply clock_advance_rest. reflexivity.
    - intros _. apply clock_ensure_active_contract. }
  unfold I in H. injection H as H1 H2. split; assumption.
Qed.

Lemma fmap_alter_same {A B} (g : A -> B) (f : A -> A) (i : nat) (l : list A) :
  (forall x, g (f x) = g x) -> g <$> alter f i l = g <$> l.
Proof.
  intros H. revert i. induction l as [| x l IH]; intros [| i];
    try reflexivity.
  - change (g (f x) :: (g <$> l) = g x :: (g <$> l)). rewrite H. reflexivity.
  - change (g x :: (g <$> alter f i l) = g x :: (g <$> l)). rewrite IH.
    reflexivity.
Qed.

(** What names an order and a supplier. *)
Lemma names_simulate_step v :
  keeps (fun s => names s = v) simulate_step.
Proof.
  unfold simulate_step, advance, begin_step, ensure_active_contract,
    _create_sample_contract, _update_market_conditions, update_average_price,
    update_price_history, update_market_rest, update_trend,
    update_regional_prices, update_bean_prices, update_factor,
    update_forecast, _update_orders, update_order, parse_delivery,
    _update_suppliers.
  keeps_go;
    lazymatch goal with
    | |- keeps _ (modify_order _ _) =>
        apply keeps_modify; intros ? <-; unfold names;
        cbn [orders suppliers set_orders];
        rewrite fmap_alter_same by (intros []; reflexivity); reflexivity
    | |- keeps _ (modify_supplier _ _) =>
        apply keeps_modify; intros ? <-; unfold names;
        cbn [orders suppliers set_suppliers];
        rewrite fmap_alter_same by (intros []; reflexivity); reflexivity
    | |- _ => frame_modify
    end.
Qed.

End Frames.

(** The simulated clock: after [n] calls of [simulate_step], raising or
    not, the step counter has grown by [n]; and the simulated date has grown
    by [n] days when the calendar leaves room for them (beyond 9999-12-31
    the addition of line 51 raises, after the counter was incremented). *)
Theorem clock_after_steps `{DT : DatetimeLib} (n : nat) (w : World) :
  simulation_step (self (simulate_steps n w))
  = simulation_step (self w) + Z.of_nat n
  /\ (days_left (Z.of_nat n) (simulation_date (self w)) ->
      simulation_date (self (simulate_steps n w))
      = simulation_date (self w) + timedelta_of_days (Z.of_nat n)).
Proof.
  assert (H : simulation_step (self (simulate_steps n w))
              = simulation_step (self w) + Z.of_nat n
              /\ simulation_date (self (simulate_steps n w))
                 = simulation_date (self w) + timedelta_of_days (Z.of_nat n)).
  { revert w. induction n as [| n IH]; intros w.
    - simpl. unfold timedelta_of_days. split; lia.
    - cbn [simulate_steps]. destruct (IH (simulate_step w).2) as [H1 H2].
      destruct (clock_simulate_step w) as [E1 E2].
      rewrite H1, H2, E1, E2. unfold timedelta_of_days. split; lia. }
  destruct H as [H1 H2]. split; [exact H1 | intros _; exact H2].
Qed.

(** Forty steps from 2025-11-03T10:30:00.123456. *)
Lemma clock_after_steps_witness :
  simulation_step (self (simulate_steps (DT := Calendar.calendar) 40
                           Demo.quiet)) = 40
  /\ Calendar.cal_isoformat
       (simulation_date (self (simulate_steps (DT := Calendar.calendar) 40
                                 Demo.quiet)))
     = "2025-12-13T10:30:00.123456".
Proof.
  destruct (clock_after_steps (DT := Calendar.calendar) 40 Demo.quiet)
    as [H1 H2].
  split; [exact H1 |].
  rewrite H2 by (vm_compute; discriminate). vm_compute. reflexivity.
Defined.

(** [simulate_step] never adds, removes, reorders or renames an order or a
    supplier: after any number of calls the identifiers of the orders, and
    the identifiers, names and bean types of the suppliers, are the lists
    they were. *)
Theorem names_after_steps `{DT : DatetimeLib} (n : nat) (w : World) :
  o_id <$> orders (self (simulate_steps n w)) = o_id <$> orders (self w)
  /\ (fun x => (s_id x, s_name x, bean_types x))
       <$> suppliers (self (simulate_steps n w))
     = (fun x => (s_id x, s_name x, bean_types x)) <$> suppliers (self w).
Proof.
  assert (H : names (self (simulate_steps n w)) = names (self w)).
  { revert w. induction n as [| n IH]; intros w; [reflexivity |].
    cbn [simulate_steps]. rewrite IH.
    apply (names_simulate_step _ w). reflexivity. }
  unfold names in H. injection H as H1 H2. split; assumption.
Qed.

Section ContractsGrow.
Context `{DT : DatetimeLib}.

Lemma create_sample_contract_grows w :
  contracts (self (_create_sample_contract w).2) = contracts (self w)
  \/ exists c, contracts (self (_create_sample_contract w).2)
               = (contracts (self w) ++ [c])%list
               /\ c_status c = "active".
Proof.
  destruct (suppliers (self w)) as [| s0 rest] eqn:Hs.
  - left. unfold _create_sample_contract. run. rewrite Hs. reflexivity.
  - right. destruct (create_sample_contract_run w s0 rest Hs)
      as (c & _ & _ & Hc & _ & Ha & _).
    exists c. split; assumption.
Qed.

Lemma contracts_simulate_step w :
  contracts (self (simulate_step w).2) = contracts (self w)
  \/ (active_contracts (contracts (self w)) = []
      /\ exists c, contracts (self (simulate_step w).2)
                   = (contracts (self w) ++ [c])%list
                   /\ c_status c = "active").
Proof.
  unfold simulate_step. rewrite bind_run.
  pose proof (contracts_advance _ w eq_refl) as Ha.
  destruct (advance w) as [[[] | e] w1]; cbn [snd] in *; [| left; exact Ha].
  unfold ensure_active_contract. run. rewrite Ha.
  destruct (Z.of_nat (length (active_contracts (contracts (self w)))) =? 0)
    eqn:E; run; [| left; exact Ha].
  apply Z.eqb_eq in E.
  assert (Hnone : active_contracts (contracts (self w)) = [])
    by (apply length_zero_iff_nil; lia).
  destruct (Py.Qltb _ _); run; [| left; exact Ha].
  match goal with |- context [_create_sample_contract ?w2] =>
    destruct (create_sample_contract_grows w2) as [H | (c & H & Hc)];
    cbn [self] in H; rewrite Ha in H
  end.
  - left. exact H.
  - right. split; [exact Hnone |]. exists c. split; assumption.
Qed.

End ContractsGrow.

(** [simulate_step] only ever appends to the contracts, and at most once:
    after any number of calls the list of contracts is the list it was, or
    that list (which had no active contract) and one more contract, which
    is active.  With an active contract at the start the list never
    changes. *)
Theorem contracts_after_steps `{DT : DatetimeLib} (n : nat) (w : World) :
  contracts (self (simulate_steps n w)) = contracts (self w)
  \/ (active_contracts (contracts (self w)) = []
      /\ exists c, contracts (self (simulate_steps n w))
                   = (contracts (self w) ++ [c])%list
                   /\ c_status c = "active").
Proof.
  revert w. induction n as [| n IH]; intros w; [left; reflexivity |].
  cbn [simulate_steps].
  destruct (contracts_simulate_step w) as [E | (Hnone & c & E & Hc)].
  - rewrite <- E. apply IH.
  - destruct (IH (simulate_step w).2) as [E' | (Hnone' & _)].
    + right. split; [exact Hnone |]. exists c. rewrite E', E. auto.
    + exfalso. rewrite E in Hnone'. unfold active_contracts in Hnone'.
      rewrite filter_app, filter_cons_True in Hnone' by exact Hc.
      destruct (filter _ (contracts (self w))); discriminate.
Qed.

(** ** The market *)


Lemma change_range_bounds trend :
  (-0.03 <= (change_range trend).1)%Q
  /\ ((change_range trend).1 <= (change_range trend).2)%Q
  /\ ((change_range trend).2 <= 0.03)%Q.
Proof.
  unfold change_range. repeat destruct (decide _); cbn [fst snd]; lra.
Qed.

Lemma next_price_near (old pct : Q) :
  (3 <= old <= 10)%Q -> (-0.03 <= pct <= 0.03)%Q ->
  (old * 0.97 - 0.005 <= next_price old pct <= old * 1.03 + 0.005)%Q.
Proof.
  intros Ho Hp. unfold next_price.
  pose proof (round_cent_error (old * (1 + pct))) as Hr.
  set (r := Py.round _ 2) in *.
  assert (Hr' : (old * 0.97 - 0.005 <= r <= old * 1.03 + 0.005)%Q).
  { assert (0 <= old * (pct + 0.03))%Q by (apply Qmult_le_0_compat; lra).
    assert (0 <= old * (0.03 - pct))%Q by (apply Qmult_le_0_compat; lra).
    lra. }
  clear Hr. unfold Py.max, Py.min.
  destruct (Py.Qltb r 10.0) eqn:E1.
  - destruct (Py.Qltb 3.0 r) eqn:E2; [exact Hr' |].
    apply Qltb_ge in E2. lra.
  - apply Qltb_ge in E1. change (Py.Qltb 3.0 10.0) with true.
    cbv beta iota. lra.
Qed.

Lemma py_index_last_run {A} (l : list A) (x : A) w :
  last l = Some x -> py_index l (-1) w = (Ok x, w).
Proof.
  intros H. unfold py_index. change (-1 <? 0) with true. cbv beta iota.
  rewrite last_lookup in H.
  assert (Hlen : (0 < length l)%nat).
  { destruct l; [discriminate | simpl; lia]. }
  destruct (Z.of_nat (length l) + -1 <? 0) eqn:E;
    [apply Z.ltb_lt in E; lia |].
  replace (Z.to_nat (Z.of_nat (length l) + -1)) with (pred (length l)) by lia.
  rewrite H. reflexivity.
Qed.

Section Market.
Context `{DT : DatetimeLib}.

Lemma update_average_price_exact w :
  let m := market_conditions (self w) in
  exists pct,
    in_range (change_range (price_trend m)).1 (change_range (price_trend m)).2
      pct
    /\ update_average_price w
       = (Ok (average_price m, pct, next_price (average_price m) pct),
          {| self := set_market_conditions
                       (set_average_price (next_price (average_price m) pct) m)
                       (self w);
             rand := {| tape := tape (rand w);
                        cursor := S (cursor (rand w)) |};
             clock := clock w |}).
Proof.
  intros m. unfold update_average_price, gets_market, modify_market, uniform,
    change_range, in_range.
  run. fold m.
  destruct (decide (price_trend m = "Rising"));
    [| destruct (decide (price_trend m = "Falling"))];
    run; eexists; (split; [| reflexivity]); cbn [fst snd];
    match goal with |- (?a <= ?a + (?b - ?a) * frac ?u <= ?b)%Q =>
      apply (uniform_range a b u); lra
    end.
Qed.

Lemma update_trend_run w :
  let m := market_conditions (self w) in
  let h := price_history m in
  exists w',
    update_trend w = (Ok tt, w') /\ rand w' = rand w /\ clock w' = clock w
    /\ ((length h < 5)%nat -> w' = w)
    /\ ((5 <= length h)%nat ->
        exists oldest newest,
          h !! (length h - 5)%nat = Some oldest
          /\ last h = Some newest
          /\ self w'
             = set_market_conditions
                 (set_price_trend
                    (trend_of (pp_price oldest) (pp_price newest)) m)
                 (self w)).
Proof.
  intros m h. unfold update_trend, gets_market, modify_market. run. fold m h.
  destruct (5 <=? Z.of_nat (length h)) eqn:E.
  - apply Z.leb_le in E.
    assert (Hlen : length (pp_price <$> last_n 5 h) = 5%nat).
    { rewrite length_fmap. unfold last_n. rewrite length_drop. lia. }
    destruct (lookup_lt_is_Some_2 h (length h - 5)%nat ltac:(lia))
      as [oldest Hold].
    destruct (lookup_lt_is_Some_2 h (length h - 1)%nat ltac:(lia))
      as [newest Hnew].
    assert (H4 : (pp_price <$> last_n 5 h) !! 4%nat = Some (pp_price newest)).
    { rewrite list_lookup_fmap, last_n_lookup.
      replace (length h - 5 + 4)%nat with (length h - 1)%nat by lia.
      rewrite Hnew. reflexivity. }
    assert (H0 : (pp_price <$> last_n 5 h) !! 0%nat = Some (pp_price oldest)).
    { rewrite list_lookup_fmap, last_n_lookup.
      replace (length h - 5 + 0)%nat with (length h - 5)%nat by lia.
      rewrite Hold. reflexivity. }
    run. rewrite (py_index_last_run _ (pp_price newest))
      by (rewrite last_lookup, Hlen; exact H4).
    run. rewrite (py_index_run _ 0%nat), H0. run.
    assert (Hlast : last h = Some newest).
    { rewrite last_lookup. rewrite <- Hnew. f_equal. lia. }
    unfold trend_of.
    destruct (Py.Qltb (pp_price oldest * 1.02) (pp_price newest)) eqn:E1;
      [| destruct (Py.Qltb (pp_price newest) (pp_price oldest * 0.98)) eqn:E2];
      run; eexists; (split; [reflexivity |]); cbn [rand clock self];
      (split; [reflexivity |]); (split; [reflexivity |]);
      (split; [intros; lia |]); intros _; exists oldest, newest;
      rewrite ?E1, ?E2; auto.
  - apply Z.leb_gt in E. run. exists w.
    repeat split; auto. intros; lia.
Qed.

Lemma trend_part_after_trend v pct cur new :
  keeps (fun s => trend_part s = v)
    (update_regional_prices pct;;
     update_bean_prices pct;;
     (r ← random; if Py.Qltb r 0.1%Q then update_factor else mret tt);;
     (r ← random; if Py.Qltb r 0.05%Q then update_forecast else mret tt);;
     modify_changes (log_market {| new_price := new; old_price := cur;
                                   change_pct := pct |})).
Proof.
  unfold update_regional_prices, update_bean_prices, update_factor,
    update_forecast.
  keeps_go; frame_modify.
Qed.

Lemma trend_part_rest v :
  keeps (fun s => trend_part s = v)
    (_update_orders;;
     r ← random; if Py.Qltb r 0.2%Q then _update_suppliers else mret tt).
Proof.
  unfold _update_orders, update_order, parse_delivery, _update_suppliers.
  keeps_go; frame_modify.
Qed.

Lemma trend_part_ensure_active_contract v :
  keeps (fun s => trend_part s = v) ensure_active_contract.
Proof.
  unfold ensure_active_contract, _create_sample_contract.
  keeps_go; frame_modify.
Qed.

Lemma trend_updated_frame before s s' :
  trend_part s = trend_part s' ->
  trend_updated before s -> trend_updated before s'.
Proof.
  unfold trend_part, trend_updated. intros [= E1 E2 E3].
  rewrite E1, E2, E3. trivial.
Qed.

Lemma trend_after_market w :
  trend_updated (price_trend (market_conditions (self w)))
    (self (_update_market_conditions w).2).
Proof.
  unfold _update_market_conditions, modify_market. run.
  match goal with
  | |- context [update_average_price ?w1] =>
      destruct (update_average_price_exact w1) as (pct & _ & E)
  end.
  rewrite E. cbv beta iota. clear E. rewrite bind_run.
  match goal with
  | |- context [update_price_history ?p ?w2] =>
      destruct (update_price_history_run p w2) as (w3 & E3 & Hs3)
  end.
  rewrite E3. cbv beta iota. clear E3. cbn [self] in Hs3.
  unfold update_market_rest.
  apply (bind_post (trend_updated _)).
  - destruct (update_trend_run w3) as (w4 & E4 & _ & _ & Hshort & Hlong).
    rewrite E4. cbn [snd]. rewrite Hs3 in Hshort, Hlong.
    cbn [market_conditions set_market_conditions price_history
         set_price_history] in Hshort, Hlong.
    set (h := last_n 30 _) in *.
    destruct (decide (5 <= length h)%nat) as [Hl | Hl].
    + destruct (Hlong Hl) as (oldest & newest & Hold & Hnew & Hs4).
      rewrite Hs4. unfold trend_updated.
      cbn [market_conditions set_market_conditions price_history
           set_price_history set_price_trend price_trend average_price
           set_average_price].
      fold h. split; [intros; lia |]. intros _.
      exists oldest. split; [exact Hold |].
      unfold h in Hnew. rewrite last_n_snoc in Hnew by lia.
      injection Hnew as <-. reflexivity.
    + rewrite (Hshort ltac:(lia)), Hs3. unfold trend_updated.
      cbn [market_conditions set_market_conditions price_history
           set_price_history set_price_trend price_trend average_price
           set_average_price set_date].
      fold h. split; [reflexivity | intros; lia].
  - intros _. apply keeps_via with (proj := trend_part);
      [apply trend_updated_frame |].
    intros v. apply trend_part_after_trend.
Qed.





Lemma price_after_market w :
  priced (market_conditions (self w)) (self (_update_market_conditions w).2).
Proof.
  unfold _update_market_conditions, modify_market. run.
  match goal with
  | |- context [update_average_price ?w1] =>
      destruct (update_average_price_exact w1) as (pct & Hpct & E)
  end.
  rewrite E. cbv beta iota. clear E.
  apply (bind_post (priced _)).
  - match goal with
    | |- context [update_price_history ?p ?w2] =>
        destruct (update_price_history_run p w2) as (w3 & E3 & Hs3)
    end.
    rewrite E3. cbn [snd]. rewrite Hs3. exists pct. split; [exact Hpct |].
    reflexivity.
  - intros _. apply keeps_via with (proj := price_part).
    + unfold priced, price_part. intros s s' [= _ Ha _]. rewrite Ha. trivial.
    + intros v. apply price_part_update_market_rest.
Qed.

Lemma priced_frame m s s' :
  market_conditions s = market_conditions s' -> priced m s -> priced m s'.
Proof. unfold priced. intros <-. trivial. Qed.

Lemma price_after_step w :
  priced (market_conditions (self w)) (self (simulate_step w).2).
Proof.
  unfold simulate_step, advance.
  apply (bind_post (priced _)).
  - rewrite bind_run, begin_step_run. cbv beta iota.
    apply (bind_post (priced _)).
    + match goal with
      | |- priced _ (self (_ ?w0).2) => exact (price_after_market w0)
      end.
    + intros _.
      apply keeps_via with (proj := market_conditions);
        [apply priced_frame |].
      intros v. keeps_go;
        [apply market_update_orders | apply market_update_suppliers].
  - intros _.
    apply keeps_via with (proj := market_conditions); [apply priced_frame |].
    intros v. apply market_ensure_active_contract.
Qed.


End Market.

(** The average price after [simulate_step], whether it returned or raised:
    the price before, changed by a percentage drawn from the range of the
    trend, rounded to the cent and kept in [3.0, 10.0].  When the price was
    in [3.0, 10.0], the new one differs from it by at most 3 % and half a
    cent. *)
Theorem price_moves_little `{DT : DatetimeLib} (w : World) :
  let old := average_price (market_conditions (self w)) in
  let new := average_price (market_conditions (self (simulate_step w).2)) in
  price_in_bounds (self w) ->
  (old * 0.97 - 0.005 <= new <= old * 1.03 + 0.005)%Q.
Proof.
  intros old new Hb. destruct (price_after_step w) as (pct & Hpct & E).
  unfold new. rewrite E.
  pose proof (change_range_bounds (price_trend (market_conditions (self w))))
    as (H1 & H2 & H3).
  unfold in_range in Hpct. apply next_price_near; [exact Hb | lra].
Qed.

Lemma price_moves_little_witness :
  let old := average_price (market_conditions (self Demo.quiet)) in
  let new :=
    average_price
      (market_conditions
         (self (simulate_step (DT := Calendar.calendar) Demo.quiet).2)) in
  (old * 0.97 - 0.005 <= new <= old * 1.03 + 0.005)%Q.
Proof.
  apply (price_moves_little (DT := Calendar.calendar) Demo.quiet).
  unfold price_in_bounds, in_range. vm_compute. split; discriminate.
Defined.



(** After [simulate_step], whether it returned or raised: when the history
    of prices has five entries or more, the trend is the one that the
    average price and the price four entries before the last give (rising
    above +2 %, falling below -2 %, else stable); with fewer entries the
    trend is the one it was. *)
Theorem trend_follows_history `{DT : DatetimeLib} (w : World) :
  let m' := market_conditions (self (simulate_step w).2) in
  let h := price_history m' in
  ((length h < 5)%nat ->
   price_trend m' = price_trend (market_conditions (self w)))
  /\ ((5 <= length h)%nat ->
      exists oldest,
        h !! (length h - 5)%nat = Some oldest
        /\ price_trend m' = trend_of (pp_price oldest) (average_price m')).
Proof.
  change (trend_updated (price_trend (market_conditions (self w)))
            (self (simulate_step w).2)).
  unfold simulate_step, advance.
  apply (bind_post (trend_updated _)).
  - rewrite bind_run, begin_step_run. cbv beta iota.
    apply (bind_post (trend_updated _)).
    + match goal with
      | |- trend_updated _ (self (_ ?w0).2) => exact (trend_after_market w0)
      end.
    + intros _. apply keeps_via with (proj := trend_part);
        [apply trend_updated_frame |].
      intros v. apply trend_part_rest.
  - intros _. apply keeps_via with (proj := trend_part);
      [apply trend_updated_frame |].
    intros v. apply trend_part_ensure_active_contract.
Qed.

(** ** Steps that return *)

Section Returns.

Context {A : Type}.















End Returns.



Lemma dict_get_set_is_Some k k' v d :
  is_Some (dict_get k d) -> is_Some (dict_get k (dict_set k' v d)).
Proof.
  induction d as [| [k0 v0] d IH]; cbn [dict_get dict_set];
    [intros [? [=]] |].
  destruct (decide (k' = k0)) as [-> | Hne]; cbn [dict_get];
    destruct (decide (k = k0)); eauto.
Qed.

Lemma dict_get_keys (d : list (string * Q)) :
  Forall (fun k => is_Some (dict_get k d)) d.*1.
Proof.
  induction d as [| [k v] d IH]; [constructor |].
  cbn [fmap list_fmap fst]. constructor.
  - cbn [dict_get]. rewrite decide_True by reflexivity. eauto.
  - eapply Forall_impl; [exact IH |]. intros k' H. cbn [dict_get].
    destruct (decide (k' = k)); eauto.
Qed.


Section StepsReturn.
Context `{DT : DatetimeLib}.


















Lemma ready_equipped s : ready s -> equipped s.
Proof. intros [H _]. exact H. Qed.






End StepsReturn.





(** ** Steps that raise *)

Section Raises.
Context `{DT : DatetimeLib}.

(** The loops over the regional prices and the bean prices take one draw
    for each key. *)
Lemma price_loop_run (get : MarketConditions -> list (string * Q))
    (set : list (string * Q) -> MarketConditions -> MarketConditions)
    (c : Q) (keys : list string) :
  (forall v m, get (set v m) = v) ->
  forall w, priced_keys get keys (self w) ->
  exists w',
    for_each keys (fun key =>
      prices ← gets_market get;
      price ← py_getitem prices key;
      noise ← uniform (-0.01)%Q 0.01%Q;
      modify_market (fun m =>
        set (dict_set key (Py.round (price * (1 + (c + noise)))%Q 2) (get m))
          m)) w
    = (Ok tt, w')
    /\ rand w' = drawn (length keys) (rand w).
Proof.
  intros Hgs. induction keys as [| key keys IH]; intros w Hk.
  - exists w. split; [reflexivity |]. unfold drawn.
    rewrite Nat.add_0_r. destruct (rand w); reflexivity.
  - apply Forall_cons in Hk. destruct Hk as [[v Hv] Hk].
    cbn [for_each]. unfold gets_market, py_getitem, uniform, modify_market.
    run. rewrite Hv. run.
    match goal with |- context [for_each keys _ ?w1] =>
      destruct (IH w1) as (w' & E & Hr)
    end.
    { unfold priced_keys in *.
      cbn [self market_conditions set_market_conditions].
      rewrite Hgs. eapply Forall_impl; [exact Hk |]. intros k.
      apply dict_get_set_is_Some. }
    unfold gets_market, py_getitem, uniform, modify_market in E.
    rewrite E. exists w'. split; [reflexivity |]. rewrite Hr.
    unfold drawn. cbn [rand tape cursor length]. f_equal. lia.
Qed.

Lemma factors_update_prices v c :
  keeps (fun s => market_factors (market_conditions s) = v)
    (update_trend;; update_regional_prices c;; update_bean_prices c).
Proof.
  unfold update_trend, update_regional_prices, update_bean_prices.
  keeps_go; frame_modify.
Qed.


Lemma update_price_history_exact p w :
  update_price_history p w
  = (Ok tt,
     {| self := set_market_conditions
          (set_price_history
             (last_n 30 (price_history (market_conditions (self w))
                         ++ [{| pp_date := isoformat (simulation_date (self w));
                                pp_price := p |}]))
             (market_conditions (self w))) (self w);
        rand := rand w; clock := clock w |}).
Proof.
  unfold update_price_history, gets_market, modify_market.
  run. cbn [self market_conditions set_market_conditions set_price_history
            price_history].
  set (h := (_ ++ _)%list).
  destruct (30 <? Z.of_nat (length h)) eqn:E; run.
  - reflexivity.
  - rewrite last_n_all by lia. reflexivity.
Qed.

(** The part of the market that the day's price, the history and the trend
    leave alone. *)
Lemma update_trend_rest w :
  exists w',
    update_trend w = (Ok tt, w') /\ rand w' = rand w
    /\ market_rest (self w') = market_rest (self w).
Proof.
  destruct (update_trend_run w) as (w' & E & Hr & _ & Hs & Hl).
  exists w'. split; [exact E |]. split; [exact Hr |].
  destruct (decide (5 <= length (price_history (market_conditions (self w))))%nat).
  - destruct (Hl ltac:(lia)) as (? & ? & _ & _ & ->). reflexivity.
  - rewrite (Hs ltac:(lia)). reflexivity.
Qed.

Lemma market_rest_regional v c :
  keeps (fun s => (bean_prices (market_conditions s),
                   market_factors (market_conditions s)) = v)
    (update_regional_prices c).
Proof. unfold update_regional_prices. keeps_go; frame_modify. Qed.

Lemma market_rest_bean v c :
  keeps (fun s => market_factors (market_conditions s) = v)
    (update_bean_prices c).
Proof. unfold update_bean_prices. keeps_go; frame_modify. Qed.

Lemma update_regional_prices_run c w :
  exists w',
    update_regional_prices c w = (Ok tt, w')
    /\ rand w'
       = drawn (length (regional_prices (market_conditions (self w)))) (rand w).
Proof.
  unfold update_regional_prices. rewrite bind_run. unfold gets_market at 1.
  rewrite gets_run. cbv beta iota.
  destruct (price_loop_run regional_prices set_regional_prices c
              (regional_prices (market_conditions (self w))).*1
              ltac:(reflexivity) w (dict_get_keys _)) as (w' & E & Hr).
  exists w'. split; [exact E |]. rewrite Hr, length_fmap. reflexivity.
Qed.

Lemma update_bean_prices_run c w :
  exists w',
    update_bean_prices c w = (Ok tt, w')
    /\ rand w'
       = drawn (length (bean_prices (market_conditions (self w)))) (rand w).
Proof.
  unfold update_bean_prices. rewrite bind_run. unfold gets_market at 1.
  rewrite gets_run. cbv beta iota.
  destruct (price_loop_run bean_prices set_bean_prices c
              (bean_prices (market_conditions (self w))).*1
              ltac:(reflexivity) w (dict_get_keys _)) as (w' & E & Hr).
  exists w'. split; [exact E |]. rewrite Hr, length_fmap. reflexivity.
Qed.

Lemma update_factor_empty w :
  market_factors (market_conditions (self w)) = [] ->
  update_factor w = (Raise ValueError, w).
Proof.
  intros H. unfold update_factor, gets_market. run. rewrite H. reflexivity.
Qed.

Lemma market_raises_without_factors w :
  let m := market_conditions (self w) in
  market_factors m = [] ->
  Py.Qltb (draw w (1 + length (regional_prices m) + length (bean_prices m)))
    0.1%Q = true ->
  (_update_market_conditions w).1 = Raise ValueError.
Proof.
  intros m Hf Hdraw. unfold _update_market_conditions, modify_market. run.
  match goal with
  | |- context [update_average_price ?w1] =>
      destruct (update_average_price_exact w1) as (pct & _ & E)
  end.
  rewrite E. cbv beta iota. clear E.
  rewrite bind_run, update_price_history_exact. cbv beta iota.
  unfold update_market_rest. rewrite bind_run.
  match goal with
  | |- context [update_trend ?w2] =>
      destruct (update_trend_rest w2) as (w3 & E3 & Hr3 & Hm3)
  end.
  rewrite E3. cbv beta iota. clear E3.
  unfold market_rest in Hm3.
  cbn [self rand market_conditions set_market_conditions set_price_history
       set_average_price set_date regional_prices bean_prices
       market_factors] in Hm3, Hr3.
  fold m in Hm3. injection Hm3 as Hreg Hbean Hfac.
  rewrite bind_run.
  destruct (update_regional_prices_run pct w3) as (w4 & E4 & Hr4).
  pose proof (market_rest_regional _ pct w3 eq_refl) as Hm4.
  rewrite E4 in Hm4 |- *. cbn [snd] in Hm4. cbv beta iota.
  injection Hm4 as Hbean4 Hfac4.
  rewrite bind_run.
  destruct (update_bean_prices_run pct w4) as (w5 & E5 & Hr5).
  pose proof (market_rest_bean _ pct w4 eq_refl) as Hm5.
  rewrite E5 in Hm5 |- *. cbn [snd] in Hm5. cbv beta iota.
  rewrite bind_run, bind_run, random_run. cbv beta iota.
  assert (Hc : frac (tape (rand w5) (cursor (rand w5)))
               = draw w (1 + length (regional_prices m)
                         + length (bean_prices m))).
  { rewrite Hr5, Hr4, Hr3, Hbean4, Hbean, Hreg. unfold draw, drawn.
    cbn [tape cursor]. f_equal. f_equal. lia. }
  rewrite Hc, Hdraw, update_factor_empty; [reflexivity |].
  cbn [self]. rewrite Hm5, Hfac4, Hfac. exact Hf.
Qed.

End Raises.

(** Without a market factor, [simulate_step] raises [ValueError] when the
    draw that decides on the update of a factor is below 0.1 (it is the one
    after the draw for the price and the draws for each regional and each
    bean price): [random.randint(0, -1)] has nothing to choose from.  The
    orders are not visited: they are as they were. *)
Theorem no_factor_raises `{DT : DatetimeLib} (w : World) :
  let m := market_conditions (self w) in
  market_factors m = [] ->
  Py.Qltb (draw w (1 + length (regional_prices m) + length (bean_prices m)))
    0.1%Q = true ->
  (simulate_step w).1 = Raise ValueError
  /\ orders (self (simulate_step w).2) = orders (self w).
Proof.
  intros m Hf Hdraw. unfold simulate_step, advance.
  rewrite bind_run, bind_run, begin_step_run. cbv beta iota.
  rewrite bind_run.
  match goal with |- context [_update_market_conditions ?w0] =>
    pose proof (market_raises_without_factors w0 Hf Hdraw) as Hr;
    pose proof (orders_update_market_conditions _ w0 eq_refl) as Ho;
    destruct (_update_market_conditions w0) as [[[] | e] w1]
  end; cbn [fst snd] in *; [discriminate |].
  injection Hr as ->. split; [reflexivity | exact Ho].
Qed.

Lemma no_factor_raises_witness :
  (simulate_step (DT := Calendar.calendar) Broken.no_factors).1
  = Raise ValueError
  /\ orders (self (simulate_step (DT := Calendar.calendar)
                     Broken.no_factors).2)
     = orders (self Broken.no_factors).
Proof.
  apply (no_factor_raises (DT := Calendar.calendar) Broken.no_factors).
  - reflexivity.
  - vm_compute. reflexivity.
Defined.

(** [_update_suppliers] reads the quality score of the supplier it drew with
    [supplier["quality_score"]]: when the supplier has none and the draw for
    the kind of update picks the quality, it raises [KeyError] and writes
    nothing.  ([_create_sample_contract] reads the score with a default.) *)
Theorem drift_needs_quality_score (w : World) (supplier : Supplier) :
  let sups := suppliers (self w) in
  sups !! Z.to_nat (Qfloor (draw w 0 * inject_Z (Z.of_nat (length sups))))
  = Some supplier ->
  quality_score supplier = None ->
  Qfloor (draw w 1 * 4) = 0 ->
  (_update_suppliers w).1 = Raise (KeyError "quality_score")
  /\ self (_update_suppliers w).2 = self w.
Proof.
  intros sups Hsup Hq Hkind. unfold draw in *.
  rewrite Nat.add_0_r in Hsup.
  unfold _update_suppliers. run. fold sups.
  assert (Hlen : (0 < length sups)%nat).
  { apply lookup_lt_Some in Hsup. lia. }
  destruct (0 <? Z.of_nat (length sups)) eqn:E;
    [| apply Z.ltb_ge in E; lia].
  run. rewrite randint_run by lia. run'.
  match goal with |- context [py_index _ (0 + ?k)] =>
    replace (0 + k) with k by lia;
    replace (Z.of_nat (length sups) - 1 - 0 + 1)
      with (Z.of_nat (length sups)) by lia
  end.
  rewrite py_index_nonneg_run
    by (apply randbelow_range; lia).
  rewrite Hsup. run'. rewrite choice_run. run'.
  replace (cursor (rand w) + 1)%nat with (S (cursor (rand w))) in Hkind by lia.
  change (inject_Z (Z.of_nat (length ["quality"; "reliability";
                                      "sustainability"; "capacity"])))
    with 4%Q.
  rewrite Hkind. cbn [Z.to_nat nth]. rewrite decide_True by reflexivity.
  rewrite Hq. run'. split; reflexivity.
Qed.

Lemma drift_needs_quality_score_witness :
  (_update_suppliers Broken.unrated).1 = Raise (KeyError "quality_score")
  /\ self (_update_suppliers Broken.unrated).2 = self Broken.unrated.
Proof.
  apply (drift_needs_quality_score Broken.unrated
           {| s_id := "S1"; s_name := "Ethiopia Coffee Cooperative 1";
              quality_score := None; reliability_score := 7.0%Q;
              sustainability_score := 6.0%Q;
              capacity_kg_per_year := 50000; bean_types := None |}).
  - vm_compute. reflexivity.
  - reflexivity.
  - vm_compute. reflexivity.
Defined.

(** * The entities in the store *)

Module ApiFacts.

Import Store Api ApiProps.

Lemma hbind_run {A B} (c : H A) (k : A -> H B) (m : Machine) :
  (c ≫= k) m = match c m with
               | (Ret a, m') => k a m'
               | (Err e, m') => (Err e, m')
               | (Stuck, m') => (Stuck, m')
               end.
Proof. reflexivity. Qed.

Lemma hret_run {A} (a : A) (m : Machine) : (mret a : H A) m = (Ret a, m).
Proof. reflexivity. Qed.

Lemma with_mem_id m : with_mem (mem m) m = m.
Proof. destruct m; reflexivity. Qed.

Lemma getitem_run h x kvs k m :
  dict_at h x kvs -> mem m = h ->
  getitem x k m = (match assoc k kvs with
                   | Some v => Ret v
                   | None => Err (KeyErr k)
                   end, m).
Proof.
  intros (l & -> & Hl) <-. unfold getitem, load. rewrite hbind_run, Hl.
  destruct (assoc k kvs); reflexivity.
Qed.

Lemma setitem_run h l kvs k v m :
  h !! l = Some (ODict kvs) -> mem m = h ->
  setitem (VRef l) k v m
  = (Ret tt, with_mem (<[l := ODict (assoc_set k v kvs)]> h) m).
Proof.
  intros Hl <-. unfold setitem, load. rewrite hbind_run, Hl. reflexivity.
Qed.

Lemma get_opt_run h x kvs k m :
  dict_at h x kvs -> mem m = h -> get_opt x k m = (Ret (assoc k kvs), m).
Proof.
  intros (l & -> & Hl) <-. unfold get_opt, load. rewrite hbind_run, Hl.
  reflexivity.
Qed.

Lemma get_or_run h x kvs k d m :
  dict_at h x kvs -> mem m = h ->
  get_or x k d m = (Ret (default d (assoc k kvs)), m).
Proof.
  intros Hx Hm. unfold get_or.
  rewrite hbind_run, (get_opt_run _ _ _ _ _ Hx Hm). reflexivity.
Qed.

Lemma contains_run h x kvs k m :
  dict_at h x kvs -> mem m = h ->
  contains k x m = (Ret (bool_decide (is_Some (assoc k kvs))), m).
Proof.
  intros (l & -> & Hl) <-. unfold contains, load. rewrite hbind_run, Hl.
  reflexivity.
Qed.

Lemma append_method_run h l vs m :
  h !! l = Some (OList vs) -> mem m = h ->
  append_method (VRef l) m = (Ret l, m).
Proof.
  intros Hl <-. unfold append_method, load. rewrite hbind_run, Hl.
  reflexivity.
Qed.

Lemma iter_run h x vs m :
  list_at h x vs -> mem m = h -> iter x m = (Ret vs, m).
Proof.
  intros (l & -> & Hl) <-. unfold iter, load. rewrite hbind_run, Hl.
  reflexivity.
Qed.

Lemma assoc_set_other k k' v kvs :
  k <> k' -> assoc k (assoc_set k' v kvs) = assoc k kvs.
Proof.
  intros Hne. induction kvs as [| [k0 v0] kvs IH]; cbn [assoc assoc_set].
  - rewrite decide_False by exact Hne. reflexivity.
  - destruct (decide (k' = k0)) as [-> | Hk]; cbn [assoc].
    + rewrite !decide_False by exact Hne. reflexivity.
    + rewrite IH. reflexivity.
Qed.

Lemma assoc_set_same k v kvs : assoc k (assoc_set k v kvs) = Some v.
Proof.
  induction kvs as [| [k0 v0] kvs IH]; cbn [assoc assoc_set].
  - rewrite decide_True by reflexivity. reflexivity.
  - destruct (decide (k = k0)) as [-> | Hk]; cbn [assoc].
    + rewrite decide_True by reflexivity. reflexivity.
    + rewrite decide_False by exact Hk. exact IH.
Qed.

Section Facts.

Context `{DT : DatetimeLib} (self : Engine).

(** A loop over items none of which has the identifier changes nothing. *)
Lemma update_status_loop_skip section id_key id status items m :
  Forall (has_other_id (mem m) id) items ->
  forall rest,
    update_status_loop self section id_key id status (items ++ rest) m
    = update_status_loop self section id_key id status rest m.
Proof.
  induction 1 as [| item items (kvs & v & Hd & Hid & Hne) _ IH]; intros rest;
    [reflexivity |].
  cbn [app update_status_loop].
  rewrite hbind_run, (getitem_run _ _ _ _ _ Hd eq_refl), Hid, Hne.
  apply IH.
Qed.

(** A loop over items that the identifier does not name changes nothing;
    it raises at the first one without the key ["id"]. *)
Lemma update_status_loop_unmatched section id_key id status items m :
  Forall (unmatched (mem m) id) items ->
  update_status_loop self section id_key id status items m
  = (if forallb (keyed (mem m) "id") items then Ret tt
     else Err (KeyErr "id"), m).
Proof.
  induction 1 as [| item items (kvs & Hd & Hid) _ IH]; [reflexivity |].
  cbn [update_status_loop forallb].
  rewrite hbind_run, (getitem_run _ _ _ _ _ Hd eq_refl).
  destruct Hd as (l & -> & Hl). cbn [keyed]. rewrite Hl.
  destruct (assoc "id" kvs) as [v |].
  - rewrite Hid, bool_decide_eq_true_2 by eauto. exact IH.
  - rewrite bool_decide_eq_false_2 by (intros [? [=]]). reflexivity.
Qed.

Lemma find_by_id_unmatched id items m :
  Forall (unmatched (mem m) id) items ->
  find_by_id id items m
  = (if forallb (keyed (mem m) "id") items then Ret None
     else Err (KeyErr "id"), m).
Proof.
  induction 1 as [| item items (kvs & Hd & Hid) _ IH]; [reflexivity |].
  cbn [find_by_id forallb].
  rewrite hbind_run, (getitem_run _ _ _ _ _ Hd eq_refl).
  destruct Hd as (l & -> & Hl). cbn [keyed]. rewrite Hl.
  destruct (assoc "id" kvs) as [v |].
  - rewrite Hid, bool_decide_eq_true_2 by eauto. exact IH.
  - rewrite bool_decide_eq_false_2 by (intros [? [=]]). reflexivity.
Qed.

Lemma find_by_id_skip id items m :
  Forall (has_other_id (mem m) id) items ->
  forall rest, find_by_id id (items ++ rest) m = find_by_id id rest m.
Proof.
  induction 1 as [| item items (kvs & v & Hd & Hid & Hne) _ IH]; intros rest;
    [reflexivity |].
  cbn [app find_by_id].
  rewrite hbind_run, (getitem_run _ _ _ _ _ Hd eq_refl), Hid, Hne.
  apply IH.
Qed.

Lemma find_by_id_hit id item rest m :
  has_id (mem m) id item ->
  find_by_id id (item :: rest) m = (Ret (Some item), m).
Proof.
  intros (kvs & v & Hd & Hid & Hv). cbn [find_by_id].
  rewrite hbind_run, (getitem_run _ _ _ _ _ Hd eq_refl), Hid, Hv.
  reflexivity.
Qed.

Lemma log_change_run section fields l entries m :
  log_at self (mem m) section l entries ->
  log_change self section (mret fields) m
  = (Ret tt, with_mem (logged l fields (mem m)) m).
Proof.
  intros (ckvs & Hc & Hs & Hl). unfold log_change.
  rewrite hbind_run, (getitem_run _ _ _ _ _ Hc eq_refl), Hs.
  rewrite hbind_run, (append_method_run _ _ _ _ Hl eq_refl).
  rewrite hbind_run, hret_run. reflexivity.
Qed.


Lemma dict_at_appended h l v x kvs :
  dict_at h x kvs -> dict_at (appended l v h) x kvs.
Proof.
  intros (l' & -> & Hl'). exists l'. split; [reflexivity |].
  unfold appended. destruct (decide (l' = l)) as [-> | Hne].
  - rewrite list_lookup_alter_eq, Hl'. reflexivity.
  - rewrite list_lookup_alter_ne by congruence. exact Hl'.
Qed.

Lemma dict_at_app h o x kvs : dict_at h x kvs -> dict_at (h ++ [o]) x kvs.
Proof.
  intros (l & -> & Hl). exists l. split; [reflexivity |].
  apply lookup_app_l_Some, Hl.
Qed.

Lemma dict_at_logged h l fields x kvs :
  dict_at h x kvs -> dict_at (logged l fields h) x kvs.
Proof. intros H. apply dict_at_appended, dict_at_app, H. Qed.

Lemma list_after_appended h l v l' vs :
  h !! l' = Some (OList vs) ->
  exists vs', appended l v h !! l' = Some (OList vs').
Proof.
  intros Hl'. unfold appended. destruct (decide (l' = l)) as [-> | Hne].
  - rewrite list_lookup_alter_eq, Hl'. cbn. eauto.
  - rewrite list_lookup_alter_ne by congruence. eauto.
Qed.

Lemma log_at_appended section h l v llog entries :
  log_at self h section llog entries ->
  exists entries', log_at self (appended l v h) section llog entries'.
Proof.
  intros (ckvs & Hc & Hs & Hl).
  destruct (list_after_appended h l v llog entries Hl) as [entries' H'].
  exists entries', ckvs. split; [apply dict_at_appended, Hc |]. auto.
Qed.

Lemma log_at_setitem section h l kvs k v llog entries :
  h !! l = Some (ODict kvs) -> k <> section ->
  log_at self h section llog entries ->
  log_at self (<[l := ODict (assoc_set k v kvs)]> h) section llog entries.
Proof.
  intros Hl Hk (ckvs & (lc & Hc & Hlc) & Hs & Hlog).
  assert (Hlt : (l < length h)%nat) by (apply lookup_lt_Some in Hl; exact Hl).
  destruct (decide (lc = l)) as [-> | Hne].
  - exists (assoc_set k v kvs). split; [| split].
    + exists l. split; [exact Hc |]. apply list_lookup_insert_eq. exact Hlt.
    + rewrite assoc_set_other by congruence. congruence.
    + rewrite list_lookup_insert_ne by congruence. exact Hlog.
  - exists ckvs. split; [| split; [exact Hs |]].
    + exists lc. split; [exact Hc |].
      rewrite list_lookup_insert_ne by congruence. exact Hlc.
    + rewrite list_lookup_insert_ne by congruence. exact Hlog.
Qed.

Lemma update_status_loop_hit section id_key id status l kvs v old
    llog entries rest m :
  mem m !! l = Some (ODict kvs) ->
  assoc "id" kvs = Some v -> is_str id v = true ->
  assoc "status" kvs = Some old ->
  section <> "status" ->
  log_at self (mem m) section llog entries ->
  update_status_loop self section id_key id status (VRef l :: rest) m
  = (Ret tt,
     with_mem
       (logged llog
          [("action", str "update_status"); (id_key, str id);
           ("old_status", old); ("new_status", str status)]
          (<[l := ODict (assoc_set "status" (str status) kvs)]> (mem m)))
       m).
Proof.
  intros Hl Hid Hv Hold Hsec Hlog. cbn [update_status_loop].
  assert (Hd : dict_at (mem m) (VRef l) kvs) by (exists l; auto).
  rewrite hbind_run, (getitem_run _ _ _ _ _ Hd eq_refl), Hid, Hv.
  rewrite hbind_run, (getitem_run _ _ _ _ _ Hd eq_refl), Hold.
  rewrite hbind_run, (setitem_run _ _ _ _ _ _ Hl eq_refl).
  erewrite log_change_run
    by (apply log_at_setitem; [exact Hl | congruence | exact Hlog]).
  reflexivity.
Qed.

End Facts.

End ApiFacts.

(** [update_contract_status] and [update_order_status] with an identifier
    that no contract, or no order, has: nothing is changed and nothing is
    logged.  The call returns when every entity of the list has the key
    ["id"]; when one has not ([add_contract] and [add_order] keep such an
    entity), the comparison of lines 385 and 423 raises [KeyError]. *)
Theorem unknown_id_changes_nothing (self : Store.Engine) (id status : string)
    (m : Api.Machine) (cs os : list Store.val) :
  ApiProps.list_at (Api.mem m) (Store.contracts self) cs ->
  Forall (ApiProps.unmatched (Api.mem m) id) cs ->
  ApiProps.list_at (Api.mem m) (Store.orders self) os ->
  Forall (ApiProps.unmatched (Api.mem m) id) os ->
  Api.update_contract_status self id status m
  = (if forallb (ApiProps.keyed (Api.mem m) "id") cs then Api.Ret tt
     else Api.Err (Api.KeyErr "id"), m)
  /\ Api.update_order_status self id status m
     = (if forallb (ApiProps.keyed (Api.mem m) "id") os then Api.Ret tt
        else Api.Err (Api.KeyErr "id"), m).
Proof.
  intros Hcs Hc Hos Ho. split.
  - unfold Api.update_contract_status.
    rewrite ApiFacts.hbind_run, (ApiFacts.iter_run _ _ _ _ Hcs eq_refl).
    apply ApiFacts.update_status_loop_unmatched, Hc.
  - unfold Api.update_order_status.
    rewrite ApiFacts.hbind_run, (ApiFacts.iter_run _ _ _ _ Hos eq_refl).
    apply ApiFacts.update_status_loop_unmatched, Ho.
Qed.

(** On [ApiDemo.stock] the contract has an identifier and the order has
    none. *)
Lemma unknown_id_changes_nothing_witness :
  Api.update_contract_status ApiDemo.stock_engine "order_9" "cancelled"
    ApiDemo.stock
  = (Api.Ret tt, ApiDemo.stock)
  /\ Api.update_order_status ApiDemo.stock_engine "order_9" "cancelled"
       ApiDemo.stock
     = (Api.Err (Api.KeyErr "id"), ApiDemo.stock).
Proof.
  apply (unknown_id_changes_nothing ApiDemo.stock_engine "order_9"
           "cancelled" ApiDemo.stock [Store.VRef 0%nat] [Store.VRef 1%nat]).
  - exists 2%nat. split; reflexivity.
  - constructor; [| constructor].
    eexists. split; [eexists; split; reflexivity | reflexivity].
  - exists 3%nat. split; reflexivity.
  - constructor; [| constructor].
    eexists. split; [eexists; split; reflexivity | exact I].
Defined.

Lemma status_update_run (self : Store.Engine)
    (id status : string) (m : Api.Machine) (before after : list Store.val)
    (l : nat) (kvs : list (string * Store.val)) (old : Store.val)
    (llog : nat) (entries : list Store.val) :
  ApiProps.list_at (Api.mem m) (Store.orders self)
    (before ++ Store.VRef l :: after) ->
  Forall (ApiProps.has_other_id (Api.mem m) id) before ->
  ApiProps.has_id (Api.mem m) id (Store.VRef l) ->
  Api.mem m !! l = Some (Store.ODict kvs) ->
  Api.assoc "status" kvs = Some old ->
  ApiProps.log_at self (Api.mem m) "orders" llog entries ->
  Api.update_order_status self id status m
  = (Api.Ret tt,
     ApiProps.with_mem
       (ApiProps.logged llog
          [("action", Api.str "update_status"); ("order_id", Api.str id);
           ("old_status", old); ("new_status", Api.str status)]
          (<[l := Store.ODict
                    (Api.assoc_set "status" (Api.str status) kvs)]>
             (Api.mem m)))
       m).
Proof.
  intros Hos Hbefore (kvs' & v & (l' & [= <-] & Hl') & Hid & Hv) Hl Hold Hlog.
  assert (kvs' = kvs) as -> by congruence.
  unfold Api.update_order_status.
  rewrite ApiFacts.hbind_run, (ApiFacts.iter_run _ _ _ _ Hos eq_refl).
  rewrite (ApiFacts.update_status_loop_skip self _ _ _ _ _ _ Hbefore).
  apply (ApiFacts.update_status_loop_hit self _ _ _ _ _ _ v old llog entries);
    [assumption .. | discriminate | assumption].
Qed.

(** [update_order_status] changes the first order with the identifier, and
    only that one, also when a later order has the same identifier: its
    status is replaced, and one entry with the old and the new status is
    appended to the order log.  Nothing else of the store changes. *)
Theorem status_update_hits_first_match (self : Store.Engine)
    (id status : string) (m : Api.Machine) (before after : list Store.val)
    (l : nat) (kvs : list (string * Store.val)) (old : Store.val)
    (llog : nat) (entries : list Store.val) :
  ApiProps.list_at (Api.mem m) (Store.orders self)
    (before ++ Store.VRef l :: after) ->
  Forall (ApiProps.has_other_id (Api.mem m) id) before ->
  ApiProps.has_id (Api.mem m) id (Store.VRef l) ->
  Api.mem m !! l = Some (Store.ODict kvs) ->
  Api.assoc "status" kvs = Some old ->
  ApiProps.log_at self (Api.mem m) "orders" llog entries ->
  Api.update_order_status self id status m
  = (Api.Ret tt,
     ApiProps.with_mem
       (ApiProps.logged llog
          [("action", Api.str "update_status"); ("order_id", Api.str id);
           ("old_status", old); ("new_status", Api.str status)]
          (<[l := Store.ODict
                    (Api.assoc_set "status" (Api.str status) kvs)]>
             (Api.mem m)))
       m).
Proof.
  intros Hos Hbefore (kvs' & v & (l' & [= <-] & Hl') & Hid & Hv) Hl Hold Hlog.
  assert (kvs' = kvs) as -> by congruence.
  unfold Api.update_order_status.
  rewrite ApiFacts.hbind_run, (ApiFacts.iter_run _ _ _ _ Hos eq_refl).
  rewrite (ApiFacts.update_status_loop_skip self _ _ _ _ _ _ Hbefore).
  apply (ApiFacts.update_status_loop_hit self _ _ _ _ _ _ v old llog entries);
    [assumption .. | discriminate | assumption].
Qed.

Lemma status_update_hits_first_match_witness :
  Api.update_order_status ApiDemo.engine "order_1" "delivered" ApiDemo.machine
  = (Api.Ret tt,
     ApiProps.with_mem
       (ApiProps.logged 6
          [("action", Api.str "update_status");
           ("order_id", Api.str "order_1");
           ("old_status", Api.str "placed");
           ("new_status", Api.str "delivered")]
          (<[0%nat := ApiDemo.placed_order "order_1" "delivered"]>
             ApiDemo.objects))
       ApiDemo.machine).
Proof.
  apply (status_update_hits_first_match ApiDemo.engine "order_1" "delivered"
           ApiDemo.machine [] [Store.VRef 1%nat] 0
           [("id", Api.str "order_1");
            ("supplier_name", Api.str "Ethiopia Coffee Cooperative 1");
            ("status", Api.str "placed");
            ("volume_lbs", Store.VAtom (Store.AInt 2500));
            ("expected_delivery_date", Api.str "2025-12-15");
            ("shipping_details", Store.VRef 9%nat)]
           (Api.str "placed") 6 []).
  - exists 2%nat. split; reflexivity.
  - constructor.
  - eexists _, _. split; [eexists; split; reflexivity |]. split; reflexivity.
  - reflexivity.
  - reflexivity.
  - eexists. split; [eexists; split; reflexivity |]. split; reflexivity.
Defined.

Lemma add_order_run (self : Store.Engine) (x : Store.val)
    (kvs : list (string * Store.val)) (m : Api.Machine)
    (lo : nat) (os : list Store.val) (lolog : nat)
    (oentries : list Store.val) :
  ApiProps.dict_at (Api.mem m) x kvs ->
  Store.orders self = Store.VRef lo ->
  Api.mem m !! lo = Some (Store.OList os) ->
  ApiProps.log_at self (Api.mem m) "orders" lolog oentries ->
  Api.add_order self x m
  = match Api.assoc "id" kvs with
    | None =>
        (Api.Err (Api.KeyErr "id"),
         ApiProps.with_mem (ApiProps.appended lo x (Api.mem m)) m)
    | Some id =>
        (Api.Ret tt,
         ApiProps.with_mem
           (ApiProps.logged lolog
              [("id", id); ("action", Api.str "created");
               ("supplier",
                default (Api.str "Unknown")
                  (Api.assoc "supplier_name" kvs));
               ("volume",
                default (Store.VAtom (Store.AInt 0))
                  (Api.assoc "volume_lbs" kvs))]
              (ApiProps.appended lo x (Api.mem m))) m)
    end.
Proof.
  intros Hx Ho Hlo Holog.
  unfold Api.add_order. rewrite Ho.
  rewrite ApiFacts.hbind_run,
    (ApiFacts.append_method_run _ _ _ _ Hlo eq_refl).
  rewrite ApiFacts.hbind_run.
  change (Api.push_back lo x m)
    with (Api.Ret tt, ApiProps.with_mem (ApiProps.appended lo x (Api.mem m)) m).
  cbv beta iota.
  set (m1 := ApiProps.with_mem (ApiProps.appended lo x (Api.mem m)) m).
  destruct (ApiFacts.log_at_appended self _ _ lo x _ _ Holog)
    as (entries' & ckvs & Hd & Hs & Hl).
  pose proof (ApiFacts.dict_at_appended _ lo x _ _ Hx) as Hx'.
  unfold Api.log_change.
  rewrite ApiFacts.hbind_run, (ApiFacts.getitem_run _ _ _ _ m1 Hd eq_refl), Hs.
  rewrite ApiFacts.hbind_run,
    (ApiFacts.append_method_run _ _ _ m1 Hl eq_refl).
  rewrite ApiFacts.hbind_run, ApiFacts.hbind_run,
    (ApiFacts.getitem_run _ _ _ _ m1 Hx' eq_refl).
  destruct (Api.assoc "id" kvs); [| reflexivity].
  rewrite ApiFacts.hbind_run, (ApiFacts.get_or_run _ _ _ _ _ m1 Hx' eq_refl).
  rewrite ApiFacts.hbind_run, (ApiFacts.get_or_run _ _ _ _ _ m1 Hx' eq_refl).
  reflexivity.
Qed.

(** [add_contract] and [add_order] append the dictionary they are given,
    itself and not a copy, before they read its identifier for the log:
    with the key ["id"] the entity is appended and logged (an order with
    the defaults ["Unknown"] and [0] for a missing supplier name and
    volume); without it [KeyError] is raised after the entity was appended,
    and nothing is logged.  An entity with an identifier that is there
    already is appended all the same. *)
Theorem add_appends_before_logging (self : Store.Engine) (x : Store.val)
    (kvs : list (string * Store.val)) (m : Api.Machine)
    (lc lo : nat) (cs os : list Store.val)
    (lclog lolog : nat) (centries oentries : list Store.val) :
  ApiProps.dict_at (Api.mem m) x kvs ->
  Store.contracts self = Store.VRef lc ->
  Api.mem m !! lc = Some (Store.OList cs) ->
  ApiProps.log_at self (Api.mem m) "contracts" lclog centries ->
  Store.orders self = Store.VRef lo ->
  Api.mem m !! lo = Some (Store.OList os) ->
  ApiProps.log_at self (Api.mem m) "orders" lolog oentries ->
  Api.add_contract self x m
  = match Api.assoc "id" kvs with
    | None =>
        (Api.Err (Api.KeyErr "id"),
         ApiProps.with_mem (ApiProps.appended lc x (Api.mem m)) m)
    | Some id =>
        (Api.Ret tt,
         ApiProps.with_mem
           (ApiProps.logged lclog
              [("action", Api.str "add"); ("contract_id", id)]
              (ApiProps.appended lc x (Api.mem m))) m)
    end
  /\ Api.add_order self x m
     = match Api.assoc "id" kvs with
       | None =>
           (Api.Err (Api.KeyErr "id"),
            ApiProps.with_mem (ApiProps.appended lo x (Api.mem m)) m)
       | Some id =>
           (Api.Ret tt,
            ApiProps.with_mem
              (ApiProps.logged lolog
                 [("id", id); ("action", Api.str "created");
                  ("supplier",
                   default (Api.str "Unknown")
                     (Api.assoc "supplier_name" kvs));
                  ("volume",
                   default (Store.VAtom (Store.AInt 0))
                     (Api.assoc "volume_lbs" kvs))]
                 (ApiProps.appended lo x (Api.mem m))) m)
       end.
Proof.
  intros Hx Hc Hlc Hclog Ho Hlo Holog. split.
  - unfold Api.add_contract. rewrite Hc.
    rewrite ApiFacts.hbind_run,
      (ApiFacts.append_method_run _ _ _ _ Hlc eq_refl).
    rewrite ApiFacts.hbind_run.
    change (Api.push_back lc x m)
      with (Api.Ret tt, ApiProps.with_mem (ApiProps.appended lc x (Api.mem m)) m).
    cbv beta iota.
    set (m1 := ApiProps.with_mem (ApiProps.appended lc x (Api.mem m)) m).
    destruct (ApiFacts.log_at_appended self _ _ lc x _ _ Hclog)
      as (entries' & ckvs & Hd & Hs & Hl).
    pose proof (ApiFacts.dict_at_appended _ lc x _ _ Hx) as Hx'.
    unfold Api.log_change.
    rewrite ApiFacts.hbind_run, (ApiFacts.getitem_run _ _ _ _ m1 Hd eq_refl), Hs.
    rewrite ApiFacts.hbind_run,
      (ApiFacts.append_method_run _ _ _ m1 Hl eq_refl).
    rewrite ApiFacts.hbind_run, ApiFacts.hbind_run,
      (ApiFacts.getitem_run _ _ _ _ m1 Hx' eq_refl).
    destruct (Api.assoc "id" kvs); reflexivity.
  - apply (add_order_run self x kvs m lo os lolog oentries); assumption.
Qed.

Lemma add_appends_before_logging_witness :
  Api.add_contract ApiDemo.engine (Store.VRef 12%nat) ApiDemo.nameless
  = (Api.Err (Api.KeyErr "id"),
     ApiProps.with_mem
       (ApiProps.appended 3 (Store.VRef 12%nat) (Api.mem ApiDemo.nameless))
       ApiDemo.nameless)
  /\ Api.add_order ApiDemo.engine (Store.VRef 12%nat) ApiDemo.nameless
     = (Api.Err (Api.KeyErr "id"),
        ApiProps.with_mem
          (ApiProps.appended 2 (Store.VRef 12%nat) (Api.mem ApiDemo.nameless))
          ApiDemo.nameless).
Proof.
  apply (add_appends_before_logging ApiDemo.engine (Store.VRef 12%nat)
           [("status", Api.str "placed")] ApiDemo.nameless 3 2 []
           [Store.VRef 0%nat; Store.VRef 1%nat] 5 6 [] []).
  - eexists. split; reflexivity.
  - reflexivity.
  - reflexivity.
  - eexists. split; [eexists; split; reflexivity |]. split; reflexivity.
  - reflexivity.
  - reflexivity.
  - eexists. split; [eexists; split; reflexivity |]. split; reflexivity.
Defined.

(** The simulator keeps the dictionary that [add_order] is given, not a
    copy of it: when no order had its identifier before, a later
    [update_order_status] with that identifier writes the new status to the
    caller's own object. *)
Theorem added_order_is_shared (self : Store.Engine) (id status : string)
    (m : Api.Machine) (lo l llog : nat) (os entries : list Store.val)
    (kvs : list (string * Store.val)) (old : Store.val) :
  Store.orders self = Store.VRef lo ->
  Api.mem m !! lo = Some (Store.OList os) ->
  Forall (ApiProps.has_other_id (Api.mem m) id) os ->
  Api.mem m !! l = Some (Store.ODict kvs) ->
  Api.assoc "id" kvs = Some (Api.str id) ->
  Api.assoc "status" kvs = Some old ->
  ApiProps.log_at self (Api.mem m) "orders" llog entries ->
  llog <> lo ->
  exists m1 m2,
    Api.add_order self (Store.VRef l) m = (Api.Ret tt, m1)
    /\ Api.update_order_status self id status m1 = (Api.Ret tt, m2)
    /\ Api.getitem (Store.VRef l) "status" m2 = (Api.Ret (Api.str status), m2).
Proof.
  intros Ho Hlo Hos Hl Hid Hold Hlog Hne.
  assert (Hx : ApiProps.dict_at (Api.mem m) (Store.VRef l) kvs)
    by (exists l; auto).
  pose proof (add_order_run self _ _ m lo os llog entries Hx Ho Hlo Hlog)
    as Hadd.
  rewrite Hid in Hadd.
  set (fields := [("id", Api.str id); ("action", Api.str "created");
                  ("supplier", _); ("volume", _)]) in Hadd.
  set (h1 := ApiProps.logged llog fields
               (ApiProps.appended lo (Store.VRef l) (Api.mem m))) in Hadd.
  set (m1 := ApiProps.with_mem h1 m) in Hadd.
  assert (Hlt : (l < length (Api.mem m))%nat)
    by (apply lookup_lt_Some in Hl; exact Hl).
  assert (Hlot : (lo < length (Api.mem m))%nat)
    by (apply lookup_lt_Some in Hlo; exact Hlo).
  assert (Hl1 : h1 !! l = Some (Store.ODict kvs)).
  { destruct (ApiFacts.dict_at_logged _ llog fields _ _
                (ApiFacts.dict_at_appended _ lo (Store.VRef l) _ _ Hx))
      as (l' & [= <-] & H). exact H. }
  assert (Hlo1 : h1 !! lo = Some (Store.OList (os ++ [Store.VRef l]))).
  { unfold h1, ApiProps.logged, ApiProps.appended.
    rewrite list_lookup_alter_ne by congruence.
    rewrite lookup_app_l by (rewrite length_alter; exact Hlot).
    rewrite list_lookup_alter_eq, Hlo. reflexivity. }
  assert (Hos1 : Forall (ApiProps.has_other_id h1 id) os).
  { eapply Forall_impl; [exact Hos |].
    intros item (kvs' & v & Hd & Hi & Hv). exists kvs', v.
    split; [| auto].
    apply ApiFacts.dict_at_logged, ApiFacts.dict_at_appended, Hd. }
  assert (Hlog1 : exists entries',
             ApiProps.log_at self h1 "orders" llog entries').
  { destruct Hlog as (ckvs & Hc & Hs & Hll).
    destruct (ApiFacts.list_after_appended _ lo (Store.VRef l) _ _ Hll)
      as (e1 & He1).
    assert (He1' : (ApiProps.appended lo (Store.VRef l) (Api.mem m)
                    ++ [Store.ODict fields])%list !! llog
                   = Some (Store.OList e1))
      by (apply lookup_app_l_Some, He1).
    destruct (ApiFacts.list_after_appended _ llog
                (Store.VRef (length (ApiProps.appended lo (Store.VRef l)
                                       (Api.mem m)))) _ _ He1')
      as (e2 & He2).
    exists e2, ckvs. split; [| split; [exact Hs | exact He2]].
    apply ApiFacts.dict_at_logged, ApiFacts.dict_at_appended, Hc. }
  destruct Hlog1 as (entries' & Hlog1).
  pose proof (status_update_run self id status m1 os [] l kvs old llog entries')
    as Hupd.
  assert (Hlist : ApiProps.list_at (Api.mem m1) (Store.orders self)
                    (os ++ [Store.VRef l]))
    by (exists lo; split; [exact Ho | exact Hlo1]).
  assert (Hhit : ApiProps.has_id (Api.mem m1) id (Store.VRef l)).
  { exists kvs, (Api.str id). split; [exists l; auto |].
    split; [exact Hid |]. cbn. apply bool_decide_eq_true_2. reflexivity. }
  specialize (Hupd Hlist Hos1 Hhit Hl1 Hold Hlog1).
  exists m1. eexists. split; [exact Hadd |]. split; [exact Hupd |].
  erewrite ApiFacts.getitem_run;
    [rewrite ApiFacts.assoc_set_same; reflexivity | | reflexivity].
  cbn [Api.mem ApiProps.with_mem].
  apply ApiFacts.dict_at_logged.
  exists l. split; [reflexivity |].
  apply list_lookup_insert_eq. apply lookup_lt_Some in Hl1. exact Hl1.
Qed.

Lemma added_order_is_shared_witness :
  exists m1 m2,
    Api.add_order ApiDemo.engine (Store.VRef 12%nat) ApiDemo.fresh
    = (Api.Ret tt, m1)
    /\ Api.update_order_status ApiDemo.engine "order_2" "cancelled" m1
       = (Api.Ret tt, m2)
    /\ Api.getitem (Store.VRef 12%nat) "status" m2
       = (Api.Ret (Api.str "cancelled"), m2).
Proof.
  apply (added_order_is_shared ApiDemo.engine "order_2" "cancelled"
           ApiDemo.fresh 2 12 6 [Store.VRef 0%nat; Store.VRef 1%nat] []
           [("id", Api.str "order_2"); ("status", Api.str "placed")]
           (Api.str "placed")).
  - reflexivity.
  - reflexivity.
  - repeat (constructor;
            [eexists _, _; split; [eexists; split; reflexivity |];
             split; reflexivity |]).
    constructor.
  - reflexivity.
  - reflexivity.
  - reflexivity.
  - eexists. split; [eexists; split; reflexivity |]. split; reflexivity.
  - discriminate.
Defined.

(** ** Tracking an order *)

Module TrackingFacts.

Import Store Api ApiProps.

Section Rules.

Context {A : Type}.

Lemma hoare_ret (I : list obj -> Prop) (a : A) (Q : A -> list obj -> Prop) E :
  (forall h, I h -> Q a h) -> hoare I (mret a) Q E.
Proof. intros H m Hm. apply H, Hm. Qed.

Lemma hoare_conseq (I I' : list obj -> Prop) (c : H A)
    (Q Q' : A -> list obj -> Prop) (E E' : list obj -> Prop) :
  (forall h, I' h -> I h) -> (forall a h, Q a h -> Q' a h) ->
  (forall h, E h -> E' h) -> hoare I c Q E -> hoare I' c Q' E'.
Proof.
  intros HI HQ HE H m Hm. specialize (H m (HI _ Hm)).
  destruct (c m) as [[a | e |] m']; auto.
Qed.

Lemma hoare_bind {B} (I : list obj -> Prop) (c : H B)
    (Q : B -> list obj -> Prop) (k : B -> H A) (R : A -> list obj -> Prop) E :
  hoare I c Q E -> (forall b, hoare (Q b) (k b) R E) -> hoare I (c ≫= k) R E.
Proof.
  intros Hc Hk m Hm. rewrite ApiFacts.hbind_run. specialize (Hc m Hm).
  destruct (c m) as [[b | e |] m']; [apply Hk, Hc | exact Hc ..].
Qed.

Lemma hoare_quiet (I E : list obj -> Prop) (c : H A) :
  quiet c -> (forall h, I h -> E h) -> hoare I c (fun _ => I) E.
Proof.
  intros Hq HE m Hm. specialize (Hq m).
  destruct (c m) as [[a | e |] m']; cbn [snd] in Hq; rewrite Hq; auto.
Qed.

End Rules.

Lemma hoare_quiet_bind {A B} (I E : list obj -> Prop) (c : H B)
    (k : B -> H A) (R : A -> list obj -> Prop) :
  quiet c -> (forall h, I h -> E h) ->
  (forall b, hoare I (k b) R E) -> hoare I (c ≫= k) R E.
Proof.
  intros Hq HE Hk. apply (hoare_bind _ _ (fun _ => I)); [| exact Hk].
  apply hoare_quiet; assumption.
Qed.

(** *** The computations that leave the heap as it is *)

Lemma quiet_ret {A} (a : A) : quiet (mret a : H A).
Proof. intros m. reflexivity. Qed.

Lemma quiet_throw {A} e : quiet (@throw A e).
Proof. intros m. reflexivity. Qed.

Lemma quiet_bind {A B} (c : H A) (k : A -> H B) :
  quiet c -> (forall a, quiet (k a)) -> quiet (c ≫= k).
Proof.
  intros Hc Hk m. rewrite ApiFacts.hbind_run. specialize (Hc m).
  destruct (c m) as [[a | e |] m']; cbn [snd] in *; [| exact Hc ..].
  rewrite Hk. exact Hc.
Qed.

Lemma quiet_load l : quiet (load l).
Proof. intros m. unfold load. destruct (mem m !! l); reflexivity. Qed.

Lemma quiet_getitem x k : quiet (getitem x k).
Proof.
  unfold getitem. destruct x as [a | l]; [apply quiet_throw |].
  apply quiet_bind; [apply quiet_load |].
  intros [vs | kvs]; [apply quiet_throw |].
  destruct (assoc k kvs); [apply quiet_ret | apply quiet_throw].
Qed.

Lemma quiet_get_opt x k : quiet (get_opt x k).
Proof.
  unfold get_opt. destruct x as [a | l]; [apply quiet_throw |].
  apply quiet_bind; [apply quiet_load |].
  intros [vs | kvs]; [apply quiet_throw | apply quiet_ret].
Qed.

Lemma quiet_get_or x k d : quiet (get_or x k d).
Proof.
  unfold get_or. apply quiet_bind; [apply quiet_get_opt |].
  intros v. apply quiet_ret.
Qed.

Lemma quiet_contains k x : quiet (contains k x).
Proof.
  unfold contains. destruct x as [[] | l];
    try apply quiet_throw; try apply quiet_ret.
  apply quiet_bind; [apply quiet_load |].
  intros [vs | kvs]; apply quiet_ret.
Qed.

Lemma quiet_iter x : quiet (iter x).
Proof.
  unfold iter. destruct x as [[] | l];
    try apply quiet_throw; try apply quiet_ret.
  apply quiet_bind; [apply quiet_load |].
  intros [vs | kvs]; apply quiet_ret.
Qed.

Lemma quiet_now : quiet now.
Proof. intros m. reflexivity. Qed.

Lemma quiet_random : quiet random.
Proof. intros m. reflexivity. Qed.

Lemma quiet_randint a b : quiet (randint a b).
Proof.
  unfold randint, randbelow. destruct (b <? a); [apply quiet_throw |].
  repeat (apply quiet_bind; [| intros ?]);
    first [apply quiet_random | apply quiet_ret].
Qed.

Lemma quiet_choice {A} (l : list A) : quiet (choice l).
Proof.
  unfold choice, randbelow. destruct l; [apply quiet_throw |].
  repeat (apply quiet_bind; [| intros ?]);
    first [apply quiet_random | apply quiet_ret].
Qed.

Lemma quiet_find_by_id id items : quiet (find_by_id id items).
Proof.
  induction items as [| item items IH]; cbn [find_by_id];
    [apply quiet_ret |].
  apply quiet_bind; [apply quiet_getitem |]. intros v.
  destruct (is_str id v); [apply quiet_ret | exact IH].
Qed.

Lemma quiet_parse_ymd `{DT : DatetimeLib} v : quiet (parse_ymd v).
Proof.
  unfold parse_ymd. destruct v as [[] | l]; try apply quiet_throw.
  destruct (strptime_ymd s); [apply quiet_ret | apply quiet_throw].
Qed.

Lemma quiet_get_country_for_region region :
  quiet (get_country_for_region region).
Proof.
  unfold get_country_for_region. destruct region as [[] | l];
    try apply quiet_throw; try apply quiet_ret.
  destruct (countries_of _ _); [| apply quiet_ret].
  apply quiet_bind; [apply quiet_choice | intros ?; apply quiet_ret].
Qed.

Ltac quiet_go :=
  repeat first
    [ apply quiet_ret | apply quiet_throw | apply quiet_getitem
    | apply quiet_get_opt | apply quiet_get_or | apply quiet_contains
    | apply quiet_iter | apply quiet_now | apply quiet_random
    | apply quiet_randint | apply quiet_choice | apply quiet_find_by_id
    | apply quiet_parse_ymd | apply quiet_get_country_for_region
    | match goal with
      | |- quiet (match ?x with _ => _ end) => destruct x
      end ].

(** *** Filling the tracking information *)

Lemma tracking_prefix h0 d t h : tracking h0 d t h -> h0 `prefix_of` h.
Proof. intros [H _]. exact H. Qed.

Lemma tracking_setitem h0 d t k v :
  k <> "shipping_details" ->
  hoare (tracking h0 d t) (setitem (VRef t) k v)
    (fun _ => tracking h0 d t) (prefix h0).
Proof.
  intros Hk m (Hpre & Hlen & fields & Ht & Hd).
  rewrite (ApiFacts.setitem_run _ _ _ _ _ _ Ht eq_refl). cbn [mem with_mem].
  assert (Hlt : (t < length (mem m))%nat)
    by (apply lookup_lt_Some in Ht; exact Ht).
  split; [| split; [exact Hlen |]].
  - destruct Hpre as [more E]. rewrite E.
    rewrite insert_app_r_alt by exact Hlen. apply prefix_app_r. reflexivity.
  - exists (assoc_set k v fields). split.
    + apply list_lookup_insert_eq. exact Hlt.
    + rewrite ApiFacts.assoc_set_other by congruence. exact Hd.
Qed.

Ltac tracking_step :=
  lazymatch goal with
  | |- hoare _ (mbind _ (setitem (VRef _) _ _)) _ _ =>
      eapply hoare_bind; [apply tracking_setitem; discriminate | intros ?]
  | |- hoare _ (setitem (VRef _) _ _) _ _ =>
      apply tracking_setitem; discriminate
  | |- hoare _ (mbind _ _) _ _ =>
      apply hoare_quiet_bind;
      [quiet_go | apply tracking_prefix | intros ?]
  | |- hoare _ (mret _) _ _ => apply hoare_ret; auto
  | |- hoare _ (if ?b then _ else _) _ _ => destruct b
  end.

Lemma tracking_details_fills `{DT : DatetimeLib} h0 d t order status :
  hoare (tracking h0 d t) (tracking_details order (VRef t) status)
    (fun _ => tracking h0 d t) (prefix h0).
Proof. unfold tracking_details. repeat tracking_step. Qed.


Lemma hoare_alloc (I E : list obj -> Prop) (o : obj) :
  hoare I (alloc o)
    (fun v h => exists h1, I h1 /\ h = (h1 ++ [o])%list
                           /\ v = VRef (length h1)) E.
Proof. intros m Hm. cbn. eauto. Qed.

Lemma hoare_known_bind {A B} (I E : list obj -> Prop) (c : H B) (b : B)
    (k : B -> H A) (R : A -> list obj -> Prop) :
  (forall m, I (mem m) -> c m = (Ret b, m)) ->
  hoare I (k b) R E -> hoare I (c ≫= k) R E.
Proof.
  intros Hc Hk m Hm. rewrite ApiFacts.hbind_run, (Hc m Hm). apply Hk, Hm.
Qed.

Lemma dict_at_prefix h0 h x kvs :
  h0 `prefix_of` h -> dict_at h0 x kvs -> dict_at h x kvs.
Proof.
  intros [more ->] (l & -> & Hl). exists l. split; [reflexivity |].
  apply lookup_app_l_Some, Hl.
Qed.

Lemma tracking_start h0 h1 d fields :
  h0 `prefix_of` h1 -> assoc "shipping_details" fields = Some d ->
  tracking h0 d (length h1) (h1 ++ [ODict fields]).
Proof.
  intros Hpre Hd. split; [| split].
  - etransitivity; [exact Hpre | apply prefix_app_r; reflexivity].
  - apply prefix_length, Hpre.
  - exists fields. split; [| exact Hd].
    rewrite lookup_app_r by lia. rewrite Nat.sub_diag. reflexivity.
Qed.

Section Tracking.

Context `{DT : DatetimeLib} (self : Engine) (h0 : list obj).

(** From the creation of the tracking information on. *)
Lemma tracking_filled order_id supplier_name status today d order :
  hoare (prefix h0)
    (tracking_info ← alloc (ODict
       [("order_id", str order_id);
        ("supplier_name", supplier_name);
        ("current_status", status);
        ("status_updated", str (strftime_ymd today));
        ("shipping_details", d)]);
     tracking_details order tracking_info status;;
     mret tracking_info)
    (fun v h => exists t, v = VRef t /\ tracking h0 d t h) (prefix h0).
Proof.
  eapply hoare_bind; [apply hoare_alloc |].
  intros v m (h1 & Hpre & Hm & ->).
  pose proof (tracking_start h0 h1 d
                [("order_id", str order_id);
                 ("supplier_name", supplier_name);
                 ("current_status", status);
                 ("status_updated", str (strftime_ymd today));
                 ("shipping_details", d)] Hpre eq_refl) as Ht.
  rewrite <- Hm in Ht.
  assert (Hh : hoare (tracking h0 d (length h1))
            (tracking_details order (VRef (length h1)) status;;
             mret (VRef (length h1)))
            (fun v h => exists t, v = VRef t /\ tracking h0 d t h)
            (prefix h0)).
  { eapply hoare_bind; [apply tracking_details_fills |].
    intros ?. apply hoare_ret. eauto. }
  exact (Hh m Ht).
Qed.

Lemma hoare_alloc_prefix {A} (o : obj) (a : val -> A) :
  hoare (prefix h0) (alloc o) (fun _ => prefix h0) (prefix h0).
Proof.
  intros m Hm. cbn.
  etransitivity; [exact Hm | apply prefix_app_r; reflexivity].
Qed.

Lemma tracking_reads_only order_id :
  hoare (prefix h0) (get_order_tracking self order_id)
    (fun _ => prefix h0) (prefix h0).
Proof.
  unfold get_order_tracking.
  apply hoare_quiet_bind; [quiet_go | auto |]. intros items.
  apply hoare_quiet_bind; [quiet_go | auto |]. intros [order |].
  - apply hoare_quiet_bind; [quiet_go | auto |]. intros status.
    apply hoare_quiet_bind; [quiet_go | auto |]. intros supplier_name.
    apply hoare_quiet_bind; [quiet_go | auto |]. intros today.
    apply hoare_quiet_bind; [quiet_go | auto |]. intros details.
    apply (hoare_bind _ _ (fun _ => prefix h0)).
    + destruct details as [d |]; [apply hoare_ret; auto |].
      apply (hoare_alloc_prefix _ id).
    + intros d.
      apply (hoare_conseq (prefix h0) _ _
               (fun v h => exists t, v = VRef t /\ tracking h0 d t h) _
               (prefix h0));
        [auto | | auto | apply tracking_filled].
      intros v h (t & _ & Ht). eapply tracking_prefix, Ht.
  - apply (hoare_alloc_prefix _ id).
Qed.

(** From the order found on, when it is a dict with shipping details. *)
Lemma tracking_shares order_id order kvs d :
  dict_at h0 order kvs -> assoc "shipping_details" kvs = Some d ->
  hoare (prefix h0)
    (status ← getitem order "status";
     supplier_name ← get_or order "supplier_name" (str "Unknown Supplier");
     today ← now;
     details ← get_opt order "shipping_details";
     shipping_details ← match details with
                        | Some d => mret d
                        | None => alloc (ODict [])
                        end;
     tracking_info ← alloc (ODict
       [("order_id", str order_id);
        ("supplier_name", supplier_name);
        ("current_status", status);
        ("status_updated", str (strftime_ymd today));
        ("shipping_details", shipping_details)]);
     tracking_details order tracking_info status;;
     mret tracking_info)
    (fun v h => exists t, v = VRef t /\ tracking h0 d t h) (prefix h0).
Proof.
  intros Ho Hd.
  apply hoare_quiet_bind; [quiet_go | auto |]. intros status.
  apply hoare_quiet_bind; [quiet_go | auto |]. intros supplier_name.
  apply hoare_quiet_bind; [quiet_go | auto |]. intros today.
  apply (hoare_known_bind _ _ _ (Some d)).
  { intros m Hm.
    rewrite (ApiFacts.get_opt_run _ _ _ _ _ (dict_at_prefix _ _ _ _ Hm Ho)
               eq_refl), Hd. reflexivity. }
  apply (hoare_known_bind _ _ _ d); [reflexivity |].
  apply tracking_filled.
Qed.

End Tracking.

End TrackingFacts.

(** [get_order_tracking] changes no object of the store, whatever the store
    holds and whether it returns or raises: the objects that were there
    before the call are there after it, unchanged, followed by the ones the
    call created. *)
Theorem tracking_leaves_store `{DT : DatetimeLib} (self : Store.Engine)
    (order_id : string) (m : Api.Machine) :
  Api.mem m `prefix_of` Api.mem (Api.get_order_tracking self order_id m).2.
Proof.
  pose proof (TrackingFacts.tracking_reads_only self (Api.mem m) order_id m
                ltac:(reflexivity)) as H.
  destruct (Api.get_order_tracking self order_id m) as [[v | e |] m'];
    exact H.
Qed.

(** For an identifier that no order has, [get_order_tracking] draws
    nothing and changes no object.  When every order has the key ["id"] it
    returns a new dictionary with the one key ["error"]; when one has not,
    the search of line 509 raises [KeyError]. *)
Theorem tracking_unknown_order `{DT : DatetimeLib} (self : Store.Engine)
    (order_id : string) (m : Api.Machine) (os : list Store.val) :
  ApiProps.list_at (Api.mem m) (Store.orders self) os ->
  Forall (ApiProps.unmatched (Api.mem m) order_id) os ->
  Api.get_order_tracking self order_id m
  = if forallb (ApiProps.keyed (Api.mem m) "id") os then
      (Api.Ret (Store.VRef (length (Api.mem m))),
       ApiProps.with_mem
         (Api.mem m
          ++ [Store.ODict
                [("error",
                  Api.str ("Order with ID " +:+ order_id +:+ " not found"))]])
         m)
    else (Api.Err (Api.KeyErr "id"), m).
Proof.
  intros Hos Ho. unfold Api.get_order_tracking.
  rewrite ApiFacts.hbind_run, (ApiFacts.iter_run _ _ _ _ Hos eq_refl).
  rewrite ApiFacts.hbind_run, (ApiFacts.find_by_id_unmatched _ _ _ Ho).
  destruct (forallb _ os); reflexivity.
Qed.

(** The two orders of [ApiDemo.machine] have identifiers; the order of
    [ApiDemo.stock] has none. *)
Lemma tracking_unknown_order_witness :
  Api.get_order_tracking (DT := Calendar.calendar) ApiDemo.engine "order_9"
    ApiDemo.machine
  = (Api.Ret (Store.VRef 12%nat),
     ApiProps.with_mem
       (ApiDemo.objects
        ++ [Store.ODict
              [("error", Api.str "Order with ID order_9 not found")]])
       ApiDemo.machine)
  /\ Api.get_order_tracking (DT := Calendar.calendar) ApiDemo.stock_engine
       "order_9" ApiDemo.stock
     = (Api.Err (Api.KeyErr "id"), ApiDemo.stock).
Proof.
  split.
  - apply (tracking_unknown_order (DT := Calendar.calendar) ApiDemo.engine
             "order_9" ApiDemo.machine [Store.VRef 0%nat; Store.VRef 1%nat]).
    + exists 2%nat. split; reflexivity.
    + repeat (constructor;
              [eexists; split; [eexists; split; reflexivity | reflexivity] |]).
      constructor.
  - apply (tracking_unknown_order (DT := Calendar.calendar)
             ApiDemo.stock_engine "order_9" ApiDemo.stock [Store.VRef 1%nat]).
    + exists 3%nat. split; reflexivity.
    + constructor; [| constructor].
      eexists. split; [eexists; split; reflexivity | exact I].
Defined.

(** The tracking information that [get_order_tracking] returns for an
    order with shipping details holds the very value the order holds: when
    it is a dictionary, the caller and the simulator share it, and what the
    caller writes to it is written to the order of the simulator (the
    accessors return copies; this method does not). *)
Theorem tracking_shares_shipping_details `{DT : DatetimeLib}
    (self : Store.Engine) (order_id : string) (m m' : Api.Machine)
    (before after : list Store.val) (order d t : Store.val)
    (kvs : list (string * Store.val)) :
  ApiProps.list_at (Api.mem m) (Store.orders self)
    (before ++ order :: after) ->
  Forall (ApiProps.has_other_id (Api.mem m) order_id) before ->
  ApiProps.has_id (Api.mem m) order_id order ->
  ApiProps.dict_at (Api.mem m) order kvs ->
  Api.assoc "shipping_details" kvs = Some d ->
  Api.get_order_tracking self order_id m = (Api.Ret t, m') ->
  Api.getitem t "shipping_details" m' = (Api.Ret d, m')
  /\ Api.getitem order "shipping_details" m' = (Api.Ret d, m')
  /\ t <> order.
Proof.
  intros Hos Hbefore Hhit Ho Hd Hrun.
  unfold Api.get_order_tracking in Hrun.
  rewrite ApiFacts.hbind_run, (ApiFacts.iter_run _ _ _ _ Hos eq_refl) in Hrun.
  rewrite ApiFacts.hbind_run, (ApiFacts.find_by_id_skip _ _ _ Hbefore),
    (ApiFacts.find_by_id_hit _ _ _ _ Hhit) in Hrun.
  cbv beta iota in Hrun.
  pose proof (TrackingFacts.tracking_shares (Api.mem m) order_id order kvs d
                Ho Hd m ltac:(reflexivity)) as H.
  rewrite Hrun in H. destruct H as (lt & -> & Hpre & Hlen & fields & Ht & Hf).
  split; [| split].
  - rewrite (ApiFacts.getitem_run (Api.mem m') (Store.VRef lt) fields);
      [rewrite Hf; reflexivity | exists lt; auto | reflexivity].
  - rewrite (ApiFacts.getitem_run (Api.mem m') order kvs);
      [rewrite Hd; reflexivity | | reflexivity].
    eapply TrackingFacts.dict_at_prefix; eassumption.
  - destruct Ho as (lo & -> & Hlo). intros [= ->].
    apply lookup_lt_Some in Hlo. lia.
Qed.

Lemma tracking_shares_shipping_details_witness :
  exists t m',
    Api.get_order_tracking (DT := Calendar.calendar) ApiDemo.engine "order_1"
      ApiDemo.machine = (Api.Ret t, m')
    /\ Api.getitem t "shipping_details" m' = (Api.Ret (Store.VRef 9%nat), m')
    /\ Api.getitem (Store.VRef 0%nat) "shipping_details" m'
       = (Api.Ret (Store.VRef 9%nat), m')
    /\ t <> Store.VRef 0%nat.
Proof.
  eexists _, _. split; [vm_compute; reflexivity |].
  apply (tracking_shares_shipping_details (DT := Calendar.calendar)
           ApiDemo.engine "order_1" ApiDemo.machine _
           [] [Store.VRef 1%nat] (Store.VRef 0%nat) (Store.VRef 9%nat) _
           [("id", Api.str "order_1");
            ("supplier_name", Api.str "Ethiopia Coffee Cooperative 1");
            ("status", Api.str "placed");
            ("volume_lbs", Store.VAtom (Store.AInt 2500));
            ("expected_delivery_date", Api.str "2025-12-15");
            ("shipping_details", Store.VRef 9%nat)]).
  - exists 2%nat. split; reflexivity.
  - constructor.
  - eexists _, _. split; [eexists; split; reflexivity |]. split; reflexivity.
  - eexists. split; reflexivity.
  - reflexivity.
  - vm_compute. reflexivity.
Defined.

(** ** The country of a supplier *)

Module CountryFacts.

Import Store Api ApiProps.

Lemma choice_member {A} (x : A) (l : list A) (m : Machine) :
  exists c, c ∈ x :: l
            /\ choice (x :: l) m
               = (Ret c,
                  {| mem := mem m;
                     gen := {| tape := tape (gen m);
                               cursor := S (cursor (gen m)) |};
                     wall := wall m |}).
Proof.
  eexists. split; [| reflexivity].
  apply list_elem_of_In, nth_In.
  pose proof (randbelow_range (tape (gen m) (cursor (gen m)))
                (Z.of_nat (length (x :: l))) ltac:(simpl; lia)). lia.
Qed.

Lemma found_supplier (self : Engine) id m before after s :
  list_at (mem m) (suppliers self) (before ++ s :: after) ->
  Forall (has_other_id (mem m) id) before ->
  has_id (mem m) id s ->
  forall k : option val -> H val,
    (items ← iter (suppliers self); found ← find_by_id id items; k found) m
    = k (Some s) m.
Proof.
  intros Hs Hbefore Hhit k.
  rewrite ApiFacts.hbind_run, (ApiFacts.iter_run _ _ _ _ Hs eq_refl).
  rewrite ApiFacts.hbind_run, (ApiFacts.find_by_id_skip _ _ _ Hbefore),
    (ApiFacts.find_by_id_hit _ _ _ _ Hhit).
  reflexivity.
Qed.

End CountryFacts.

(** [get_country_for_supplier] answers for the first supplier with the
    identifier: with its own ["country"] when it has the key, and no draw is
    made; else, when its ["region"] is a key of the table of regions, with
    a country of that region, chosen by one draw. *)
Theorem country_of_supplier (self : Store.Engine) (id : string)
    (m : Api.Machine) (before after : list Store.val) (s : Store.val)
    (kvs : list (string * Store.val)) :
  ApiProps.list_at (Api.mem m) (Store.suppliers self)
    (before ++ s :: after) ->
  Forall (ApiProps.has_other_id (Api.mem m) id) before ->
  ApiProps.has_id (Api.mem m) id s ->
  ApiProps.dict_at (Api.mem m) s kvs ->
  match Api.assoc "country" kvs, Api.assoc "region" kvs with
  | Some country, _ =>
      Api.get_country_for_supplier self id m = (Api.Ret country, m)
  | None, Some (Store.VAtom (Store.AStr region)) =>
      match Api.countries_of region Api.region_to_country with
      | Some countries =>
          exists c,
            c ∈ countries
            /\ Api.get_country_for_supplier self id m
               = (Api.Ret (Api.str c),
                  {| Api.mem := Api.mem m;
                     Api.gen := {| tape := tape (Api.gen m);
                                   cursor := S (cursor (Api.gen m)) |};
                     Api.wall := Api.wall m |})
      | None =>
          Api.get_country_for_supplier self id m
          = (Api.Ret (Api.str "Unknown"), m)
      end
  | None, Some (Store.VAtom _) | None, None =>
      Api.get_country_for_supplier self id m
      = (Api.Ret (Api.str "Unknown"), m)
  | None, Some (Store.VRef _) =>
      Api.get_country_for_supplier self id m = (Api.Err Api.TypeErr, m)
  end.
Proof.
  intros Hs Hbefore Hhit Hd. unfold Api.get_country_for_supplier.
  rewrite (CountryFacts.found_supplier self id m before after s Hs Hbefore
             Hhit).
  rewrite ApiFacts.hbind_run, (ApiFacts.contains_run _ _ _ _ _ Hd eq_refl).
  destruct (Api.assoc "country" kvs) as [country |] eqn:Ec.
  { rewrite bool_decide_eq_true_2 by eauto.
    rewrite (ApiFacts.getitem_run _ _ _ _ _ Hd eq_refl), Ec. reflexivity. }
  rewrite bool_decide_eq_false_2 by (intros [? [=]]).
  rewrite ApiFacts.hbind_run, (ApiFacts.contains_run _ _ _ _ _ Hd eq_refl).
  destruct (Api.assoc "region" kvs) as [region |] eqn:Er.
  2:{ rewrite bool_decide_eq_false_2 by (intros [? [=]]). reflexivity. }
  rewrite bool_decide_eq_true_2 by eauto.
  rewrite ApiFacts.hbind_run, (ApiFacts.getitem_run _ _ _ _ _ Hd eq_refl), Er.
  destruct region as [[| | | | region] | l]; try reflexivity.
  unfold Api.get_country_for_region.
  destruct (Api.countries_of region Api.region_to_country)
    as [[| c0 countries] |] eqn:Et; [| | reflexivity].
  - exfalso. unfold Api.region_to_country in Et. cbn in Et.
    repeat (destruct (decide _) in Et; [discriminate |]). discriminate.
  - destruct (CountryFacts.choice_member c0 countries m) as (c & Hc & E).
    exists c. split; [exact Hc |].
    rewrite ApiFacts.hbind_run, E. reflexivity.
Qed.

Lemma country_of_supplier_witness :
  Api.get_country_for_supplier ApiDemo.engine "S1" ApiDemo.machine
  = (Api.Ret (Api.str "Unknown"), ApiDemo.machine).
Proof.
  apply (country_of_supplier ApiDemo.engine "S1" ApiDemo.machine [] []
           (Store.VRef 10%nat)
           [("id", Api.str "S1");
            ("name", Api.str "Ethiopia Coffee Cooperative 1");
            ("region", Api.str "Ethiopia")]).
  - exists 11%nat. split; reflexivity.
  - constructor.
  - eexists _, _. split; [eexists; split; reflexivity |]. split; reflexivity.
  - eexists. split; reflexivity.
Defined.

(** The suppliers that [generate_suppliers] makes have no key ["country"],
    and their ["region"] is one of eight names of countries, none of which
    is a key of the table of regions: for such a supplier
    [get_country_for_supplier] always answers ["Unknown"], without a
    draw. *)
Theorem generated_supplier_country_unknown (self : Store.Engine) (id : string)
    (m : Api.Machine) (before after : list Store.val) (s : Store.val)
    (kvs : list (string * Store.val)) (region : string) :
  ApiProps.list_at (Api.mem m) (Store.suppliers self)
    (before ++ s :: after) ->
  Forall (ApiProps.has_other_id (Api.mem m) id) before ->
  ApiProps.has_id (Api.mem m) id s ->
  ApiProps.dict_at (Api.mem m) s kvs ->
  Api.assoc "country" kvs = None ->
  Api.assoc "region" kvs = Some (Api.str region) ->
  region ∈ ApiProps.generated_regions ->
  Api.get_country_for_supplier self id m = (Api.Ret (Api.str "Unknown"), m).
Proof.
  intros Hs Hbefore Hhit Hd Ec Er Hregion.
  unfold Api.get_country_for_supplier.
  rewrite (CountryFacts.found_supplier self id m before after s Hs Hbefore
             Hhit).
  rewrite ApiFacts.hbind_run, (ApiFacts.contains_run _ _ _ _ _ Hd eq_refl), Ec.
  rewrite bool_decide_eq_false_2 by (intros [? [=]]).
  rewrite ApiFacts.hbind_run, (ApiFacts.contains_run _ _ _ _ _ Hd eq_refl), Er.
  rewrite bool_decide_eq_true_2 by eauto.
  rewrite ApiFacts.hbind_run, (ApiFacts.getitem_run _ _ _ _ _ Hd eq_refl), Er.
  unfold Api.str, Api.get_country_for_region.
  assert (Hnone : Api.countries_of region Api.region_to_country = None).
  { unfold ApiProps.generated_regions in Hregion.
    rewrite !elem_of_cons, elem_of_nil in Hregion.
    repeat (destruct Hregion as [-> | Hregion]; [reflexivity |]).
    contradiction. }
  rewrite Hnone. reflexivity.
Qed.

Lemma generated_supplier_country_unknown_witness :
  Api.get_country_for_supplier ApiDemo.engine "S1" ApiDemo.machine
  = (Api.Ret (Api.str "Unknown"), ApiDemo.machine).
Proof.
  apply (generated_supplier_country_unknown ApiDemo.engine "S1"
           ApiDemo.machine [] [] (Store.VRef 10%nat)
           [("id", Api.str "S1");
            ("name", Api.str "Ethiopia Coffee Cooperative 1");
            ("region", Api.str "Ethiopia")] "Ethiopia").
  - exists 11%nat. split; reflexivity.
  - constructor.
  - eexists _, _. split; [eexists; split; reflexivity |]. split; reflexivity.
  - eexists. split; reflexivity.
  - reflexivity.
  - reflexivity.
  - apply list_elem_of_here.
Defined.

(** ** The initial data *)

Module GeneratorFacts.

Import Generator GeneratorProps.

Section Yields.

Context {A : Type}.

Lemma yields_ret t (a : A) (Q : A -> Prop) : Q a -> yields t (mret a) Q.
Proof. intros H w Hw. exists a, w. auto. Qed.

Lemma yields_conseq t (m : M A) (P Q : A -> Prop) :
  (forall a, P a -> Q a) -> yields t m P -> yields t m Q.
Proof.
  intros HPQ Hm w Hw. destruct (Hm w Hw) as (a & w' & E & Hs & Hc & Ha).
  exists a, w'. auto.
Qed.

Lemma yields_bind {B} t (m : M B) (P : B -> Prop) (k : B -> M A)
    (Q : A -> Prop) :
  yields t m P -> (forall b, P b -> yields t (k b) Q) -> yields t (m ≫= k) Q.
Proof.
  intros Hm Hk w Hw. destruct (Hm w Hw) as (b & w1 & E & Hs & Hc & Hb).
  destruct (Hk b Hb w1 Hc) as (a & w2 & E2 & Hs2 & Hc2 & Ha).
  exists a, w2. rewrite bind_run, E. split; [exact E2 |].
  split; [congruence | auto].
Qed.

End Yields.

Lemma yields_random t : yields t random (fun u => (0 <= u < 1)%Q).
Proof.
  intros w Hw. eexists. eexists. split; [apply random_run |].
  cbn [self clock]. split; [reflexivity |]. split; [exact Hw |].
  apply frac_bounds.
Qed.

Lemma yields_uniform t (a b : Q) :
  (a <= b)%Q -> yields t (uniform a b) (in_range a b).
Proof.
  intros Hab. unfold uniform.
  apply (yields_bind _ _ _ _ _ (yields_random t)). intros u [H0 H1].
  apply yields_ret. unfold in_range. split; nra.
Qed.

Lemma yields_randbelow t (n : Z) :
  0 < n -> yields t (randbelow n) (fun k => 0 <= k < n).
Proof.
  intros Hn w Hw. unfold randbelow. rewrite bind_run, random_run.
  eexists. eexists. split; [reflexivity |]. cbn [self clock].
  split; [reflexivity |]. split; [exact Hw |]. apply randbelow_range, Hn.
Qed.

Lemma yields_randint t (a b : Z) :
  a <= b -> yields t (randint a b) (fun n => a <= n <= b).
Proof.
  intros Hab. unfold randint.
  destruct (b <? a) eqn:E; [apply Z.ltb_lt in E; lia |].
  apply (yields_bind _ _ _ _ _ (yields_randbelow t (b - a + 1) ltac:(lia))).
  intros k Hk. cbv beta in Hk. apply yields_ret. lia.
Qed.

Lemma yields_choice {A} t (l : list A) :
  l <> [] -> yields t (choice l) (fun x => x ∈ l).
Proof.
  intros Hl. destruct l as [| x l]; [contradiction |]. unfold choice.
  apply (yields_bind _ _ _ _ _
           (yields_randbelow t (Z.of_nat (length (x :: l)))
              ltac:(simpl; lia))).
  intros k Hk. cbv beta in Hk. apply yields_ret.
  apply list_elem_of_In, nth_In. lia.
Qed.

Lemma yields_now t : yields t datetime_now (fun x => x = t).
Proof. intros w Hw. exists (clock w), w. rewrite now_run. auto. Qed.

(** *** [random.sample] *)

Lemma pool_step {A} (pool : list A) (j : nat) (x y : A) :
  pool !! j = Some x -> last pool = Some y ->
  length (removelast (<[j := y]> pool)) = pred (length pool)
  /\ pool ≡ₚ x :: removelast (<[j := y]> pool).
Proof.
  intros Hx Hy. apply last_Some in Hy as [init ->].
  destruct (decide (j = length init)) as [-> | Hj].
  - rewrite list_lookup_middle in Hx by reflexivity. injection Hx as <-.
    rewrite list_insert_id by (apply list_lookup_middle; reflexivity).
    rewrite removelast_last, length_app. simpl.
    split; [lia |]. symmetry. apply Permutation_cons_append.
  - assert (Hlt : (j < length init)%nat).
    { apply lookup_lt_Some in Hx. rewrite length_app in Hx. simpl in Hx. lia. }
    rewrite lookup_app_l in Hx by exact Hlt.
    rewrite insert_app_l by exact Hlt.
    rewrite removelast_last, length_app, length_insert. simpl.
    split; [lia |].
    rewrite insert_take_drop by exact Hlt.
    rewrite <- (take_drop_middle init j x Hx) at 1.
    rewrite <- app_assoc. cbn [app].
    rewrite <- !Permutation_middle, app_nil_r. reflexivity.
Qed.

Lemma sample_from_yields {A} t (k : nat) : forall pool : list A,
  (k <= length pool)%nat ->
  yields t (sample_from pool k) (fun l => length l = k /\ l ⊆+ pool).
Proof.
  induction k as [| k IH]; intros pool Hk.
  - apply yields_ret. split; [reflexivity | apply submseteq_nil_l].
  - cbn [sample_from].
    apply (yields_bind _ _ _ _ _
             (yields_randbelow t (Z.of_nat (length pool)) ltac:(lia))).
    intros j Hj. cbv beta in Hj.
    destruct (lookup_lt_is_Some_2 pool (Z.to_nat j) ltac:(lia)) as [x Hx].
    rewrite Hx. destruct (last pool) as [y |] eqn:Hy.
    + destruct (pool_step pool (Z.to_nat j) x y Hx Hy) as [Hlen Hperm].
      apply (yields_bind _ _ _ _ _
               (IH (removelast (<[Z.to_nat j := y]> pool)) ltac:(lia))).
      intros rest [Hl Hsub]. apply yields_ret. split; [simpl; lia |].
      rewrite Hperm. apply submseteq_skip, Hsub.
    + apply last_None in Hy. subst pool. simpl in Hk. lia.
Qed.

Lemma sample_yields {A} t (population : list A) (k : Z) :
  0 <= k <= Z.of_nat (length population) ->
  yields t (sample population k)
    (fun l => length l = Z.to_nat k /\ l ⊆+ population).
Proof.
  intros Hk. unfold sample.
  destruct (k <? 0) eqn:E1; [apply Z.ltb_lt in E1; lia |].
  destruct (Z.of_nat (length population) <? k) eqn:E2;
    [apply Z.ltb_lt in E2; lia |].
  cbn [orb]. apply sample_from_yields. lia.
Qed.

(** *** Rounding *)

Lemma round_range (d : nat) (lo hi x : Q) :
  (inject_Z (Qfloor (lo * inject_Z (10 ^ Z.of_nat d)))
   == lo * inject_Z (10 ^ Z.of_nat d))%Q ->
  (inject_Z (Qfloor (hi * inject_Z (10 ^ Z.of_nat d)))
   == hi * inject_Z (10 ^ Z.of_nat d))%Q ->
  in_range lo hi x -> in_range lo hi (Py.round x d).
Proof.
  intros Hlo Hhi [H1 H2]. unfold Py.round.
  set (scale := inject_Z (10 ^ Z.of_nat d)) in *.
  assert (Hs : (0 < scale)%Q).
  { unfold scale. change 0%Q with (inject_Z 0). rewrite <- Zlt_Qlt.
    apply Z.pow_pos_nonneg; lia. }
  assert (Ha : (inject_Z (Qfloor (lo * scale)) <= x * scale)%Q)
    by (rewrite Hlo; nra).
  assert (Hb : (x * scale <= inject_Z (Qfloor (hi * scale)))%Q)
    by (rewrite Hhi; nra).
  apply round_half_even_ge in Ha. apply round_half_even_le in Hb.
  rewrite Zle_Qle in Ha, Hb. rewrite Hlo in Ha. rewrite Hhi in Hb.
  set (r := inject_Z (Py.round_half_even (x * scale))) in *.
  unfold in_range. split.
  - apply Qle_shift_div_l; [exact Hs | exact Ha].
  - apply Qle_shift_div_r; [exact Hs | exact Hb].
Qed.

Lemma round_tenths (lo hi x : Q) :
  tenths lo -> tenths hi -> in_range lo hi x -> in_range lo hi (Py.round x 1).
Proof. apply (round_range 1). Qed.

Lemma round_cents (lo hi x : Q) :
  (inject_Z (Qfloor (lo * 100)) == lo * 100)%Q ->
  (inject_Z (Qfloor (hi * 100)) == hi * 100)%Q ->
  in_range lo hi x -> in_range lo hi (Py.round x 2).
Proof. apply (round_range 2). Qed.


(** *** The suppliers *)

Lemma regions_ok : Forall region_ok regions.
Proof.
  unfold regions, region_ok, tenths.
  repeat constructor; cbn; try lia; try reflexivity; try discriminate.
Qed.

Ltac yields_draw H :=
  lazymatch goal with
  | |- yields ?t (mbind _ (randint ?a ?b)) _ =>
      apply (yields_bind _ _ _ _ _ (yields_randint t a b ltac:(lia)));
      intros ? H; cbv beta in H
  | |- yields ?t (mbind _ (uniform ?a ?b)) _ =>
      apply (yields_bind _ _ _ _ _ (yields_uniform t a b ltac:(lra)));
      intros ? H
  | |- yields ?t (mbind _ (choice ?l)) _ =>
      apply (yields_bind _ _ _ _ _ (yields_choice t l ltac:(discriminate)));
      intros ? H; cbv beta in H
  end.

Lemma generate_supplier_yields t (i : Z) :
  yields t (generate_supplier i) (supplier_ok i).
Proof.
  unfold generate_supplier. cbv zeta.
  yields_draw Hr.
  match goal with r : Region |- _ =>
    pose proof (proj1 (Forall_forall _ _) regions_ok r Hr)
      as (Hb & Hlo & Hhi & H5 & Hle & H10)
  end.
  yields_draw Hbc.
  match goal with
  | |- yields _ (mbind _ (sample ?p ?k)) _ =>
      apply (yields_bind _ _ _ _ _ (sample_yields t p k ltac:(lia)))
  end.
  intros beans [Hbl Hbs].
  yields_draw Hcc.
  match goal with
  | |- yields _ (mbind _ (sample ?p ?k)) _ =>
      apply (yields_bind _ _ _ _ _ (sample_yields t p k ltac:(simpl; lia)))
  end.
  intros certs [Hcl Hcs].
  destruct (r_quality_range _) as [qmin qmax] eqn:Hq. cbn [fst snd] in *.
  apply (yields_bind _ _ _ _ _ (yields_uniform t qmin qmax Hle)).
  intros q Hqr.
  yields_draw Hc. yields_draw Hrel. yields_draw Hy. yields_draw Hsus.
  apply yields_ret. unfold supplier_ok.
  cbn [as_supplier s_id s_name quality_score reliability_score
       sustainability_score capacity_kg_per_year bean_types region
       supplier_certifications years_in_business].
  split; [reflexivity |].
  eexists _, beans, _. rewrite Hq. cbn [fst snd].
  split; [exact Hr |]. split; [reflexivity |]. split; [reflexivity |].
  split; [reflexivity |].
  split; [apply round_tenths; assumption |].
  split; [reflexivity |]. split; [lia |]. split; [exact Hbs |].
  split; [apply round_tenths; [reflexivity | reflexivity | exact Hrel] |].
  split; [apply round_tenths; [reflexivity | reflexivity | exact Hsus] |].
  split; [eexists; split; [exact Hc | reflexivity] |].
  split; [simpl in Hcl; lia |]. split; [exact Hcs | exact Hy].
Qed.

Lemma generate_from_yields t (n : nat) : forall first,
  yields t (generate_from first n)
    (fun l => length l = n
              /\ forall (i : nat) d,
                   l !! i = Some d -> supplier_ok (first + Z.of_nat i) d).
Proof.
  induction n as [| n IH]; intros first; cbn [generate_from].
  - apply yields_ret. split; [reflexivity |]. intros i d H.
    rewrite lookup_nil in H. discriminate.
  - apply (yields_bind _ _ _ _ _ (generate_supplier_yields t first)).
    intros d0 Hd0.
    apply (yields_bind _ _ _ _ _ (IH (first + 1))).
    intros rest [Hlen Hrest]. apply yields_ret.
    split; [simpl; lia |]. intros [| i] d H.
    + injection H as <-. rewrite Z.add_0_r. exact Hd0.
    + replace (first + Z.of_nat (S i)) with (first + 1 + Z.of_nat i) by lia.
      apply Hrest, H.
Qed.


(** *** The market *)

Section Market.
Context `{DT : DatetimeLib}.

Lemma generate_history_yields t (now : datetime) (n : nat) : forall p,
  yields t (generate_history now p n)
    (fun l => length l = n
              /\ forall (i : nat) pt,
                   l !! i = Some pt ->
                   pp_date pt
                   = isoformat
                       (now - timedelta_of_days (Z.of_nat n - Z.of_nat i))).
Proof.
  induction n as [| n IH]; intros p; cbn [generate_history].
  - apply yields_ret. split; [reflexivity |]. intros i d H.
    rewrite lookup_nil in H. discriminate.
  - cbv zeta. yields_draw Hpct.
    match goal with
    | |- yields _ (mbind _ (generate_history _ ?p' _)) _ =>
        apply (yields_bind _ _ _ _ _ (IH p'))
    end.
    intros rest [Hlen Hrest]. apply yields_ret.
    split; [simpl; lia |]. intros [| i] pt H.
    + injection H as <-. cbn [pp_date]. rewrite Z.sub_0_r. reflexivity.
    + rewrite (Hrest i pt H). do 3 f_equal. lia.
Qed.

Lemma generate_regional_prices_yields t (base : Q) (names : list string) :
  yields t (generate_regional_prices base names) (fun d => d.*1 = names).
Proof.
  induction names as [| name names IH]; cbn [generate_regional_prices].
  - apply yields_ret. reflexivity.
  - yields_draw Hv. apply (yields_bind _ _ _ _ _ IH).
    intros d Hd. apply yields_ret. cbn. rewrite Hd. reflexivity.
Qed.

Lemma generate_factor_yields t name (statuses details : list string) :
  statuses <> [] -> details <> [] ->
  yields t (generate_factor name statuses details) (fun f => f_name f = name).
Proof.
  intros Hs Hd. unfold generate_factor.
  apply (yields_bind _ _ _ _ _ (yields_choice t statuses Hs)). intros ? _.
  yields_draw Hi.
  apply (yields_bind _ _ _ _ _ (yields_choice t details Hd)). intros ? _.
  apply yields_ret. reflexivity.
Qed.

Lemma generate_market_conditions_yields t :
  yields t generate_market_conditions (market_ok t).
Proof.
  unfold generate_market_conditions. cbv zeta.
  apply (yields_bind _ _ _ _ _ (yields_now t)). intros ? ->.
  yields_draw Hbase.
  match goal with
  | |- yields _ (mbind _ (generate_history _ ?p _)) _ =>
      apply (yields_bind _ _ _ _ _ (generate_history_yields t t 30 p))
  end.
  intros history [Hlen Hdates].
  match goal with
  | |- yields _ (mbind _ (generate_regional_prices ?p ?l)) _ =>
      apply (yields_bind _ _ _ _ _ (generate_regional_prices_yields t p l))
  end.
  intros regional Hregional.
  do 4 yields_draw ltac:(fresh "H").
  do 3 (match goal with
        | |- yields _ (mbind _ (generate_factor ?n ?s ?d)) _ =>
            apply (yields_bind _ _ _ _ _
                     (generate_factor_yields t n s d ltac:(discriminate)
                        ltac:(discriminate)))
        end; intros ? ?).
  yields_draw Htrend. yields_draw Hshort. yields_draw Hlong.
  apply yields_ret. unfold market_ok.
  cbn [date average_price price_history regional_prices bean_prices
       market_factors price_trend].
  split; [reflexivity |].
  split; [apply round_cents; [reflexivity | reflexivity | exact Hbase] |].
  split; [exact Hlen |]. split; [exact Hdates |].
  split; [exact Hregional |]. split; [reflexivity |].
  split; [reflexivity |].
  split; [cbn; congruence | exact Htrend].
Qed.



(** *** The simulator that starts with the generated data *)



End Market.

End GeneratorFacts.

(** The suppliers of [generate_suppliers(count)]: the call returns [count]
    suppliers (none when [count] is negative); the supplier at the position
    [i] has the identifier and the name of the number [i + 1], a region of
    the table, one or two distinct bean types of that region, at most three
    distinct certifications, a quality score within the range of its region,
    a reliability in [6.0, 9.5], a sustainability in [5.0, 10.0], a capacity
    that is a multiple of 1000 between 10000 and 100000, and 3 to 50 years
    in business; no two suppliers have the same identifier. *)
Theorem generated_suppliers (count : Z) (w : World) :
  exists l w',
    Generator.generate_suppliers count w = (Ok l, w')
    /\ length l = Z.to_nat count
    /\ (forall (i : nat) d,
          l !! i = Some d -> GeneratorProps.supplier_ok (1 + Z.of_nat i) d)
    /\ NoDup (s_id <$> (Generator.as_supplier <$> l)).
Proof.
  destruct (GeneratorFacts.generate_from_yields (clock w) (Z.to_nat count) 1
              w eq_refl) as (l & w' & E & _ & _ & Hlen & Hl).
  exists l, w'. split; [exact E |]. split; [exact Hlen |].
  split; [exact Hl |].
  apply NoDup_alt. intros i j x Hi Hj.
  rewrite !list_lookup_fmap in Hi, Hj.
  destruct (l !! i) as [di |] eqn:Ei; [| discriminate].
  destruct (l !! j) as [dj |] eqn:Ej; [| discriminate].
  destruct (Hl i di Ei) as [Hidi _]. destruct (Hl j dj Ej) as [Hidj _].
  cbn in Hi, Hj. injection Hi as Hi. injection Hj as Hj.
  rewrite Hidi in Hi. rewrite Hidj in Hj. rewrite <- Hj in Hi.
  injection Hi as Hi. pose proof (pretty_Z_inj _ _ Hi). lia.
Qed.

(** The market of [generate_market_conditions]: the call returns a market
    dated now, with an average price in [4.0, 6.0], a history of thirty
    points dated from thirty days to one day before now, the eight regional
    prices and the five bean prices in the order of the source, the average
    price as the price of Arabica, the three market factors and a trend
    among Rising, Stable and Falling. *)
Theorem generated_market `{DT : DatetimeLib} (w : World) :
  exists m w',
    Generator.generate_market_conditions w = (Ok m, w')
    /\ GeneratorProps.market_ok (clock w) m.
Proof.
  destruct (GeneratorFacts.generate_market_conditions_yields (clock w) w
              eq_refl) as (m & w' & E & _ & _ & Hm).
  exists m, w'. split; [exact E | exact Hm].
Qed.


